(** * PlayBuffer: the window manager, the frame loop and the PNG loader

    A shallow embedding of [PlayWindow.cpp] (window manager, message
    procedure, frame loop, GDI+ image loading) and of the inline [Draw]
    entry point of [PlayGraphics.h].

    Conventions of the embedding:
    - C++ [int] and [LONGLONG] values are [Z] with the wrap-around written
      out ([int32], [int64]); pointers are addresses in [Z], [0] is [nullptr];
    - [float] and [double] are IEEE 754 binary32 and binary64 values of
      [spec_float], rounded to nearest even by the operations of
      [SpecFloat];
    - objects reached through pointers ([MouseData], [PixelData], pixel
      arrays) live in finite maps from addresses to values;
    - a function that can stop on a failed [PLAY_ASSERT], dereference an
      invalid pointer or spin forever returns an [Outcome]. *)

From Stdlib Require Import ZArith List String Bool Lia.
From Stdlib Require Import Floats.SpecFloat.
From stdpp Require Import gmap.
Import ListNotations.

Local Open Scope Z_scope.

(** ** Machine integers *)

Definition wrap_signed (bits z : Z) : Z :=
  (z + 2 ^ (bits - 1)) mod 2 ^ bits - 2 ^ (bits - 1).

(** [int], 32 bits. *)
Definition int32 (z : Z) : Z := wrap_signed 32 z.
(** [LONGLONG], 64 bits. *)
Definition int64 (z : Z) : Z := wrap_signed 64 z.
(** [short], 16 bits. *)
Definition int16 (z : Z) : Z := wrap_signed 16 z.

(** ** IEEE 754 arithmetic *)

Module IEEE.

Definition float := spec_float.
Definition double := spec_float.

Definition prec32 : Z := 24.
Definition emax32 : Z := 128.
Definition prec64 : Z := 53.
Definition emax64 : Z := 1024.

(** [static_cast<float>(n)] for an integer [n]. *)
Definition float_of_int (z : Z) : float :=
  binary_normalize prec32 emax32 z 0 false.

(** The implicit conversion of an integer operand to [double]. *)
Definition double_of_int (z : Z) : double :=
  binary_normalize prec64 emax64 z 0 false.

(** [static_cast<float>(d)] for a [double] [d]: one rounding. *)
Definition float_of_double (d : double) : float :=
  match d with
  | S754_finite s m e => binary_round prec32 emax32 s m e
  | _ => d
  end.

(** The promotion of a [float] operand to [double]: exact, the mantissa is
    only brought to the canonical width. *)
Definition double_of_float (f : float) : double :=
  match f with
  | S754_finite s m e => binary_round prec64 emax64 s m e
  | _ => f
  end.

Definition fdiv (x y : float) : float := SFdiv prec32 emax32 x y.
Definition fsub (x y : float) : float := SFsub prec32 emax32 x y.
Definition dmul (x y : double) : double := SFmul prec64 emax64 x y.
Definition ddiv (x y : double) : double := SFdiv prec64 emax64 x y.
Definition dlt (x y : double) : bool := SFltb x y.
Definition feq (x y : float) : bool := SFeqb x y.

(** The integer a floating-point value denotes, when it denotes one. *)
Definition exact_int (f : spec_float) : option Z :=
  match f with
  | S754_zero _ => Some 0
  | S754_finite s m e =>
      if 0 <=? e then Some (cond_Zopp s (Zpos m * 2 ^ e))
      else if (Zpos m) mod 2 ^ (- e) =? 0
           then Some (cond_Zopp s (Zpos m / 2 ^ (- e)))
           else None
  | _ => None
  end.

(** [f < n / d] for positive integers [n] and [d], decided on the exact
    value [m * 2^e] of [f]; false for a NaN. *)
Definition below_ratio (f : spec_float) (n d : Z) : bool :=
  match f with
  | S754_zero _ => true
  | S754_finite false m e =>
      if 0 <=? e then Zpos m * 2 ^ e * d <? n
      else Zpos m * d <? n * 2 ^ (- e)
  | S754_finite true _ _ => true
  | S754_infinity s => s
  | S754_nan => false
  end.

End IEEE.

(** ** The platform interface used by the file

    Message numbers and the [LPARAM] accessors are those of the Windows
    headers; [Status] is the status enumeration of GDI+. *)

Module Win32.

Definition WM_DESTROY : Z := 2.
Definition WM_PAINT : Z := 15.
Definition WM_QUIT : Z := 18.
Definition WM_MOUSEMOVE : Z := 512.
Definition WM_LBUTTONDOWN : Z := 513.
Definition WM_LBUTTONUP : Z := 514.
Definition WM_RBUTTONDOWN : Z := 516.
Definition WM_RBUTTONUP : Z := 517.
Definition WM_MOUSELEAVE : Z := 675.

Record MSG := mkMSG {
  hwnd : Z;
  message : Z;
  wParam : Z;
  lParam : Z
}.

(** [MSG msg{}]. *)
Definition MSG_zero : MSG := mkMSG 0 0 0 0.

Definition LOWORD (l : Z) : Z := Z.land l 65535.
Definition HIWORD (l : Z) : Z := Z.land (Z.shiftr l 16) 65535.
(** [((int)(short)LOWORD(lp))] and [((int)(short)HIWORD(lp))]. *)
Definition GET_X_LPARAM (lp : Z) : Z := int16 (LOWORD lp).
Definition GET_Y_LPARAM (lp : Z) : Z := int16 (HIWORD lp).
(** The packing the system applies to client coordinates. *)
Definition MAKELPARAM (lo hi : Z) : Z :=
  Z.lor (Z.land lo 65535) (Z.shiftl (Z.land hi 65535) 16).

Inductive Status :=
| Ok | GenericError | InvalidParameter | OutOfMemory | ObjectBusy
| InsufficientBuffer | NotImplemented | Win32Error | WrongState | Aborted
| FileNotFound | ValueOverflow | AccessDenied | UnknownImageFormat
| FontFamilyNotFound | FontStyleNotFound | NotTrueTypeFont
| UnsupportedGdiplusVersion | GdiplusNotInitialized | PropertyNotFound
| PropertyNotSupported | ProfileNotFound.

Definition status_code (s : Status) : Z :=
  match s with
  | Ok => 0 | GenericError => 1 | InvalidParameter => 2 | OutOfMemory => 3
  | ObjectBusy => 4 | InsufficientBuffer => 5 | NotImplemented => 6
  | Win32Error => 7 | WrongState => 8 | Aborted => 9 | FileNotFound => 10
  | ValueOverflow => 11 | AccessDenied => 12 | UnknownImageFormat => 13
  | FontFamilyNotFound => 14 | FontStyleNotFound => 15
  | NotTrueTypeFont => 16 | UnsupportedGdiplusVersion => 17
  | GdiplusNotInitialized => 18 | PropertyNotFound => 19
  | PropertyNotSupported => 20 | ProfileNotFound => 21
  end.

End Win32.

(** ** Outcomes

    [Done a s]: the call returned [a] in state [s].  [Fatal msg s]: a
    [PLAY_ASSERT] failed.  [Crash s]: the call did something C++ leaves
    undefined (an invalid pointer dereferenced, a division by zero, an array
    read or sized out of range).  [Spinning s]: the loop bound given to the
    model was used up while the loop was still running. *)

Inductive Outcome (S A : Type) : Type :=
| Done (a : A) (s : S)
| Fatal (msg : string) (s : S)
| Crash (s : S)
| Spinning (s : S).

Arguments Done {S A} a s.
Arguments Fatal {S A} msg s.
Arguments Crash {S A} s.
Arguments Spinning {S A} s.

Definition Op (S A : Type) : Type := S -> Outcome S A.

Definition ret {S A} (a : A) : Op S A := fun s => Done a s.

Definition bind {S A B} (c : Op S A) (k : A -> Op S B) : Op S B :=
  fun s =>
    match c s with
    | Done a s' => k a s'
    | Fatal msg s' => Fatal msg s'
    | Crash s' => Crash s'
    | Spinning s' => Spinning s'
    end.

Notation "x <- c ;; k" := (bind c (fun x => k))
  (at level 100, c at next level, right associativity).
Notation "c ;;; k" := (bind c (fun _ => k))
  (at level 100, right associativity).

Definition get {S} : Op S S := fun s => Done s s.
Definition modify {S} (f : S -> S) : Op S unit := fun s => Done tt (f s).
Definition crash {S A} : Op S A := fun s => Crash s.
Definition spinning {S A} : Op S A := fun s => Spinning s.

(** Modelled from the spec: the macros [PLAY_ASSERT] and [PLAY_ASSERT_MSG]
    are defined in a header that is not among the files at hand.  The
    specification calls a failed assertion a fatal precondition violation with
    an immediate abort-style assertion: the operation stops there and nothing
    after the macro runs. *)
Definition PLAY_ASSERT_MSG {S} (cond : bool) (msg : string) : Op S unit :=
  fun s => if cond then Done tt s else Fatal msg s.

Definition PLAY_ASSERT {S} (cond : bool) (expr : string) : Op S unit :=
  PLAY_ASSERT_MSG cond expr.

(** ** Data reached through pointers *)

(** A 32-bit ARGB pixel. *)
Definition Pixel := Z.

(** The members of [PixelData] the file uses. *)
Record PixelData := mkPixelData {
  width : Z;
  height : Z;
  pPixels : Z
}.

(** The members of [MouseData] the file uses; [pos] is a pair of floats. *)
Record MouseData := mkMouseData {
  pos_x : IEEE.float;
  pos_y : IEEE.float;
  left : bool;
  right : bool
}.

(** ** The state of [Play::Window] and of its surroundings *)

(** The private data of the namespace. *)
Record WindowGlobals := mkWindowGlobals {
  m_scale : Z;
  m_pPlayBuffer : Z;
  m_pMouseData : Z;
  m_hWindow : Z;
  m_bCreated : bool
}.

(** [m_scale{0}], [m_pPlayBuffer{nullptr}], ..., [m_bCreated = false]. *)
Definition globals_initial : WindowGlobals := mkWindowGlobals 0 0 0 0 false.

Definition ASSERT_WINDOW_text : string :=
  "Window Manager not initialised. Call Window::CreateManager() before using the Play::Window library functions.".

Section World.

(** The state the game keeps for itself. *)
Context {G : Type}.

(** Everything a call of this file or of the game can read or change:
    the namespace globals, the GDI+ token, the objects behind the
    registered pointers, the thread's message queue with its pending-quit
    flag, how often each system query has been made, the game's own
    state. *)
Record World := mkWorld {
  globals : WindowGlobals;
  g_pGDIToken : Z;
  mouseObjs : gmap Z MouseData;
  pixelObjs : gmap Z PixelData;
  msgQueue : list Win32.MSG;
  quitPosted : option Z;
  nCounter : nat;
  nPeek : nat;
  nFocus : nat;
  game : G
}.

Definition set_globals (g : WindowGlobals) (w : World) : World :=
  mkWorld g (g_pGDIToken w) (mouseObjs w) (pixelObjs w) (msgQueue w)
    (quitPosted w) (nCounter w) (nPeek w) (nFocus w) (game w).

Definition set_mouseObjs (m : gmap Z MouseData) (w : World) : World :=
  mkWorld (globals w) (g_pGDIToken w) m (pixelObjs w) (msgQueue w)
    (quitPosted w) (nCounter w) (nPeek w) (nFocus w) (game w).

Definition set_queue (q : list Win32.MSG) (qp : option Z) (w : World) : World :=
  mkWorld (globals w) (g_pGDIToken w) (mouseObjs w) (pixelObjs w) q
    qp (nCounter w) (nPeek w) (nFocus w) (game w).

Definition set_token (t : Z) (w : World) : World :=
  mkWorld (globals w) t (mouseObjs w) (pixelObjs w) (msgQueue w)
    (quitPosted w) (nCounter w) (nPeek w) (nFocus w) (game w).

Definition set_nCounter (n : nat) (w : World) : World :=
  mkWorld (globals w) (g_pGDIToken w) (mouseObjs w) (pixelObjs w) (msgQueue w)
    (quitPosted w) n (nPeek w) (nFocus w) (game w).

Definition set_nPeek (n : nat) (w : World) : World :=
  mkWorld (globals w) (g_pGDIToken w) (mouseObjs w) (pixelObjs w) (msgQueue w)
    (quitPosted w) (nCounter w) n (nFocus w) (game w).

Definition set_nFocus (n : nat) (w : World) : World :=
  mkWorld (globals w) (g_pGDIToken w) (mouseObjs w) (pixelObjs w) (msgQueue w)
    (quitPosted w) (nCounter w) (nPeek w) n (game w).

(** What the system answers.  The queries are deterministic in how often
    they have been made: [counter_at n] is the value of the [n]-th
    [QueryPerformanceCounter], [posted_at n] the messages the system has
    posted to the thread since the previous [PeekMessage], [focus_at n] the
    window [GetFocus] names the [n]-th time.  [CreateWindowW w h] is the
    handle of the window created for a [w] by [h] client area, [0] when the
    creation fails; [GdiplusStartup] is the status and the token GDI+ starts
    with. *)
Record Platform := mkPlatform {
  counter_at : nat -> Z;
  frequency : Z;
  posted_at : nat -> list Win32.MSG;
  focus_at : nat -> Z;
  accelerator_hit : Win32.MSG -> bool;
  CreateWindowW : Z -> Z -> Z;
  DefWindowProc : Z -> Z -> Z -> Z -> Z;
  GdiplusStartup : Win32.Status * Z
}.

(** [extern] functions the user of the library implements.  They may
    call any function of the library and of the system, so they act on the
    whole [World]. *)
Record Game := mkGame {
  MainGameEntry : World -> World;
  MainGameUpdate : IEEE.float -> World -> bool * World;
  MainGameExit : World -> Z * World
}.

(** The build: whether [_DEBUG] is defined, and the integer constant
    [FRAMES_PER_SECOND] of the library's headers. *)
Record Build := mkBuild {
  DEBUG : bool;
  FRAMES_PER_SECOND : Z
}.

Definition ASSERT_WINDOW : Op World unit :=
  w <- get ;;
  PLAY_ASSERT_MSG (m_bCreated (globals w)) ASSERT_WINDOW_text.

(** [p->member] for a [PixelData* p]. *)
Definition deref_pixel (p : Z) : Op World PixelData :=
  w <- get ;;
  match pixelObjs w !! p with
  | Some d => ret d
  | None => crash
  end.

(** [p->member] for a [MouseData* p]. *)
Definition deref_mouse (p : Z) : Op World MouseData :=
  w <- get ;;
  match mouseObjs w !! p with
  | Some d => ret d
  | None => crash
  end.

(** An assignment through a [MouseData* p]. *)
Definition update_mouse (p : Z) (f : MouseData -> MouseData) : Op World unit :=
  d <- deref_mouse p ;;
  modify (fun w => set_mouseObjs (<[p := f d]> (mouseObjs w)) w).

(** *** Create / destroy *)

Definition CreateManager (pDisplayBuffer nScale : Z) : Op World bool :=
  PLAY_ASSERT (negb (pDisplayBuffer =? 0)) "pDisplayBuffer" ;;;
  PLAY_ASSERT (0 <? nScale) "nScale > 0" ;;;
  modify (fun w =>
    set_globals
      (mkWindowGlobals nScale pDisplayBuffer (m_pMouseData (globals w))
         (m_hWindow (globals w)) true) w) ;;;
  ret true.

Definition DestroyManager : Op World bool :=
  ASSERT_WINDOW ;;;
  modify (fun w =>
    set_globals
      (mkWindowGlobals (m_scale (globals w)) (m_pPlayBuffer (globals w))
         (m_pMouseData (globals w)) (m_hWindow (globals w)) false) w) ;;;
  ret true.

Definition RegisterMouse (pMouseData : Z) : Op World unit :=
  ASSERT_WINDOW ;;;
  modify (fun w =>
    set_globals
      (mkWindowGlobals (m_scale (globals w)) (m_pPlayBuffer (globals w))
         pMouseData (m_hWindow (globals w)) (m_bCreated (globals w))) w).

Definition GetWidth : Op World Z :=
  ASSERT_WINDOW ;;;
  w <- get ;;
  d <- deref_pixel (m_pPlayBuffer (globals w)) ;;
  ret (width d).

Definition GetHeight : Op World Z :=
  ASSERT_WINDOW ;;;
  w <- get ;;
  d <- deref_pixel (m_pPlayBuffer (globals w)) ;;
  ret (height d).

Definition GetScale : Op World Z :=
  ASSERT_WINDOW ;;;
  w <- get ;;
  ret (m_scale (globals w)).

End World.

Arguments World : clear implicits.
Arguments Game : clear implicits.

(** ** The window procedure, the frame loop and [Present] *)

Section Window.

Context {G : Type}.
Variable P : Platform.
Variable user : Game G.
Variable B : Build.

Import Win32 IEEE.

(** [a / b] on [int]s: truncation towards zero, undefined for [b = 0]. *)
Definition int_div {S} (a b : Z) : Op S Z :=
  if b =? 0 then crash else ret (int32 (Z.quot a b)).

Definition set_pos_x (v : float) (d : MouseData) : MouseData :=
  mkMouseData v (pos_y d) (left d) (right d).
Definition set_pos_y (v : float) (d : MouseData) : MouseData :=
  mkMouseData (pos_x d) v (left d) (right d).
Definition set_left (v : bool) (d : MouseData) : MouseData :=
  mkMouseData (pos_x d) (pos_y d) v (right d).
Definition set_right (v : bool) (d : MouseData) : MouseData :=
  mkMouseData (pos_x d) (pos_y d) (left d) v.

(** *** System calls *)

(** The pending-quit flag of the thread is raised; the queue hands out
    [WM_QUIT] once it holds no other message. *)
Definition PostQuitMessage (code : Z) : Op (World G) unit :=
  modify (fun w => set_queue (msgQueue w) (Some code) w).

(** [PeekMessage(&msg, nullptr, 0, 0, PM_REMOVE)]: the oldest pending
    message is removed and returned, if there is one. *)
Definition PeekMessage : Op (World G) (option MSG) :=
  w <- get ;;
  let n := nPeek w in
  match (msgQueue w ++ posted_at P n)%list with
  | m :: rest =>
      modify (fun w => set_nPeek (S n) (set_queue rest (quitPosted w) w)) ;;;
      ret (Some m)
  | [] =>
      match quitPosted w with
      | Some code =>
          modify (fun w => set_nPeek (S n) (set_queue [] None w)) ;;;
          ret (Some (mkMSG 0 WM_QUIT code 0))
      | None =>
          modify (fun w => set_nPeek (S n) (set_queue [] None w)) ;;;
          ret None
      end
  end.

Definition QueryPerformanceCounter : Op (World G) Z :=
  w <- get ;;
  modify (set_nCounter (S (nCounter w))) ;;;
  ret (int64 (counter_at P (nCounter w))).

Definition QueryPerformanceFrequency : Op (World G) Z :=
  ret (int64 (frequency P)).

Definition GetFocus : Op (World G) Z :=
  w <- get ;;
  modify (set_nFocus (S (nFocus w))) ;;;
  ret (focus_at P (nFocus w)).

(** *** [WndProc] *)

Definition WndProc (hWnd message wParam lParam : Z) : Op (World G) Z :=
  ASSERT_WINDOW ;;;
  w <- get ;;
  let g := globals w in
  if message =? WM_PAINT then ret 0
  else if message =? WM_DESTROY then
    PostQuitMessage 0 ;;; ret 0
  else if message =? WM_LBUTTONDOWN then
    (if m_pMouseData g =? 0 then ret tt
     else update_mouse (m_pMouseData g) (set_left true)) ;;; ret 0
  else if message =? WM_LBUTTONUP then
    (if m_pMouseData g =? 0 then ret tt
     else update_mouse (m_pMouseData g) (set_left false)) ;;; ret 0
  else if message =? WM_RBUTTONDOWN then
    (if m_pMouseData g =? 0 then ret tt
     else update_mouse (m_pMouseData g) (set_right true)) ;;; ret 0
  else if message =? WM_RBUTTONUP then
    (if m_pMouseData g =? 0 then ret tt
     else update_mouse (m_pMouseData g) (set_right false)) ;;; ret 0
  else if message =? WM_MOUSEMOVE then
    (if m_pMouseData g =? 0 then ret tt
     else
       x <- int_div (GET_X_LPARAM lParam) (m_scale g) ;;
       update_mouse (m_pMouseData g) (set_pos_x (float_of_int x)) ;;;
       d <- deref_pixel (m_pPlayBuffer g) ;;
       y <- int_div (GET_Y_LPARAM lParam) (m_scale g) ;;
       update_mouse (m_pMouseData g)
         (set_pos_y (fsub (float_of_int (height d)) (float_of_int y)))) ;;;
    ret 0
  else if message =? WM_MOUSELEAVE then
    update_mouse (m_pMouseData g) (set_pos_x (float_of_int (-1))) ;;;
    update_mouse (m_pMouseData g) (set_pos_y (float_of_int (-1))) ;;;
    ret 0
  else ret (DefWindowProc P hWnd message wParam lParam).

(** [DispatchMessage(&msg)]: the procedure of the window the message names
    is called; the one window of the class is [m_hWindow]. *)
Definition DispatchMessage (m : MSG) : Op (World G) Z :=
  w <- get ;;
  if negb (hwnd m =? 0) && (hwnd m =? m_hWindow (globals w))
  then WndProc (hwnd m) (message m) (wParam m) (lParam m)
  else ret 0.

(** *** [Present] *)

(** [(after - before) * 1000.0 / frequency], the expression that also times
    the frame. *)
Definition milliseconds (later earlier freq : Z) : double :=
  ddiv (dmul (double_of_int (int64 (later - earlier))) (double_of_int 1000))
       (double_of_int freq).

Definition Present : Op (World G) double :=
  ASSERT_WINDOW ;;;
  before <- QueryPerformanceCounter ;;
  freq <- QueryPerformanceFrequency ;;
  w <- get ;;
  _ <- deref_pixel (m_pPlayBuffer (globals w)) ;;
  after <- QueryPerformanceCounter ;;
  ret (milliseconds after before freq).

(** *** The frame loop of [HandleWindows] *)

(** What the loop lets the outside see, in the order it happened.
    [EvFocus b] records the outcome of [GetFocus() == m_hWindow],
    [EvStamp t] the assignment [lastDrawTime = t]. *)
Inductive Event :=
| EvCreateWindow (w h hWnd : Z)
| EvPeek (m : option MSG)
| EvDispatch (m : MSG)
| EvCounter (t : Z)
| EvFocus (focused : bool)
| EvUpdate (dt : float) (quit : bool)
| EvStamp (t : Z)
| EvDwmFlush
| EvExit (code : Z)
| EvGdiplusShutdown (token : Z).

Record Machine := mkMachine {
  world : World G;
  trace : list Event
}.

Definition lift {A} (c : Op (World G) A) : Op Machine A :=
  fun m =>
    match c (world m) with
    | Done a w => Done a (mkMachine w (trace m))
    | Fatal msg w => Fatal msg (mkMachine w (trace m))
    | Crash w => Crash (mkMachine w (trace m))
    | Spinning w => Spinning (mkMachine w (trace m))
    end.

Definition emit (e : Event) : Op Machine unit :=
  modify (fun m => mkMachine (world m) (trace m ++ [e])).

(** The locals of [HandleWindows] that live across the loop. *)
Record Locals := mkLocals {
  frequency_ : Z;
  elapsedTime : double;
  lastDrawTime : Z;
  now : Z;
  msg : MSG;
  quit : bool
}.

Definition set_msg (m : MSG) (l : Locals) : Locals :=
  mkLocals (frequency_ l) (elapsedTime l) (lastDrawTime l) (now l) m (quit l).
Definition set_now (t : Z) (e : double) (l : Locals) : Locals :=
  mkLocals (frequency_ l) e (lastDrawTime l) t (msg l) (quit l).
Definition set_quit (q : bool) (l : Locals) : Locals :=
  mkLocals (frequency_ l) (elapsedTime l) (lastDrawTime l) (now l) (msg l) q.
Definition set_lastDrawTime (t : Z) (l : Locals) : Locals :=
  mkLocals (frequency_ l) (elapsedTime l) t (now l) (msg l) (quit l).

Inductive Flow := Next | Break.

(** Lines 132 to 142: one [PeekMessage], and the message it returned
    is translated and dispatched unless it is [WM_QUIT]. *)
Definition handle_messages (l : Locals) : Op Machine (Flow * Locals) :=
  r <- lift PeekMessage ;;
  emit (EvPeek r) ;;;
  match r with
  | Some m =>
      let l1 := set_msg m l in
      if message m =? WM_QUIT then ret (Break, l1)
      else if accelerator_hit P m then ret (Next, l1)
      else
        emit (EvDispatch m) ;;;
        lift (DispatchMessage m) ;;;
        ret (Next, l1)
  | None => ret (Next, l)
  end.

(** [1000.0f / FRAMES_PER_SECOND], a [float]. *)
Definition frame_interval : float :=
  fdiv (float_of_int 1000) (float_of_int (FRAMES_PER_SECOND B)).

(** Lines 144 to 149, the [do ... while]; [spin] bounds the number of
    polls. *)
Fixpoint wait_for_frame (spin : nat) (l : Locals) : Op Machine Locals :=
  match spin with
  | O => spinning
  | S k =>
      t <- lift QueryPerformanceCounter ;;
      emit (EvCounter t) ;;;
      let e := milliseconds t (lastDrawTime l) (frequency_ l) in
      let l1 := set_now t e l in
      if dlt e (double_of_float frame_interval)
      then wait_for_frame k l1
      else ret l1
  end.

(** [static_cast<float>(elapsedTime) / 1000.0f]. *)
Definition elapsed_seconds (e : double) : float :=
  fdiv (float_of_double e) (float_of_int 1000).

(** Line 155. *)
Definition call_update (l : Locals) : Op Machine Locals :=
  m <- get ;;
  let dt := elapsed_seconds (elapsedTime l) in
  let r := MainGameUpdate user dt (world m) in
  modify (fun m => mkMachine (snd r) (trace m)) ;;;
  emit (EvUpdate dt (fst r)) ;;;
  ret (set_quit (fst r) l).

(** Lines 152 to 155. *)
Definition update_if_focused (l : Locals) : Op Machine Locals :=
  if DEBUG B then call_update l
  else
    h <- lift GetFocus ;;
    m <- get ;;
    let focused := h =? m_hWindow (globals (world m)) in
    emit (EvFocus focused) ;;;
    if focused then call_update l else ret l.

(** One pass through the body of [while (!quit)]. *)
Definition frame (spin : nat) (l : Locals) : Op Machine (Flow * Locals) :=
  r <- handle_messages l ;;
  match r with
  | (Break, l1) => ret (Break, l1)
  | (Next, l1) =>
      l2 <- wait_for_frame spin l1 ;;
      l3 <- update_if_focused l2 ;;
      emit (EvStamp (now l3)) ;;;
      emit EvDwmFlush ;;;
      ret (Next, set_lastDrawTime (now l3) l3)
  end.

(** [while (!quit) { ... }]; [frames] bounds the number of passes. *)
Fixpoint frame_loop (frames spin : nat) (l : Locals) : Op Machine Locals :=
  if quit l then ret l
  else
    match frames with
    | O => spinning
    | S n =>
        r <- frame spin l ;;
        match r with
        | (Break, l1) => ret l1
        | (Next, l1) => frame_loop n spin l1
        end
    end.

(** Lines 162 to 168. *)
Definition shut_down (l : Locals) : Op Machine Z :=
  m <- get ;;
  let r := MainGameExit user (world m) in
  modify (fun m => mkMachine (snd r) (trace m)) ;;;
  emit (EvExit (fst r)) ;;;
  m <- get ;;
  PLAY_ASSERT (negb (g_pGDIToken (world m) =? 0)) "g_pGDIToken" ;;;
  emit (EvGdiplusShutdown (g_pGDIToken (world m))) ;;;
  ret (int32 (wParam (msg l))).

(** [HandleWindows].  The window class and the accelerator table do not
    reach the properties stated below and are left out; the messages the
    system sends to [WndProc] while the window is created and shown all
    take the [default] branch or the [WM_PAINT] branch, which change
    nothing here. *)
Definition HandleWindows (frames spin : nat) : Op Machine Z :=
  lift ASSERT_WINDOW ;;;
  m <- get ;;
  let g := globals (world m) in
  d <- lift (deref_pixel (m_pPlayBuffer g)) ;;
  let w := int32 (width d * m_scale g) in
  let h := int32 (height d * m_scale g) in
  let hWnd := CreateWindowW P w h in
  emit (EvCreateWindow w h hWnd) ;;;
  if hWnd =? 0 then ret 0
  else
    lift (modify (fun w =>
      set_globals
        (mkWindowGlobals (m_scale (globals w)) (m_pPlayBuffer (globals w))
           (m_pMouseData (globals w)) hWnd (m_bCreated (globals w))) w)) ;;;
    t0 <- lift QueryPerformanceCounter ;;
    emit (EvCounter t0) ;;;
    emit (EvStamp t0) ;;;
    freq <- lift QueryPerformanceFrequency ;;
    l <- frame_loop frames spin
           (mkLocals freq (S754_zero false) t0 0 MSG_zero false) ;;
    shut_down l.

(** [WinMain]: GDI+ is started, the game's entry function runs, which is
    where a game creates the managers, and the frame loop takes over. *)
Definition WinMain (frames spin : nat) : Op Machine Z :=
  let gdiStatus := fst (GdiplusStartup P) in
  let token := snd (GdiplusStartup P) in
  PLAY_ASSERT (status_code Ok =? status_code gdiStatus)
    "Gdiplus::Ok == gdiStatus" ;;;
  lift (modify (set_token token)) ;;;
  lift (modify (MainGameEntry user)) ;;;
  HandleWindows frames spin.

End Window.

(** ** Loading a PNG through GDI+ *)

Section Loading.

Import Win32.

(** What [Gdiplus::Bitmap::FromFile] hands back: the status
    [GetLastStatus] reports, the size, and the pixels [LockBits] exposes
    behind [Scan0]. *)
Record Bitmap := mkBitmap {
  last_status : Status;
  bitmap_width : Z;
  bitmap_height : Z;
  scan0 : list Pixel
}.

(** The external codec: the conversion of the path to a wide string and the
    decoding of the file it names. *)
Record Codec := mkCodec {
  mbstowcs : string -> list Z;
  FromFile : list Z -> Bitmap
}.

Variable codec : Codec.

(** [new Pixel[n]] followed by [memset(..., 0, ...)]: a fresh non-null
    address holding [n] zero pixels. *)
Definition new_pixels (n : nat) : Op (gmap Z (list Pixel)) Z :=
  heap <- get ;;
  let p := fresh ({[0]} ∪ dom heap) in
  modify (fun heap => <[p := replicate n 0]> heap) ;;;
  ret p.

(** [for (b = 0; b < n; b++) *destPixels++ = *sourcePixels++;] started at
    index [b] with [count] pixels to go; [None] when the source ends
    early. *)
Fixpoint copy_pixels (count b : nat) (src dest : list Pixel) : option (list Pixel) :=
  match count with
  | O => Some dest
  | S k =>
      match src !! b with
      | Some x => copy_pixels k (S b) src (<[b := x]> dest)
      | None => None
      end
  end.

(** [LoadPNGImage]; the reference parameter [destImage] is returned next to
    the [int]. *)
Definition LoadPNGImage (fileAndPath : string) (destImage : PixelData)
  : Op (gmap Z (list Pixel)) (Z * PixelData) :=
  let wcstring := mbstowcs codec fileAndPath in
  let bitmap := FromFile codec wcstring in
  let status := status_code (last_status bitmap) in
  if negb (status =? status_code Ok) then ret (- status, destImage)
  else
    let w := int32 (bitmap_width bitmap) in
    let h := int32 (bitmap_height bitmap) in
    let n := int32 (w * h) in
    if n <? 0 then crash
    else
      p <- new_pixels (Z.to_nat n) ;;
      match copy_pixels (Z.to_nat n) 0 (scan0 bitmap) (replicate (Z.to_nat n) 0) with
      | Some pixels =>
          modify (fun heap => <[p := pixels]> heap) ;;;
          ret (1, mkPixelData w h p)
      | None => crash
      end.

End Loading.

(** ** [Play::Graphics::Draw] *)

Section Drawing.

Import IEEE.

Record Point2f := mkPoint2f {
  x : float;
  y : float
}.

(** The aggregate of four floats [globalMultiply] is initialised with. *)
Record BlendColour := mkBlendColour {
  c0 : float;
  c1 : float;
  c2 : float;
  c3 : float
}.

(** All that a draw call reads or writes: the render target, the sprites,
    the global blend mode. *)
Variable Canvas : Type.

(** [DrawTransparent] is declared in the header and defined elsewhere. *)
Variable DrawTransparent : Z -> Point2f -> Z -> BlendColour -> Canvas -> Canvas.

(** [1.0f]. *)
Definition one : float := float_of_int 1.

(** The default argument [globalMultiply = { 1.0f, 1.0f, 1.0f, 1.0f }]. *)
Definition globalMultiply_default : BlendColour :=
  mkBlendColour one one one one.

(** [inline void Draw(...) { DrawTransparent( spriteId, pos, frameIndex ); }] *)
Definition Draw (spriteId : Z) (pos : Point2f) (frameIndex : Z) : Canvas -> Canvas :=
  DrawTransparent spriteId pos frameIndex globalMultiply_default.

End Drawing.

(** * What is stated about the code *)

(** ** Outcomes and traces *)

(** The state an outcome ends in. *)
Definition final {S A} (o : Outcome S A) : S :=
  match o with
  | Done _ s => s
  | Fatal _ s => s
  | Crash s => s
  | Spinning s => s
  end.

Definition is_spinning {S A} (o : Outcome S A) : bool :=
  match o with Spinning _ => true | _ => false end.

(** [good pre e] holds of every event [e] of the trace, [pre] being the
    events before it. *)
Definition every_event (good : list Event -> Event -> Prop)
           (tr : list Event) : Prop :=
  forall pre e post, tr = (pre ++ e :: post)%list -> good pre e.

(** The value of the most recent [lastDrawTime = t]. *)
Definition latest_stamp (tr : list Event) : option Z :=
  fold_left (fun acc e => match e with EvStamp t => Some t | _ => acc end)
            tr None.

(** The most recent reading of the performance counter. *)
Definition latest_counter (tr : list Event) : option Z :=
  fold_left (fun acc e => match e with EvCounter t => Some t | _ => acc end)
            tr None.

(** The three most recent events, the latest first. *)
Definition recent (tr : list Event) : list Event := firstn 3 (rev tr).

Definition is_update (e : Event) : bool :=
  match e with EvUpdate _ _ => true | _ => false end.

Definition is_exit (e : Event) : bool :=
  match e with EvExit _ => true | _ => false end.

Definition is_peek (e : Event) : bool :=
  match e with EvPeek _ => true | _ => false end.

(** A trace-only Hoare triple: started on a trace satisfying [Pre], the
    operation returns [a] on a trace satisfying [Post a], or stops on a
    trace satisfying [Exc spinning]. *)
Definition triple {G A} (Pre : list Event -> Prop) (c : Op (@Machine G) A)
           (Post : A -> list Event -> Prop)
           (Exc : bool -> list Event -> Prop) : Prop :=
  forall m, Pre (trace m) ->
    match c m with
    | Done a m' => Post a (trace m')
    | Fatal _ m' => Exc false (trace m')
    | Crash m' => Exc false (trace m')
    | Spinning m' => Exc true (trace m')
    end.

(** ** The timing of the update (C1) *)

(** Every call of [MainGameUpdate] gets the seconds computed from the latest
    counter reading [t] and the latest stored timestamp [a], and the
    milliseconds between them are not below the frame interval; every
    timestamp stored is the latest counter reading. *)
Definition update_timed (freq : Z) (interval : IEEE.float)
           (pre : list Event) (e : Event) : Prop :=
  match e with
  | EvUpdate dt _ =>
      exists a t,
        latest_stamp pre = Some a /\ latest_counter pre = Some t /\
        IEEE.dlt (milliseconds t a freq) (IEEE.double_of_float interval) = false /\
        dt = elapsed_seconds (milliseconds t a freq)
  | EvStamp t => latest_counter pre = Some t
  | _ => True
  end.

(** C1 as the specification states it: the seconds handed to the callback are
    never below [1 / FRAMES_PER_SECOND]. *)
Definition update_never_below_frame_time : Prop :=
  forall (P : Platform) (user : Game unit) (B : Build) (w : World unit)
         (frames spin : nat) (dt : IEEE.float) (q : bool),
    In (EvUpdate dt q)
       (trace (final (HandleWindows P user B frames spin (mkMachine w [])))) ->
    IEEE.below_ratio dt 1 (FRAMES_PER_SECOND B) = false.

(** Between two passes of the loop: the trace is timed, the timestamp last
    stored is the one the locals hold. *)
Definition timing_inv (freq : Z) (interval : IEEE.float)
           (l : Locals) (tr : list Event) : Prop :=
  every_event (update_timed freq interval) tr /\
  latest_stamp tr = Some (lastDrawTime l) /\ frequency_ l = freq.

(** After the wait: moreover the latest reading is [now], and the
    milliseconds computed from it are not below the interval. *)
Definition waited_inv (freq : Z) (interval : IEEE.float)
           (l : Locals) (tr : list Event) : Prop :=
  timing_inv freq interval l tr /\ latest_counter tr = Some (now l) /\
  elapsedTime l = milliseconds (now l) (lastDrawTime l) freq /\
  IEEE.dlt (elapsedTime l) (IEEE.double_of_float interval) = false.

(** ** The life cycle of the loop (C2) *)

(** The two ways the loop is told to stop: [PeekMessage] returned
    [WM_QUIT], or [MainGameUpdate] returned [true]. *)
Definition quit_signal (e : Event) : bool :=
  match e with
  | EvPeek (Some m) => Win32.message m =? Win32.WM_QUIT
  | EvUpdate _ q => q
  | _ => false
  end.

(** A quit signal has arrived. *)
Definition quit_signalled (tr : list Event) : bool :=
  List.existsb quit_signal tr.

(** How often [MainGameExit] has been called. *)
Definition exit_calls (tr : list Event) : nat :=
  length (List.filter is_exit tr).

(** What may happen when: the body of the loop runs only while no quit signal
    has arrived and the exit callback has not been called; the exit callback
    is called only after a quit signal, and not a second time; GDI+ is shut
    down right after it. *)
Definition lifecycle (pre : list Event) (e : Event) : Prop :=
  match e with
  | EvExit _ => quit_signalled pre = true /\ exit_calls pre = 0%nat
  | EvGdiplusShutdown _ => exists pre' c, pre = (pre' ++ [EvExit c])%list
  | EvStamp _ | EvDwmFlush => exit_calls pre = 0%nat
  | EvCreateWindow _ _ _ => pre = []
  | EvPeek _ | EvDispatch _ | EvCounter _ | EvFocus _ | EvUpdate _ _ =>
      quit_signalled pre = false /\ exit_calls pre = 0%nat
  end.

(** The loop is running: no exit yet, and the [quit] flag tells whether a
    signal has arrived. *)
Definition running_inv (l : Locals) (tr : list Event) : Prop :=
  every_event lifecycle tr /\ exit_calls tr = 0%nat /\
  quit_signalled tr = quit l.

(** In the middle of a pass: no exit yet, no signal yet, [quit] still
    false. *)
Definition in_pass_inv (l : Locals) (tr : list Event) : Prop :=
  every_event lifecycle tr /\ exit_calls tr = 0%nat /\
  quit l = false /\ quit_signalled tr = false.

(** The loop has been left on a quit signal. *)
Definition loop_left (tr : list Event) : Prop :=
  every_event lifecycle tr /\ exit_calls tr = 0%nat /\
  quit_signalled tr = true.

(** The exit callback has been called, once. *)
Definition exited_once (tr : list Event) : Prop :=
  every_event lifecycle tr /\ exit_calls tr = 1%nat /\
  quit_signalled tr = true.

(** How a run can stop short: inside the loop, with no signal and no exit; or
    on the assertion that follows the exit callback. *)
Definition stopped_short (spin : bool) (tr : list Event) : Prop :=
  every_event lifecycle tr /\
  ((exit_calls tr = 0%nat /\ quit_signalled tr = false) \/
   (spin = false /\ exit_calls tr = 1%nat /\ quit_signalled tr = true)).

(** ** The focus gate of a release build (C3) *)

(** [MainGameUpdate] is called only right after the focus test succeeded, and
    is what follows a successful test; after a failed test the timestamp is
    stored, as the latest counter reading, the pass is wound up, and the loop
    goes on to its next [PeekMessage]; every timestamp stored by a pass
    follows a focus test. *)
Definition focus_gate (pre : list Event) (e : Event) : Prop :=
  (is_update e = true -> exists rest, recent pre = EvFocus true :: rest) /\
  (forall t, e = EvStamp t ->
     latest_stamp pre = None \/
     (exists rest, recent pre = EvFocus false :: rest) \/
     (exists dt q rest, recent pre = EvUpdate dt q :: EvFocus true :: rest)) /\
  match recent pre with
  | EvFocus true :: _ => is_update e = true
  | EvFocus false :: _ => exists t, e = EvStamp t /\ latest_counter pre = Some t
  | EvStamp _ :: EvFocus false :: _ => e = EvDwmFlush
  | EvDwmFlush :: EvStamp _ :: EvFocus false :: _ => exists r, e = EvPeek r
  | _ => True
  end.

(** Nothing the gate promises is left undone at the end of a run: a trace
    does not end on a focus test or half-way through winding up a skipped
    pass, and it ends right after a skipped pass only when the bound of the
    model stopped the loop. *)
Definition settled (spin : bool) (tr : list Event) : Prop :=
  match recent tr with
  | EvFocus _ :: _ => False
  | EvStamp _ :: EvFocus false :: _ => False
  | EvDwmFlush :: EvStamp _ :: EvFocus false :: _ => spin = true
  | _ => True
  end.

(** At the head of the loop. *)
Definition gate_head (l : Locals) (tr : list Event) : Prop :=
  every_event focus_gate tr /\
  ((quit l = false /\
    exists t rest, recent tr = EvDwmFlush :: EvStamp t :: EvFocus false :: rest) \/
   (exists t dt q rest,
      recent tr = EvDwmFlush :: EvStamp t :: EvUpdate dt q :: rest) \/
   (exists t t0 rest, recent tr = EvStamp t :: EvCounter t0 :: rest)).

Definition polling (e : Event) : bool :=
  match e with
  | EvPeek _ | EvDispatch _ | EvCounter _ => true
  | _ => false
  end.

(** After the messages have been handled and while the counter is polled. *)
Definition gate_polling (l : Locals) (tr : list Event) : Prop :=
  every_event focus_gate tr /\ quit l = false /\
  exists e rest, recent tr = e :: rest /\ polling e = true.

(** After the wait. *)
Definition gate_waited (l : Locals) (tr : list Event) : Prop :=
  every_event focus_gate tr /\ quit l = false /\
  latest_counter tr = Some (now l) /\
  exists rest, recent tr = EvCounter (now l) :: rest.

(** After the focus test and the call it guards. *)
Definition gate_updated (l : Locals) (tr : list Event) : Prop :=
  every_event focus_gate tr /\ latest_counter tr = Some (now l) /\
  ((exists dt q rest, recent tr = EvUpdate dt q :: EvFocus true :: rest) \/
   (quit l = false /\ exists rest, recent tr = EvFocus false :: rest)).

(** How a run of a release build can stop short. *)
Definition gate_stopped (spin : bool) (tr : list Event) : Prop :=
  every_event focus_gate tr /\ settled spin tr.

(** ** One message per pass (C4) *)

(** The messages [PeekMessage] finds pending: those still queued and those
    posted since the previous call. *)
Definition pending {G : Type} (P : Platform) (w : World G) : list Win32.MSG :=
  (msgQueue w ++ posted_at P (nPeek w))%list.

(** What [PeekMessage] hands out of [pending]: its oldest message; with
    none pending, [WM_QUIT] if the quit flag is raised, else nothing. *)
Definition peeked {G : Type} (P : Platform) (w : World G) : option Win32.MSG :=
  match pending P w with
  | ms :: _ => Some ms
  | [] =>
      match quitPosted w with
      | Some code => Some (Win32.mkMSG 0 Win32.WM_QUIT code 0)
      | None => None
      end
  end.

(** C4 as the specification states it: when the message handling of a pass is
    over and the pass goes on to the wait, no message is pending. *)
Definition pass_drains_pending_messages : Prop :=
  forall (P : Platform) (l l1 : Locals) (m m1 : @Machine unit),
    handle_messages P l m = Done (Next, l1) m1 ->
    msgQueue (world m1) = [].

(** Since the start of the pass, at trace [tr0], there has been one
    [PeekMessage], the first event, which returned [r], and no other. *)
Definition one_peek (tr0 : list Event) (r : option Win32.MSG)
           (tr : list Event) : Prop :=
  exists evs, tr = (tr0 ++ EvPeek r :: evs)%list /\
              Forall (fun e => is_peek e = false) evs.

(** ** The window manager (C5, C8, C10) *)

(** What the display buffer pointer refers to has dimensions that cannot be
    drawn into. *)
Definition invalid_dimensions {G : Type} (w : World G) (p : Z) : Prop :=
  exists d, pixelObjs w !! p = Some d /\ (width d <= 0 \/ height d <= 0).

(** What [CreateManager] establishes and no other operation undoes: a created
    manager has a positive scale and a buffer pointer that is not null. *)
Definition manager_ok {G : Type} (w : World G) : Prop :=
  m_bCreated (globals w) = true ->
  0 < m_scale (globals w) /\ m_pPlayBuffer (globals w) <> 0.

(** A mouse-move position inside the client area of the window, which is
    [width * m_scale] by [height * m_scale] pixels, with coordinates the
    16-bit fields of [LPARAM] hold. *)
Definition in_window {G : Type} (w : World G) (buf : PixelData) (wx wy : Z) : Prop :=
  0 <= wx < width buf * m_scale (globals w) /\
  0 <= wy < height buf * m_scale (globals w) /\
  wx < 2 ^ 15 /\ wy < 2 ^ 15.

(** The canonical binary32 form of the integer [m], of at most 24 digits. *)
Definition canon32 (s : bool) (m : positive) : spec_float :=
  let d := Zpos (digits2_pos m) in
  match 24 - d with
  | Zpos j => S754_finite s (Pos.iter xO m j) (d - 24)
  | _ => S754_finite s m (d - 24)
  end.

(** ** Loading (C7) *)

(** The codec decoded the file: the status is [Ok], the size fits the [int]s
    it is stored in, and [LockBits] exposes one pixel per position. *)
Definition decoded (bm : Bitmap) : Prop :=
  last_status bm = Win32.Ok /\
  0 <= bitmap_width bm < 2 ^ 31 /\
  0 <= bitmap_height bm < 2 ^ 31 /\
  bitmap_width bm * bitmap_height bm < 2 ^ 31 /\
  length (scan0 bm) = Z.to_nat (bitmap_width bm * bitmap_height bm).

(** ** Sample inputs *)

(** A world in which nothing has been created yet and one degenerate pixel
    buffer sits at address 8. *)
Definition world_fresh : World unit :=
  mkWorld globals_initial 0 ∅ {[ 8 := mkPixelData 0 (-3) 0 ]}
    [] None 0%nat 0%nat 0%nat tt.

(** A world in which the manager has been created on a 320 by 240 buffer at
    scale 2, the window is 5 and a [MouseData] at address 16 is
    registered. *)
Definition world_running : World unit :=
  mkWorld (mkWindowGlobals 2 8 16 5 true) 1
    {[ 16 := mkMouseData (S754_zero false) (S754_zero false) false false ]}
    {[ 8 := mkPixelData 320 240 0 ]}
    [] None 0%nat 0%nat 0%nat tt.

(** The running world with a click, button down and button up, waiting in
    the queue. *)
Definition world_two_clicks : World unit :=
  set_queue [Win32.mkMSG 5 Win32.WM_LBUTTONDOWN 1 0;
             Win32.mkMSG 5 Win32.WM_LBUTTONUP 0 0] None world_running.

(** A platform whose counter advances by 50000 ticks per reading at 3 MHz,
    which posts nothing, and where the window 5 always has the focus. *)
Definition platform_steady : Platform :=
  mkPlatform (fun n => 50000 * Z.of_nat n) 3000000 (fun _ => [])
    (fun _ => 5) (fun _ => false) (fun _ _ => 5) (fun _ _ _ _ => 0)
    (Win32.Ok, 1).

(** The same platform, posting [WM_DESTROY] for window 5 before the first
    [PeekMessage] and nothing afterwards. *)
Definition platform_closing : Platform :=
  mkPlatform (fun n => 50000 * Z.of_nat n) 3000000
    (fun n => match n with
              | O => [Win32.mkMSG 5 Win32.WM_DESTROY 0 0]
              | _ => []
              end)
    (fun _ => 5) (fun _ => false) (fun _ _ => 5) (fun _ _ _ _ => 0)
    (Win32.Ok, 1).

(** The same platform with the focus on another window, 6. *)
Definition platform_unfocused : Platform :=
  mkPlatform (fun n => 50000 * Z.of_nat n) 3000000 (fun _ => [])
    (fun _ => 6) (fun _ => false) (fun _ _ => 5) (fun _ _ _ _ => 0)
    (Win32.Ok, 1).

(** A game that asks to quit at its first update. *)
Definition game_quits_at_once : Game unit :=
  mkGame (fun w => w) (fun _ w => (true, w)) (fun w => (0, w)).

(** A game that never asks to quit. *)
Definition game_runs_on : Game unit :=
  mkGame (fun w => w) (fun _ w => (false, w)) (fun w => (0, w)).

(** The locals as they are when the loop is entered at counter 0. *)
Definition locals_start : Locals :=
  mkLocals 3000000 (S754_zero false) 0 0 Win32.MSG_zero false.

(** A codec that decodes every path to a 2 by 1 image, and one that finds
    no file. *)
Definition codec_two_pixels : Codec :=
  mkCodec (fun _ => []) (fun _ => mkBitmap Win32.Ok 2 1 [7; 9]).

Definition codec_no_file : Codec :=
  mkCodec (fun _ => []) (fun _ => mkBitmap Win32.FileNotFound 0 0 []).

(** A world at program start, with a 320 by 240 pixel buffer at address 8. *)
Definition world_boot : World unit :=
  mkWorld globals_initial 0 ∅ {[ 8 := mkPixelData 320 240 0 ]}
    [] None 0%nat 0%nat 0%nat tt.

(** A game whose entry function creates the window manager on that buffer at
    scale 2, and which asks to quit at its first update. *)
Definition game_creates_manager : Game unit :=
  mkGame (fun w => final (CreateManager 8 2 w))
         (fun _ w => (true, w)) (fun w => (0, w)).

(** * The other loading functions: reading a size, finding an encoder,
      saving *)

(** ** [ReadPNGImage] *)

Section Reading.

Import Win32.

Variable codec : Codec.

(** [ReadPNGImage]; the reference parameters [width] and [height] are
    returned next to the [int]. *)
Definition ReadPNGImage (fileAndPath : string) (width height : Z)
  : Z * (Z * Z) :=
  let wcstring := mbstowcs codec fileAndPath in
  let bitmap := FromFile codec wcstring in
  let status := status_code (last_status bitmap) in
  if negb (status =? status_code Ok) then (- status, (width, height))
  else (1, (int32 (bitmap_width bitmap), int32 (bitmap_height bitmap))).

End Reading.

(** ** [GetEncoderClsid] *)

(** A class identifier; the code only copies it. *)
Definition CLSID := Z.

(** The members of [Gdiplus::ImageCodecInfo] the file uses. *)
Record ImageCodecInfo := mkImageCodecInfo {
  Clsid : CLSID;
  MimeType : string
}.

(** What GDI+ and the allocator answer: the [num] and [size] of
    [GetImageEncodersSize], whether [malloc] returns a block, and the array
    [GetImageEncoders] fills it with. *)
Record EncoderTable := mkEncoderTable {
  encoders_num : Z;
  encoders_size : Z;
  malloc_succeeds : bool;
  image_encoders : list ImageCodecInfo
}.

(** [wcscmp]: the sign of the first difference. *)
Definition wcscmp (a b : string) : Z :=
  match String.compare a b with
  | Eq => 0
  | Lt => -1
  | Gt => 1
  end.

Section Encoders.

Variable table : EncoderTable.

(** [for (UINT j = ...; j < num; ++j)] with [count] entries to go; the state
    is what [pClsid] points to.  [None]: the loop ran to its end. *)
Fixpoint search_encoders (count j : nat) (imageCodecInfo : list ImageCodecInfo)
         (format : string) : Op CLSID (option Z) :=
  match count with
  | O => ret None
  | S k =>
      match imageCodecInfo !! j with
      | None => crash
      | Some info =>
          if wcscmp (MimeType info) format =? 0 then
            modify (fun _ => Clsid info) ;;;
            ret (Some (int32 (Z.of_nat j)))
          else search_encoders k (S j) imageCodecInfo format
      end
  end.

Definition GetEncoderClsid (format : string) : Op CLSID Z :=
  let num := encoders_num table in
  let size := encoders_size table in
  if size =? 0 then ret (-1)
  else if negb (malloc_succeeds table) then ret (-1)
  else
    r <- search_encoders (Z.to_nat num) 0 (image_encoders table) format ;;
    match r with
    | Some j => ret j
    | None => ret (-1)
    end.

End Encoders.

(** ** [SavePNGImage] *)

Section Saving.

Import Win32.

(** What the files on disk are to GDI+. *)
Context {Disk : Type}.

(** The parts of GDI+ and of the C run time [SavePNGImage] goes through:
    the conversion of the path, [new Bitmap(w, h, PixelFormat32bppARGB)]
    followed by [LockBits], which give a status and the pixels behind
    [Scan0], the encoders, what the local [pngClsid] holds before it is
    assigned, and [Bitmap::Save]. *)
Record Imaging := mkImaging {
  path_to_wide : string -> list Z;
  new_Bitmap : Z -> Z -> Bitmap;
  encoder_table : EncoderTable;
  unassigned_clsid : CLSID;
  Save : list Z -> CLSID -> Bitmap -> Disk -> Status * Disk
}.

Variable gdi : Imaging.

(** The pixel memory of the program, and the disk. *)
Record Storage := mkStorage {
  pixel_heap : gmap Z (list Pixel);
  disk : Disk
}.

(** [SavePNGImage].  The copy loop reads [sourceImage.pPixels] and writes
    through [Scan0]; a read or a write past the end of either array is
    undefined. *)
Definition SavePNGImage (fileAndPath : string) (sourceImage : PixelData)
  : Op Storage Z :=
  let wcstring := path_to_wide gdi fileAndPath in
  let bitmap := new_Bitmap gdi (width sourceImage) (height sourceImage) in
  let n := int32 (width sourceImage * height sourceImage) in
  s <- get ;;
  let sourcePixels := default [] (pixel_heap s !! pPixels sourceImage) in
  if Z.of_nat (length (scan0 bitmap)) <? n then crash
  else
    match copy_pixels (Z.to_nat n) 0 sourcePixels (scan0 bitmap) with
    | None => crash
    | Some pixels =>
        match GetEncoderClsid (encoder_table gdi) "image/png"
                (unassigned_clsid gdi) with
        | Done _ pngClsid =>
            let saved :=
              Save gdi wcstring pngClsid
                (mkBitmap (last_status bitmap) (bitmap_width bitmap)
                   (bitmap_height bitmap) pixels) (disk s) in
            modify (fun s => mkStorage (pixel_heap s) (snd saved)) ;;;
            let status := status_code (fst saved) in
            if negb (status =? status_code Ok) then ret (- status)
            else ret 1
        | _ => crash
        end
    end.

End Saving.

Arguments Imaging : clear implicits.
Arguments Storage : clear implicits.
(** * Further properties of the code *)

(** ** Sequences of calls *)

(** The operations of the window manager a game or the system can call. *)
Inductive ManagerCall :=
| CallCreateManager (pDisplayBuffer nScale : Z)
| CallDestroyManager
| CallRegisterMouse (pMouseData : Z)
| CallGetWidth
| CallGetHeight
| CallGetScale
| CallPresent
| CallWndProc (hWnd message wParam lParam : Z).

Definition call {G : Type} (P : Platform) (c : ManagerCall) : Op (World G) unit :=
  match c with
  | CallCreateManager p s => CreateManager p s ;;; ret tt
  | CallDestroyManager => DestroyManager ;;; ret tt
  | CallRegisterMouse p => RegisterMouse p
  | CallGetWidth => GetWidth ;;; ret tt
  | CallGetHeight => GetHeight ;;; ret tt
  | CallGetScale => GetScale ;;; ret tt
  | CallPresent => Present P ;;; ret tt
  | CallWndProc hWnd message wParam lParam =>
      WndProc P hWnd message wParam lParam ;;; ret tt
  end.

(** The calls one after the other; the first that does not return ends the
    sequence. *)
Fixpoint calls {G : Type} (P : Platform) (cs : list ManagerCall)
  : Op (World G) unit :=
  match cs with
  | [] => ret tt
  | c :: rest => call P c ;;; calls P rest
  end.

(** The messages handed to [WndProc] one after the other. *)
Fixpoint deliver {G : Type} (P : Platform) (ms : list Win32.MSG)
  : Op (World G) unit :=
  match ms with
  | [] => ret tt
  | m :: rest =>
      WndProc P (Win32.hwnd m) (Win32.message m) (Win32.wParam m)
        (Win32.lParam m) ;;;
      deliver P rest
  end.

(** Whether a button is held after the messages [ms], when it was [held]
    before them: the latest of its two messages decides. *)
Definition button_after (down up : Z) (ms : list Win32.MSG) (held : bool)
  : bool :=
  fold_left
    (fun b m =>
       if Win32.message m =? down then true
       else if Win32.message m =? up then false
       else b)
    ms held.

(** The five messages [WndProc] handles only when a [MouseData] is
    registered. *)
Definition guarded_mouse_message (message : Z) : bool :=
  (message =? Win32.WM_LBUTTONDOWN) || (message =? Win32.WM_LBUTTONUP) ||
  (message =? Win32.WM_RBUTTONDOWN) || (message =? Win32.WM_RBUTTONUP) ||
  (message =? Win32.WM_MOUSEMOVE).

(** The world apart from the objects behind [MouseData] pointers and
    the pending-quit flag is the same in [w] and [w']. *)
Definition same_but_mouse_and_quit {G : Type} (w w' : World G) : Prop :=
  globals w' = globals w /\ g_pGDIToken w' = g_pGDIToken w /\
  pixelObjs w' = pixelObjs w /\ msgQueue w' = msgQueue w /\
  nCounter w' = nCounter w /\ nPeek w' = nPeek w /\ nFocus w' = nFocus w /\
  game w' = game w.

(** ** Sample inputs *)

(** A session on the world at program start: the manager is created on the
    buffer at address 8, a mouse is registered, the scale is read, the manager
    is destroyed and created again at another scale. *)
Definition session : list ManagerCall :=
  [CallCreateManager 8 2; CallRegisterMouse 16; CallGetScale;
   CallDestroyManager; CallCreateManager 8 3; CallGetWidth].

(** A right-button press, a move and a left click for window 5. *)
Definition messages_click : list Win32.MSG :=
  [Win32.mkMSG 5 Win32.WM_RBUTTONDOWN 2 0;
   Win32.mkMSG 5 Win32.WM_MOUSEMOVE 2 (Win32.MAKELPARAM 10 20);
   Win32.mkMSG 5 Win32.WM_LBUTTONDOWN 3 (Win32.MAKELPARAM 10 20);
   Win32.mkMSG 5 Win32.WM_LBUTTONUP 2 (Win32.MAKELPARAM 10 20)].

(** The running world with no [MouseData] registered. *)
Definition world_no_mouse : World unit :=
  mkWorld (mkWindowGlobals 2 8 0 5 true) 1 ∅
    {[ 8 := mkPixelData 320 240 0 ]}
    [] None 0%nat 0%nat 0%nat tt.

(** Of the objects behind [MouseData] pointers only the one at [p] may differ
    between [w] and [w'], none has been added or removed, and the rest of the
    world, the pending-quit flag included, is the same. *)
Definition mouse_frame {G : Type} (p : Z) (w w' : World G) : Prop :=
  same_but_mouse_and_quit w w' /\ quitPosted w' = quitPosted w /\
  dom (mouseObjs w') = dom (mouseObjs w) /\
  (forall a, a <> p -> mouseObjs w' !! a = mouseObjs w !! a).

(** The operation [c] stays within that frame, however it ends. *)
Definition keeps_frame {G A : Type} (p : Z) (c : Op (World G) A) : Prop :=
  forall w, mouse_frame p w (final (c w)).

(** The five encoders GDI+ comes with, the PNG encoder last; the class
    identifiers are stand-ins. *)
Definition table_five : EncoderTable :=
  mkEncoderTable 5 520 true
    [mkImageCodecInfo 4000 "image/bmp"; mkImageCodecInfo 4001 "image/jpeg";
     mkImageCodecInfo 4002 "image/gif"; mkImageCodecInfo 4005 "image/tiff";
     mkImageCodecInfo 4006 "image/png"].

(** The code returned for a GDI+ status by the loading and saving
    functions: 1 for [Ok], the negated status otherwise. *)
Definition result_code (s : Win32.Status) : Z :=
  if negb (Win32.status_code s =? Win32.status_code Win32.Ok)
  then - Win32.status_code s
  else 1.

(** An imaging library over a disk that holds one file at most: a bitmap is
    created with the pixels it is asked for, all zero, saving stores the
    bitmap whatever the path and the encoder, and reading hands the stored
    bitmap back. *)
Definition imaging_one_file : Imaging (option Bitmap) :=
  mkImaging
    (fun path =>
       map (fun c => Z.of_nat (Ascii.nat_of_ascii c)) (list_ascii_of_string path))
    (fun w h => mkBitmap Win32.Ok w h (replicate (Z.to_nat (w * h)) 0))
    table_five 0
    (fun _ _ bitmap _ => (Win32.Ok, Some bitmap)).

Definition read_one_file (d : option Bitmap) (path : list Z) : Bitmap :=
  match d with
  | Some bitmap => bitmap
  | None => mkBitmap Win32.FileNotFound 0 0 []
  end.

(** Pixel memory with a 2 by 1 image at address 4, and an empty disk. *)
Definition storage_two_pixels : Storage (option Bitmap) :=
  mkStorage {[ 4 := [7; 9] ]} None.

(** ** The order of events in a run of [HandleWindows] *)

(** The message the local [msg] holds: the latest one [PeekMessage]
    returned, [MSG msg{}] before the first. *)
Definition latest_message (tr : list Event) : Win32.MSG :=
  fold_left
    (fun acc e => match e with EvPeek (Some m) => m | _ => acc end)
    tr Win32.MSG_zero.

(** A message the loop hands to [DispatchMessage]: it is not [WM_QUIT] and
    [TranslateAccelerator] did not consume it. *)
Definition dispatchable (P : Platform) (m : Win32.MSG) : bool :=
  negb (Win32.message m =? Win32.WM_QUIT) && negb (accelerator_hit P m).

Definition MSG_eqb (a b : Win32.MSG) : bool :=
  (Win32.hwnd a =? Win32.hwnd b) && (Win32.message a =? Win32.message b) &&
  (Win32.wParam a =? Win32.wParam b) && (Win32.lParam a =? Win32.lParam b).

(** Where a run is, told from the events so far. *)
Inductive Phase :=
| AtStart
| NoWindow
| WindowCreated
| FirstReading (t : Z)
| LoopHead (quit : bool)
| Peeked (r : option Win32.MSG)
| Dispatched
| Polled (t : Z)
| FocusTested (focused : bool) (t : Z)
| Updated (quit : bool) (t : Z)
| Stamped (quit : bool)
| Exited
| ShutDown.

(** The event [e] may come next in phase [ph], and leads to the phase
    returned. *)
Definition step (P : Platform) (B : Build) (ph : Phase) (e : Event)
  : option Phase :=
  match ph, e with
  | AtStart, EvCreateWindow _ _ hWnd =>
      Some (if hWnd =? 0 then NoWindow else WindowCreated)
  | WindowCreated, EvCounter t => Some (FirstReading t)
  | FirstReading t, EvStamp t' =>
      if t =? t' then Some (LoopHead false) else None
  | LoopHead false, EvPeek r => Some (Peeked r)
  | LoopHead true, EvExit _ => Some Exited
  | Peeked (Some m), EvExit _ =>
      if Win32.message m =? Win32.WM_QUIT then Some Exited else None
  | Peeked (Some m), EvDispatch m' =>
      if dispatchable P m && MSG_eqb m m' then Some Dispatched else None
  | Peeked (Some m), EvCounter t =>
      if (Win32.message m =? Win32.WM_QUIT) || dispatchable P m then None
      else Some (Polled t)
  | Peeked None, EvCounter t => Some (Polled t)
  | Dispatched, EvCounter t => Some (Polled t)
  | Polled _, EvCounter t => Some (Polled t)
  | Polled t, EvFocus focused =>
      if DEBUG B then None else Some (FocusTested focused t)
  | Polled t, EvUpdate _ q =>
      if DEBUG B then Some (Updated q t) else None
  | FocusTested true t, EvUpdate _ q => Some (Updated q t)
  | FocusTested false t, EvStamp t' =>
      if t =? t' then Some (Stamped false) else None
  | Updated q t, EvStamp t' =>
      if t =? t' then Some (Stamped q) else None
  | Stamped q, EvDwmFlush => Some (LoopHead q)
  | Exited, EvGdiplusShutdown _ => Some ShutDown
  | _, _ => None
  end.

(** The phase the events [tr] lead to from the start; [None] when one of
    them came out of order. *)
Definition phase_after (P : Platform) (B : Build) (tr : list Event)
  : option Phase :=
  fold_left
    (fun acc e => match acc with Some ph => step P B ph e | None => None end)
    tr (Some AtStart).

(** The phases in which the next thing the loop does is to read the
    counter. *)
Definition ready_to_poll (P : Platform) (ph : Phase) : bool :=
  match ph with
  | Peeked None | Dispatched | Polled _ => true
  | Peeked (Some m) =>
      negb ((Win32.message m =? Win32.WM_QUIT) || dispatchable P m)
  | _ => false
  end.

(** The phases a run can stop in without returning: on a failed assertion
    or an invalid dereference before the window exists, inside [WndProc],
    or after the exit callback; and, when the bound of the model is reached
    ([spin]), at the head of the loop or in the wait. *)
Definition stops_at (P : Platform) (spin : bool) (ph : Phase) : bool :=
  match ph with
  | AtStart | Dispatched | Exited => true
  | LoopHead false => spin
  | Peeked _ | Polled _ => spin && ready_to_poll P ph
  | _ => false
  end.

(** The phases the outcome [o] of a run can leave it in: a run that
    returns has either found no window or shut GDI+ down. *)
Definition ends_in {S A : Type} (P : Platform) (o : Outcome S A) (ph : Phase)
  : bool :=
  match o with
  | Done _ _ =>
      match ph with NoWindow | ShutDown => true | _ => false end
  | Spinning _ => stops_at P true ph
  | Fatal _ _ | Crash _ => stops_at P false ph
  end.

(** The trace is in phase [ph] and the local [msg] holds the latest message
    retrieved. *)
Definition in_phase (P : Platform) (B : Build) (ph : Phase) (l : Locals)
           (tr : list Event) : Prop :=
  phase_after P B tr = Some ph /\ msg l = latest_message tr.

(** How a run stops short, as a trace. *)
Definition stopped_in_phase (P : Platform) (B : Build) (spin : bool)
           (tr : list Event) : Prop :=
  exists ph, phase_after P B tr = Some ph /\ stops_at P spin ph = true.

(** The steady platform with [WM_QUIT], exit code 7, posted before the first
    [PeekMessage]. *)
Definition platform_quit_posted : Platform :=
  mkPlatform (fun n => 50000 * Z.of_nat n) 3000000
    (fun n => match n with
              | O => [Win32.mkMSG 0 Win32.WM_QUIT 7 0]
              | _ => []
              end)
    (fun _ => 5) (fun _ => false) (fun _ _ => 5) (fun _ _ _ _ => 0)
    (Win32.Ok, 1).

(** The steady platform on which no window can be created. *)
Definition platform_no_window : Platform :=
  mkPlatform (fun n => 50000 * Z.of_nat n) 3000000 (fun _ => [])
    (fun _ => 5) (fun _ => false) (fun _ _ => 0) (fun _ _ _ _ => 0)
    (Win32.Ok, 1).

(** ** The wait *)

(** The value of the [i]-th reading of the counter from world [w] on. *)
Definition reading {G : Type} (P : Platform) (w : World G) (i : nat) : Z :=
  int64 (counter_at P (nCounter w + i)).

(** The milliseconds the wait computes from that reading. *)
Definition elapsed_at {G : Type} (P : Platform) (l : Locals) (w : World G)
           (i : nat) : IEEE.double :=
  milliseconds (reading P w i) (lastDrawTime l) (frequency_ l).

(** Whether the wait goes round again on that reading:
    [elapsedTime < 1000.0f / FRAMES_PER_SECOND]. *)
Definition too_early {G : Type} (P : Platform) (B : Build) (l : Locals)
           (w : World G) (i : nat) : bool :=
  IEEE.dlt (elapsed_at P l w i) (IEEE.double_of_float (frame_interval B)).

(** ** The GDI+ token *)

(** The callbacks of the game leave [g_pGDIToken] alone. *)
Definition leaves_token {G : Type} (user : Game G) : Prop :=
  (forall w, g_pGDIToken (MainGameEntry user w) = g_pGDIToken w) /\
  (forall dt w, g_pGDIToken (snd (MainGameUpdate user dt w)) = g_pGDIToken w) /\
  (forall w, g_pGDIToken (snd (MainGameExit user w)) = g_pGDIToken w).

(** The token is [tok], and GDI+ has been shut down with no other token and
    not with zero. *)
Definition token_inv {G : Type} (tok : Z) (m : @Machine G) : Prop :=
  g_pGDIToken (world m) = tok /\
  forall t, In (EvGdiplusShutdown t) (trace m) -> t = tok /\ t <> 0.

Definition keeps_token_inv {G A : Type} (tok : Z) (c : Op (@Machine G) A)
  : Prop :=
  forall m, token_inv tok m -> token_inv tok (final (c m)).

Definition is_shutdown (e : Event) : bool :=
  match e with EvGdiplusShutdown _ => true | _ => false end.

(** ** Signs of floating-point values *)

(** The value is a number and carries the sign [s]. *)
Definition has_sign (s : bool) (f : spec_float) : Prop :=
  match f with
  | S754_zero s' | S754_finite s' _ _ | S754_infinity s' => s' = s
  | S754_nan => False
  end.

(** The value is a number and is not below zero: a zero of either sign, a
    positive finite value, or plus infinity. *)
Definition not_negative (f : spec_float) : bool :=
  match f with
  | S754_zero _ => true
  | S754_finite s _ _ | S754_infinity s => negb s
  | S754_nan => false
  end.

(** An imaging library with no encoder installed, whose disk remembers the
    class identifier a bitmap was saved under; the local [pngClsid] starts
    out as 77. *)
Definition imaging_no_encoder : Imaging (option (CLSID * Bitmap)) :=
  mkImaging
    (fun path =>
       map (fun c => Z.of_nat (Ascii.nat_of_ascii c))
         (list_ascii_of_string path))
    (fun w h => mkBitmap Win32.Ok w h (replicate (Z.to_nat (w * h)) 0))
    (mkEncoderTable 0 0 true []) 77
    (fun _ clsid bitmap _ => (Win32.Ok, Some (clsid, bitmap))).
(** * Drawing a sprite: [DrawTransparent]

    [PlayGraphics.h] declares [DrawTransparent] and defines [Draw] by a call
    of it; the body of [DrawTransparent] is in a file of the library that is
    not at hand, and is taken from the specification of the rasterizer. *)

(** [enum BlendMode] of [PlayGraphics.h]. *)
Inductive BlendMode :=
| BLEND_NORMAL
| BLEND_ADD
| BLEND_MULTIPLY
| BLEND_SUBTRACT.

(** [a == b] on [BlendMode]. *)
Definition BlendMode_eqb (a b : BlendMode) : bool :=
  match a, b with
  | BLEND_NORMAL, BLEND_NORMAL
  | BLEND_ADD, BLEND_ADD
  | BLEND_MULTIPLY, BLEND_MULTIPLY
  | BLEND_SUBTRACT, BLEND_SUBTRACT => true
  | _, _ => false
  end.

(** Modelled from the spec: the render target, a width by height array of
    pixels (the library's file of the render target is missing); a pixel is
    found by its column and row, and a pixel never written is zero. *)
Record RenderTarget := mkRenderTarget {
  target_width : Z;
  target_height : Z;
  target_pixels : gmap (Z * Z) Pixel
}.

Definition pixel_at (t : RenderTarget) (p : Z * Z) : Pixel :=
  default 0 (target_pixels t !! p).

(** Whether a position is one of the target's pixels. *)
Definition in_target (t : RenderTarget) (p : Z * Z) : bool :=
  (0 <=? fst p) && (fst p <? target_width t) &&
  (0 <=? snd p) && (snd p <? target_height t).

(** Modelled from the spec: the frame sub-rectangle selected from the
    premultiplied buffer of a sprite (the selection is in the missing body):
    its size and its pixels by column and row. *)
Record Frame := mkFrame {
  frame_width : Z;
  frame_height : Z;
  frame_pixel : Z -> Z -> Pixel
}.

(** All that a draw call reads or writes: the render target and the global
    [blendMode] of the header. *)
Record Canvas := mkCanvas {
  target : RenderTarget;
  blendMode : BlendMode
}.

(** Modelled from the spec: the parts of the missing body the specification
    names and does not define.  [select_frame spriteId frameIndex] is the
    frame sub-rectangle of the sprite's premultiplied buffer;
    [integer_position spriteId pos] is the integer position of the frame's
    first pixel on the target; [multiply] applies an RGBA multiply factor to
    a pixel; [composite mode source under] is the pixel a blend mode gives
    for a source pixel drawn on a target pixel.  The statements below hold
    for all of them. *)
Record Rasterizer := mkRasterizer {
  select_frame : Z -> Z -> Frame;
  integer_position : Z -> Point2f -> Z * Z;
  multiply : BlendColour -> Pixel -> Pixel;
  composite : BlendMode -> Pixel -> Pixel -> Pixel
}.

(** The positions of a [w] by [h] rectangle, row by row. *)
Definition cells (w h : Z) : list (Z * Z) :=
  j ← seqZ 0 h; i ← seqZ 0 w; [(i, j)].

Section Blit.

(** What a draw writes at a target pixel, from the source pixel and the
    pixel it finds there. *)
Variable write : Pixel -> Pixel -> Pixel.

(** Modelled from the spec: one pixel of a frame drawn with its first pixel
    at [origin]; a pixel outside the target is skipped without error. *)
Definition draw_cell (fr : Frame) (origin : Z * Z) (t : RenderTarget)
           (c : Z * Z) : RenderTarget :=
  let p := (fst origin + fst c, snd origin + snd c) in
  if in_target t p then
    mkRenderTarget (target_width t) (target_height t)
      (<[p := write (frame_pixel fr (fst c) (snd c)) (pixel_at t p)]>
         (target_pixels t))
  else t.

(** Modelled from the spec: a frame drawn on the target at an integer
    position, pixel by pixel. *)
Definition blit (fr : Frame) (origin : Z * Z) (t : RenderTarget)
  : RenderTarget :=
  fold_left (draw_cell fr origin)
    (cells (frame_width fr) (frame_height fr)) t.

End Blit.

(** Modelled from the spec: the non-blending direct copy, the fast path of
    the missing body: the source pixel replaces the target's. *)
Definition direct_copy (fr : Frame) (origin : Z * Z) (t : RenderTarget)
  : RenderTarget :=
  blit (fun source _ => source) fr origin t.

(** Modelled from the spec: the alpha composite of the frame on the target
    in a blend mode, with an RGBA multiply factor applied to the source. *)
Definition alpha_composite (R : Rasterizer) (mode : BlendMode)
           (colourMultiply : BlendColour) (fr : Frame) (origin : Z * Z)
           (t : RenderTarget) : RenderTarget :=
  blit (fun source under =>
          composite R mode (multiply R colourMultiply source) under)
    fr origin t.

(** The multiply factor is exactly opaque white: each of its four values
    equals [1.0f].  (The comment on [Draw] in the header has the multiply
    performed when a value is below [1.0f]; for the values of [Draw] the two
    readings agree.) *)
Definition opaque_white (m : BlendColour) : bool :=
  IEEE.feq (c0 m) one && IEEE.feq (c1 m) one &&
  IEEE.feq (c2 m) one && IEEE.feq (c3 m) one.

(** Modelled from the spec: the body of [DrawTransparent], which the header
    declares and a missing file defines: it selects the frame sub-rectangle
    from the sprite's premultiplied buffer and alpha-composites it onto the
    target at integer position, applying the multiply factor; when the
    factor is exactly opaque white and the blend mode is normal, composing
    falls back to the non-blending direct copy. *)
Definition DrawTransparent (R : Rasterizer) (spriteId : Z) (pos : Point2f)
           (frameIndex : Z) (globalMultiply : BlendColour) (c : Canvas)
  : Canvas :=
  let fr := select_frame R spriteId frameIndex in
  let origin := integer_position R spriteId pos in
  if opaque_white globalMultiply && BlendMode_eqb (blendMode c) BLEND_NORMAL
  then mkCanvas (direct_copy fr origin (target c)) (blendMode c)
  else mkCanvas (alpha_composite R (blendMode c) globalMultiply fr origin
                   (target c))
         (blendMode c).

(** Whether a frame drawn at [origin] has a pixel for the position [p]. *)
Definition covers (fr : Frame) (origin p : Z * Z) : bool :=
  (0 <=? fst p - fst origin) && (fst p - fst origin <? frame_width fr) &&
  (0 <=? snd p - snd origin) && (snd p - snd origin <? frame_height fr).

(** A rasterizer, a sprite and a canvas to run a draw on: a frame of two
    pixels in a row, drawn at the last column of a target of two by two
    pixels, so that its second pixel falls outside. *)
Definition rasterizer_sample : Rasterizer :=
  mkRasterizer
    (fun _ _ => mkFrame 2 1 (fun i _ => 7 + i))
    (fun _ pos =>
       (default 0 (IEEE.exact_int (x pos)), default 0 (IEEE.exact_int (y pos))))
    (fun _ source => source)
    (fun _ source under => source + under).

Definition canvas_sample : Canvas :=
  mkCanvas (mkRenderTarget 2 2 {[ (1, 0) := 3; (0, 1) := 4 ]}) BLEND_NORMAL.

Definition pos_sample : Point2f :=
  mkPoint2f (IEEE.float_of_int 1) (IEEE.float_of_int 0).
(** * Properties *)

(** ** Machine integers *)

Lemma int32_small (z : Z) : - 2 ^ 31 <= z < 2 ^ 31 -> int32 z = z.
Proof.
  intros Hz. unfold int32, wrap_signed.
  replace (32 - 1) with 31 by reflexivity.
  change (2 ^ 32) with (2 * 2 ^ 31).
  rewrite Z.mod_small; lia.
Qed.

(** ** Integers in binary32

    Integers of at most 24 binary digits are binary32 values, and the
    conversion from [int] and the subtraction are exact on them. *)

Lemma digits2_pos_iter_xO (m k : positive) :
  digits2_pos (Pos.iter xO m k) = (digits2_pos m + k)%positive.
Proof.
  induction k as [|k IH] using Pos.peano_ind.
  - simpl. now rewrite Pos.add_1_r.
  - rewrite Pos.iter_succ. simpl. rewrite IH. now rewrite Pos.add_succ_r.
Qed.

Lemma iter_pos_iter {A} (f : A -> A) (n : positive) (x : A) :
  SpecFloat.iter_pos f n x = Pos.iter f x n.
Proof.
  revert x. induction n as [n IH|n IH|]; intros x; simpl.
  - rewrite !IH. now rewrite <- !Pos.iter_swap.
  - now rewrite !IH.
  - reflexivity.
Qed.

Lemma shr_1_even (q : positive) :
  shr_1 (Build_shr_record (Zpos (xO q)) false false)
  = Build_shr_record (Zpos q) false false.
Proof. reflexivity. Qed.

Lemma iter_shr_1_exact (m n : positive) :
  SpecFloat.iter_pos shr_1 n (Build_shr_record (Zpos (Pos.iter xO m n)) false false)
  = Build_shr_record (Zpos m) false false.
Proof.
  rewrite iter_pos_iter.
  induction n as [|n IH] using Pos.peano_ind.
  - reflexivity.
  - rewrite Pos.iter_succ_r. rewrite Pos.iter_succ. rewrite shr_1_even. exact IH.
Qed.

Lemma Zpos_iter_xO (m k : positive) :
  Zpos (Pos.iter xO m k) = Zpos m * 2 ^ Zpos k.
Proof.
  change (Pos.iter xO m k) with (shift_pos k m).
  rewrite shift_pos_correct. rewrite Zpower_pos_is_exp || idtac.
  rewrite Z.mul_comm. reflexivity.
Qed.

Lemma scaled_is_iter (p m k : positive) :
  Zpos p = Zpos m * 2 ^ Zpos k -> p = Pos.iter xO m k.
Proof.
  intros H. rewrite <- Zpos_iter_xO in H. now injection H.
Qed.

Lemma digits2_pos_scaled (p m : positive) (k : Z) :
  0 <= k -> Zpos p = Zpos m * 2 ^ k ->
  Zpos (digits2_pos p) = Zpos (digits2_pos m) + k.
Proof.
  intros Hk H. destruct k as [|k|k]; [| |lia].
  - rewrite Z.pow_0_r, Z.mul_1_r in H. injection H as ->. lia.
  - apply scaled_is_iter in H. subst p. rewrite digits2_pos_iter_xO. lia.
Qed.

Lemma iter_shr_1_scaled (p m t : positive) :
  Zpos p = Zpos m * 2 ^ Zpos t ->
  SpecFloat.iter_pos shr_1 t (Build_shr_record (Zpos p) false false)
  = Build_shr_record (Zpos m) false false.
Proof.
  intros H. apply scaled_is_iter in H. subst p. apply iter_shr_1_exact.
Qed.

Lemma canon32_mantissa (s : bool) (m : positive) :
  Zpos (digits2_pos m) <= 24 ->
  exists mz, canon32 s m = S754_finite s mz (Zpos (digits2_pos m) - 24) /\
             Zpos mz = Zpos m * 2 ^ (24 - Zpos (digits2_pos m)) /\
             Zpos (digits2_pos mz) = 24.
Proof.
  intros Hd. unfold canon32. cbv zeta.
  destruct (24 - Zpos (digits2_pos m)) as [|j|j] eqn:E; [| |lia].
  - exists m. split; [reflexivity|]. rewrite Z.pow_0_r. split; lia.
  - exists (Pos.iter xO m j). split; [reflexivity|]. split.
    + apply Zpos_iter_xO.
    + rewrite digits2_pos_iter_xO. lia.
Qed.

Lemma shr_fexp_canonical (mz : positive) (e : Z) :
  Zpos (digits2_pos mz) = 24 -> -149 <= e ->
  shr_fexp 24 128 (Zpos mz) e loc_Exact
  = (Build_shr_record (Zpos mz) false false, e).
Proof.
  intros Hd He. unfold shr_fexp, Zdigits2. rewrite Hd.
  assert (Hf : fexp 24 128 (24 + e) - e = 0) by (unfold fexp, emin; lia).
  rewrite Hf. reflexivity.
Qed.

Lemma shr_fexp_scaled (p mz t : positive) (e : Z) :
  Zpos p = Zpos mz * 2 ^ Zpos t ->
  Zpos (digits2_pos mz) = 24 -> -149 <= e + Zpos t ->
  shr_fexp 24 128 (Zpos p) e loc_Exact
  = (Build_shr_record (Zpos mz) false false, e + Zpos t).
Proof.
  intros Hp Hd He. unfold shr_fexp, Zdigits2.
  rewrite (digits2_pos_scaled p mz (Zpos t)) by (lia || assumption).
  rewrite Hd.
  assert (Hf : fexp 24 128 (24 + Zpos t + e) - e = Zpos t)
    by (unfold fexp, emin; lia).
  rewrite Hf. unfold shr. simpl shr_record_of_loc.
  now rewrite (iter_shr_1_scaled p mz t Hp).
Qed.

(** Rounding a mantissa of exactly 24 digits at an exponent in range changes
    nothing. *)
Lemma binary_round_aux_canonical (s : bool) (mz : positive) (e : Z) :
  Zpos (digits2_pos mz) = 24 -> -149 <= e <= 104 ->
  binary_round_aux 24 128 s (Zpos mz) e loc_Exact = S754_finite s mz e.
Proof.
  intros Hd He. unfold binary_round_aux.
  rewrite shr_fexp_canonical by (assumption || lia).
  simpl shr_m. simpl loc_of_shr_record. simpl round_nearest_even.
  rewrite shr_fexp_canonical by (assumption || lia).
  simpl shr_m.
  destruct (Z.leb_spec e (128 - 24)); [reflexivity|lia].
Qed.

Lemma binary_round_scaled (s : bool) (m p : positive) (k : Z) :
  Zpos (digits2_pos m) <= 24 -> 0 <= k -> Zpos p = Zpos m * 2 ^ k ->
  binary_round 24 128 s p (- k) = canon32 s m.
Proof.
  intros Hd Hk Hp.
  pose proof (digits2_pos_scaled p m k Hk Hp) as Hdp.
  destruct (canon32_mantissa s m Hd) as (mz & -> & Hmz & Hdz).
  set (d := Zpos (digits2_pos m)) in *.
  assert (Hd1 : 1 <= d) by (unfold d; lia).
  unfold binary_round. rewrite Hdp.
  assert (Hf : fexp 24 128 (d + k + - k) = d - 24) by (unfold fexp, emin; lia).
  rewrite Hf. unfold shl_align.
  destruct (d - 24 - - k) as [|t|t] eqn:Et.
  - (* already aligned *)
    assert (k = 24 - d) by lia. subst k.
    assert (p = mz) by (apply Pos2Z.inj; lia). subst p.
    replace (- (24 - d)) with (d - 24) by lia.
    apply binary_round_aux_canonical; [exact Hdz|lia].
  - (* too many digits: the low ones are zero and are shifted out *)
    unfold binary_round_aux.
    rewrite (shr_fexp_scaled p mz t (- k)).
    + simpl shr_m. simpl loc_of_shr_record. simpl round_nearest_even.
      replace (- k + Zpos t) with (d - 24) by lia.
      rewrite shr_fexp_canonical by (assumption || lia).
      simpl shr_m.
      destruct (Z.leb_spec (d - 24) (128 - 24)); [reflexivity|lia].
    + rewrite Hp, Hmz. rewrite <- Z.mul_assoc, <- Z.pow_add_r by lia.
      f_equal. f_equal. lia.
    + exact Hdz.
    + lia.
  - (* too few digits: shifted left *)
    assert (Hpz : Pos.iter xO p t = mz).
    { apply Pos2Z.inj. rewrite Zpos_iter_xO, Hp, Hmz.
      rewrite <- Z.mul_assoc, <- Z.pow_add_r by lia. f_equal. f_equal. lia. }
    rewrite Hpz. apply binary_round_aux_canonical; [exact Hdz|lia].
Qed.

Lemma digits2_pos_bounds (m : positive) :
  2 ^ (Zpos (digits2_pos m) - 1) <= Zpos m < 2 ^ Zpos (digits2_pos m).
Proof.
  induction m as [m IH|m IH|]; simpl digits2_pos.
  - rewrite Pos2Z.inj_succ.
    replace (Z.succ (Zpos (digits2_pos m)) - 1) with (Z.succ (Zpos (digits2_pos m) - 1)) by lia.
    rewrite !Z.pow_succ_r by lia. lia.
  - rewrite Pos2Z.inj_succ.
    replace (Z.succ (Zpos (digits2_pos m)) - 1) with (Z.succ (Zpos (digits2_pos m) - 1)) by lia.
    rewrite !Z.pow_succ_r by lia. lia.
  - simpl. lia.
Qed.

Lemma digits2_pos_small (m : positive) (n : Z) :
  0 <= n -> Zpos m < 2 ^ n -> Zpos (digits2_pos m) <= n.
Proof.
  intros Hn Hm. pose proof (digits2_pos_bounds m) as [Hlo _].
  destruct (Z.le_gt_cases (Zpos (digits2_pos m)) n) as [|Hgt]; [assumption|].
  assert (2 ^ n <= 2 ^ (Zpos (digits2_pos m) - 1))
    by (apply Z.pow_le_mono_r; lia).
  lia.
Qed.

Lemma exact_int_canon32 (s : bool) (m : positive) :
  Zpos (digits2_pos m) <= 24 ->
  IEEE.exact_int (canon32 s m) = Some (cond_Zopp s (Zpos m)).
Proof.
  intros Hd. destruct (canon32_mantissa s m Hd) as (mz & -> & Hmz & _).
  unfold IEEE.exact_int.
  destruct (Z.leb_spec 0 (Zpos (digits2_pos m) - 24)) as [He|He].
  - assert (E : Zpos (digits2_pos m) = 24) by lia.
    rewrite E in *. simpl in Hmz. simpl.
    rewrite Hmz. f_equal. f_equal. lia.
  - replace (- (Zpos (digits2_pos m) - 24)) with (24 - Zpos (digits2_pos m)) by lia.
    set (c := 2 ^ (24 - Zpos (digits2_pos m))) in *.
    assert (0 < c) by (apply Z.pow_pos_nonneg; lia).
    clearbody c. rewrite Hmz. rewrite Z.mod_mul by lia. simpl.
    now rewrite Z.div_mul by lia.
Qed.

Lemma float_of_int_canon (z : Z) :
  z <> 0 -> Z.abs z < 2 ^ 24 ->
  IEEE.float_of_int z = canon32 (z <? 0) (Z.to_pos (Z.abs z)).
Proof.
  intros Hz Hb. unfold IEEE.float_of_int, IEEE.prec32, IEEE.emax32, binary_normalize.
  destruct z as [|m|m]; [contradiction| |].
  - change (binary_round 24 128 false m 0) with (binary_round 24 128 false m (- 0)).
    apply binary_round_scaled; [|lia|simpl; lia].
    apply digits2_pos_small; [lia|exact Hb].
  - change (binary_round 24 128 true m 0) with (binary_round 24 128 true m (- 0)).
    apply binary_round_scaled; [|lia|simpl; lia].
    apply digits2_pos_small; [lia|exact Hb].
Qed.

Lemma float_of_int_exact (z : Z) :
  Z.abs z < 2 ^ 24 -> IEEE.exact_int (IEEE.float_of_int z) = Some z.
Proof.
  intros Hb. destruct (Z.eq_dec z 0) as [->|Hz]; [reflexivity|].
  rewrite float_of_int_canon by assumption.
  rewrite exact_int_canon32.
  - f_equal. destruct z; simpl; try reflexivity. contradiction.
  - apply digits2_pos_small; [lia|]. rewrite Z2Pos.id by lia. exact Hb.
Qed.

Lemma shl_align_value (mx : positive) (ex ez : Z) :
  ez <= ex -> Zpos (fst (shl_align mx ex ez)) = Zpos mx * 2 ^ (ex - ez).
Proof.
  intros H. unfold shl_align.
  destruct (ez - ex) as [|d|d] eqn:E; simpl fst.
  - replace (ex - ez) with 0 by lia. lia.
  - lia.
  - rewrite Zpos_iter_xO. f_equal. f_equal. lia.
Qed.

Lemma cond_Zopp_mul (s : bool) (a b : Z) :
  cond_Zopp s (a * b) = cond_Zopp s a * b.
Proof. destruct s; simpl; lia. Qed.

(** The difference of two canonical integers is the canonical form of their
    difference, when that has at most 24 digits. *)
Lemma fsub_canon32_exact (sa sb : bool) (ma mb : positive) :
  Zpos (digits2_pos ma) <= 24 -> Zpos (digits2_pos mb) <= 24 ->
  Z.abs (cond_Zopp sa (Zpos ma) - cond_Zopp sb (Zpos mb)) < 2 ^ 24 ->
  IEEE.exact_int (IEEE.fsub (canon32 sa ma) (canon32 sb mb))
  = Some (cond_Zopp sa (Zpos ma) - cond_Zopp sb (Zpos mb)).
Proof.
  intros Hda Hdb Hdiff.
  destruct (canon32_mantissa sa ma Hda) as (Ma & -> & HMa & _).
  destruct (canon32_mantissa sb mb Hdb) as (Mb & -> & HMb & _).
  set (da := Zpos (digits2_pos ma)) in *.
  set (db := Zpos (digits2_pos mb)) in *.
  set (A := cond_Zopp sa (Zpos ma)) in *.
  set (B := cond_Zopp sb (Zpos mb)) in *.
  unfold IEEE.fsub, IEEE.prec32, IEEE.emax32, SFsub.
  set (ez := Z.min (da - 24) (db - 24)).
  assert (Hez : ez <= da - 24 /\ ez <= db - 24 /\ ez <= 0) by lia.
  rewrite !shl_align_value by lia.
  rewrite HMa, HMb.
  rewrite <- !Z.mul_assoc, <- !Z.pow_add_r by lia.
  replace (24 - da + (da - 24 - ez)) with (- ez) by lia.
  replace (24 - db + (db - 24 - ez)) with (- ez) by lia.
  rewrite !cond_Zopp_mul. fold A B.
  rewrite <- Z.mul_sub_distr_r.
  assert (Hc : 0 < 2 ^ (- ez)) by (apply Z.pow_pos_nonneg; lia).
  destruct (Z.eq_dec (A - B) 0) as [E0|Hne].
  - rewrite E0. reflexivity.
  - unfold binary_normalize.
    destruct ((A - B) * 2 ^ (- ez)) as [|p|p] eqn:Ep; [nia| |].
    + assert (HD : 0 < A - B) by nia.
      assert (Hdd : Zpos (digits2_pos (Z.to_pos (A - B))) <= 24).
      { apply digits2_pos_small; [lia|]. rewrite Z2Pos.id by lia. lia. }
      assert (Hr : binary_round 24 128 false p ez
                   = canon32 false (Z.to_pos (A - B))).
      { replace ez with (- (- ez)) by lia.
        apply binary_round_scaled; [exact Hdd|lia|].
        rewrite Z2Pos.id by lia. lia. }
      rewrite Hr, exact_int_canon32 by exact Hdd.
      simpl. rewrite Z2Pos.id by lia. reflexivity.
    + assert (HD : A - B < 0) by nia.
      assert (Hdd : Zpos (digits2_pos (Z.to_pos (- (A - B)))) <= 24).
      { apply digits2_pos_small; [lia|]. rewrite Z2Pos.id by lia. lia. }
      assert (Hr : binary_round 24 128 true p ez
                   = canon32 true (Z.to_pos (- (A - B)))).
      { replace ez with (- (- ez)) by lia.
        apply binary_round_scaled; [exact Hdd|lia|].
        rewrite Z2Pos.id by lia. lia. }
      rewrite Hr, exact_int_canon32 by exact Hdd.
      simpl. rewrite Z2Pos.id by lia. f_equal. lia.
Qed.

Lemma cond_Zopp_sign (z : Z) :
  z <> 0 -> cond_Zopp (z <? 0) (Zpos (Z.to_pos (Z.abs z))) = z.
Proof.
  intros Hz. destruct z; simpl; try reflexivity. contradiction.
Qed.

Lemma exact_int_SFopp (f : spec_float) :
  IEEE.exact_int (SFopp f) = option_map Z.opp (IEEE.exact_int f).
Proof.
  destruct f as [s|s| |s m e]; simpl; try reflexivity.
  destruct (0 <=? e).
  - simpl. f_equal. destruct s; simpl; lia.
  - destruct (Z.pos m mod 2 ^ (- e) =? 0); [|reflexivity].
    simpl. f_equal. destruct s; simpl; lia.
Qed.

Lemma fsub_int_exact (a b : Z) :
  Z.abs a < 2 ^ 24 -> Z.abs b < 2 ^ 24 -> Z.abs (a - b) < 2 ^ 24 ->
  IEEE.exact_int (IEEE.fsub (IEEE.float_of_int a) (IEEE.float_of_int b)) = Some (a - b).
Proof.
  intros Ha Hb Hab.
  assert (Hda : a <> 0 -> Zpos (digits2_pos (Z.to_pos (Z.abs a))) <= 24).
  { intros Hz. apply digits2_pos_small; [lia|]. rewrite Z2Pos.id by lia. exact Ha. }
  assert (Hdb : b <> 0 -> Zpos (digits2_pos (Z.to_pos (Z.abs b))) <= 24).
  { intros Hz. apply digits2_pos_small; [lia|]. rewrite Z2Pos.id by lia. exact Hb. }
  destruct (Z.eq_dec a 0) as [->|Hza]; destruct (Z.eq_dec b 0) as [->|Hzb].
  - reflexivity.
  - pose proof (float_of_int_exact b Hb) as Hx.
    rewrite (float_of_int_canon b) in * by assumption.
    destruct (canon32_mantissa (b <? 0) (Z.to_pos (Z.abs b)) (Hdb Hzb))
      as (Mb & E & _ & _).
    rewrite E in *.
    change (IEEE.fsub (IEEE.float_of_int 0) (S754_finite (b <? 0) Mb (Zpos (digits2_pos (Z.to_pos (Z.abs b))) - 24)))
      with (SFopp (S754_finite (b <? 0) Mb (Zpos (digits2_pos (Z.to_pos (Z.abs b))) - 24))).
    rewrite exact_int_SFopp, Hx. reflexivity.
  - pose proof (float_of_int_exact a Ha) as Hx.
    rewrite (float_of_int_canon a) in * by assumption.
    destruct (canon32_mantissa (a <? 0) (Z.to_pos (Z.abs a)) (Hda Hza))
      as (Ma & E & _ & _).
    rewrite E in *.
    change (IEEE.fsub (S754_finite (a <? 0) Ma (Zpos (digits2_pos (Z.to_pos (Z.abs a))) - 24)) (IEEE.float_of_int 0))
      with (S754_finite (a <? 0) Ma (Zpos (digits2_pos (Z.to_pos (Z.abs a))) - 24)).
    rewrite Hx. f_equal. lia.
  - rewrite (float_of_int_canon a), (float_of_int_canon b) by assumption.
    rewrite fsub_canon32_exact.
    + now rewrite !cond_Zopp_sign by assumption.
    + auto.
    + auto.
    + now rewrite !cond_Zopp_sign by assumption.
Qed.

(** ** The monad *)

Ltac unfold_op :=
  unfold bind, ret, get, modify, crash, spinning, PLAY_ASSERT, PLAY_ASSERT_MSG.

Lemma bind_Done {S A B} (c : Op S A) (k : A -> Op S B) s a s' :
  c s = Done a s' -> bind c k s = k a s'.
Proof. intros H. unfold bind. now rewrite H. Qed.

Lemma bind_Fatal {S A B} (c : Op S A) (k : A -> Op S B) s msg s' :
  c s = Fatal msg s' -> bind c k s = Fatal msg s'.
Proof. intros H. unfold bind. now rewrite H. Qed.

(** ** The window manager *)

Section ManagerFacts.

Context {G : Type}.
Implicit Types w : World G.

Lemma ASSERT_WINDOW_created w :
  m_bCreated (globals w) = true -> ASSERT_WINDOW w = Done tt w.
Proof. intros H. unfold ASSERT_WINDOW. unfold_op. now rewrite H. Qed.

Lemma ASSERT_WINDOW_uncreated w :
  m_bCreated (globals w) = false ->
  ASSERT_WINDOW w = Fatal ASSERT_WINDOW_text w.
Proof. intros H. unfold ASSERT_WINDOW. unfold_op. now rewrite H. Qed.

(** A created manager keeps a positive scale and a buffer pointer that is not
    null, whatever operations are called. *)
Lemma manager_ok_initial w :
  globals w = globals_initial -> manager_ok w.
Proof. intros H Hc. rewrite H in Hc. discriminate Hc. Qed.

Lemma CreateManager_manager_ok w (pDisplayBuffer nScale : Z) :
  manager_ok w -> manager_ok (final (CreateManager pDisplayBuffer nScale w)).
Proof.
  intros Hw. unfold CreateManager. unfold_op.
  destruct (Z.eqb_spec pDisplayBuffer 0) as [|Hp]; [exact Hw|]. simpl.
  destruct (Z.ltb_spec 0 nScale) as [Hs|]; [|exact Hw].
  intros _. simpl. auto.
Qed.

Lemma DestroyManager_manager_ok w :
  manager_ok w -> manager_ok (final (DestroyManager w)).
Proof.
  intros Hw. unfold DestroyManager, ASSERT_WINDOW. unfold_op.
  destruct (m_bCreated (globals w)); [|exact Hw].
  intros Hc. discriminate Hc.
Qed.

Lemma RegisterMouse_manager_ok w (pMouseData : Z) :
  manager_ok w -> manager_ok (final (RegisterMouse pMouseData w)).
Proof.
  intros Hw. unfold RegisterMouse, ASSERT_WINDOW. unfold_op.
  destruct (m_bCreated (globals w)) eqn:E; [|exact Hw].
  intros _. simpl. apply Hw. exact E.
Qed.

End ManagerFacts.

(** C5, as the specification states it: a null buffer, a non-positive scale
    or a buffer of invalid dimensions makes [CreateManager] fail.  The third
    case is false: a buffer 0 pixels wide and -3 pixels high is accepted. *)
Lemma CreateManager_accepts_invalid_dimensions :
  ~ (forall (w : World unit) (p s : Z),
        p = 0 \/ s <= 0 \/ invalid_dimensions w p ->
        exists msg, CreateManager p s w = Fatal msg w).
Proof.
  intros H.
  destruct (H world_fresh 8 1) as [msg Hmsg].
  - right. right. exists (mkPixelData 0 (-3) 0). split.
    + reflexivity.
    + left. simpl. lia.
  - discriminate Hmsg.
Qed.

(** C5, amended: [CreateManager] stops on a failed assertion when the buffer
    pointer is null or the scale is not positive; in every other case,
    whatever the dimensions of the buffer, it binds both values, marks the
    manager created and returns [true]. *)
Theorem CreateManager_checks_pointer_and_scale
    {G : Type} (w : World G) (pDisplayBuffer nScale : Z) :
  (pDisplayBuffer = 0 ->
     CreateManager pDisplayBuffer nScale w = Fatal "pDisplayBuffer" w) /\
  (pDisplayBuffer <> 0 -> nScale <= 0 ->
     CreateManager pDisplayBuffer nScale w = Fatal "nScale > 0" w) /\
  (pDisplayBuffer <> 0 -> 0 < nScale ->
     exists w',
       CreateManager pDisplayBuffer nScale w = Done true w' /\
       m_pPlayBuffer (globals w') = pDisplayBuffer /\
       m_scale (globals w') = nScale /\
       m_bCreated (globals w') = true /\
       m_pMouseData (globals w') = m_pMouseData (globals w) /\
       m_hWindow (globals w') = m_hWindow (globals w) /\
       pixelObjs w' = pixelObjs w /\ mouseObjs w' = mouseObjs w /\
       msgQueue w' = msgQueue w /\ game w' = game w).
Proof.
  unfold CreateManager. unfold_op. repeat split.
  - intros ->. reflexivity.
  - intros Hp Hs.
    destruct (Z.eqb_spec pDisplayBuffer 0) as [|_]; [contradiction|]. simpl.
    destruct (Z.ltb_spec 0 nScale); [lia|reflexivity].
  - intros Hp Hs.
    destruct (Z.eqb_spec pDisplayBuffer 0) as [|_]; [contradiction|]. simpl.
    destruct (Z.ltb_spec 0 nScale); [|lia].
    eexists. split; [reflexivity|]. simpl. repeat split; reflexivity.
Qed.

Lemma CreateManager_checks_pointer_and_scale_witness :
  let w0 := world_fresh in
  CreateManager 0 2 w0 = Fatal "pDisplayBuffer" w0 /\
  CreateManager 8 0 w0 = Fatal "nScale > 0" w0 /\
  exists w', CreateManager 8 2 w0 = Done true w' /\
             m_pPlayBuffer (globals w') = 8 /\ m_scale (globals w') = 2 /\
             m_bCreated (globals w') = true.
Proof.
  intros w0.
  split; [|split].
  - apply (proj1 (CreateManager_checks_pointer_and_scale w0 0 2)). reflexivity.
  - apply (proj1 (proj2 (CreateManager_checks_pointer_and_scale w0 8 0))); lia.
  - destruct (proj2 (proj2 (CreateManager_checks_pointer_and_scale w0 8 2)))
      as (w' & H1 & H2 & H3 & H4 & _); [lia | lia |].
    exists w'. repeat split; assumption.
Defined.

(** C6: every operation of the window manager other than [CreateManager]
    stops on the [ASSERT_WINDOW] assertion, with the state untouched and no
    value returned, when it is called before the manager has been created. *)
Theorem operations_before_creation_are_fatal
    {G : Type} (P : Platform) (user : Game G) (B : Build)
    (w : World G) (tr : list Event) :
  m_bCreated (globals w) = false ->
  Present P w = Fatal ASSERT_WINDOW_text w /\
  (forall frames spin,
     HandleWindows P user B frames spin (mkMachine w tr)
     = Fatal ASSERT_WINDOW_text (mkMachine w tr)) /\
  DestroyManager w = Fatal ASSERT_WINDOW_text w /\
  (forall pMouseData, RegisterMouse pMouseData w = Fatal ASSERT_WINDOW_text w) /\
  GetWidth w = Fatal ASSERT_WINDOW_text w /\
  GetHeight w = Fatal ASSERT_WINDOW_text w /\
  GetScale w = Fatal ASSERT_WINDOW_text w /\
  (forall hWnd message wParam lParam,
     WndProc P hWnd message wParam lParam w = Fatal ASSERT_WINDOW_text w).
Proof.
  intros Hc.
  pose proof (ASSERT_WINDOW_uncreated w Hc) as Ha.
  repeat split; intros;
    try (apply bind_Fatal; exact Ha).
  unfold HandleWindows. apply bind_Fatal. unfold lift. simpl. now rewrite Ha.
Qed.

Lemma operations_before_creation_are_fatal_witness :
  m_bCreated (globals world_fresh) = false /\
  Present platform_steady world_fresh
  = Fatal ASSERT_WINDOW_text world_fresh /\
  GetScale world_fresh = Fatal ASSERT_WINDOW_text world_fresh /\
  WndProc platform_steady 1 Win32.WM_MOUSEMOVE 0 0 world_fresh
  = Fatal ASSERT_WINDOW_text world_fresh.
Proof.
  pose proof (operations_before_creation_are_fatal platform_steady
                game_runs_on (mkBuild false 60) world_fresh [] eq_refl)
    as (H1 & _ & _ & _ & _ & _ & H7 & H8).
  split; [reflexivity|].
  split; [exact H1|].
  split; [exact H7|apply H8].
Defined.

(** ** Loading *)

Lemma status_code_positive (s : Win32.Status) :
  s <> Win32.Ok -> 0 < Win32.status_code s.
Proof. destruct s; simpl; intros H; try lia. now contradiction H. Qed.

Lemma status_code_Ok (s : Win32.Status) :
  (Win32.status_code s =? Win32.status_code Win32.Ok) = true <-> s = Win32.Ok.
Proof.
  split.
  - destruct s; simpl; intros H; try discriminate H. reflexivity.
  - intros ->. reflexivity.
Qed.

(** The copy loop rebuilds the source when the destination has its
    length. *)
Lemma copy_pixels_prefix (src : list Pixel) :
  forall (count b : nat) (dest : list Pixel),
    length dest = length src ->
    (b + count = length src)%nat ->
    take b dest = take b src ->
    copy_pixels count b src dest = Some src.
Proof.
  induction count as [|k IH]; intros b dest Hlen Hb Hpre; simpl.
  - rewrite Nat.add_0_r in Hb. subst b.
    rewrite <- Hlen in Hpre at 1.
    rewrite !firstn_all in Hpre. now subst dest.
  - destruct (lookup_lt_is_Some_2 src b ltac:(lia)) as [px Hpx].
    rewrite Hpx. apply IH.
    + now rewrite length_insert.
    + lia.
    + rewrite (take_S_r src b px Hpx).
      rewrite (take_S_r (<[b:=px]> dest) b px).
      * rewrite take_insert_ge by lia. now rewrite Hpre.
      * apply list_lookup_insert_eq. lia.
Qed.

Lemma copy_pixels_all (src : list Pixel) :
  copy_pixels (length src) 0 src (replicate (length src) 0) = Some src.
Proof.
  apply copy_pixels_prefix.
  - apply length_replicate.
  - reflexivity.
  - reflexivity.
Qed.

(** C7: for every path, [LoadPNGImage] returns the negated codec status, a
    negative number, and leaves the destination image and the pixel memory as
    they were when the codec reports a failure; it returns 1, with the
    destination bound to a fresh array holding the decoded pixels, when the
    codec decoded the file.  Either way the call returns. *)
Theorem LoadPNGImage_returns_status
    (codec : Codec) (fileAndPath : string) (destImage : PixelData)
    (heap : gmap Z (list Pixel)) :
  let bitmap := FromFile codec (mbstowcs codec fileAndPath) in
  (last_status bitmap <> Win32.Ok ->
     LoadPNGImage codec fileAndPath destImage heap
     = Done (- Win32.status_code (last_status bitmap), destImage) heap /\
     - Win32.status_code (last_status bitmap) < 0) /\
  (decoded bitmap ->
     exists p,
       p <> 0 /\ heap !! p = None /\
       LoadPNGImage codec fileAndPath destImage heap
       = Done (1, mkPixelData (bitmap_width bitmap) (bitmap_height bitmap) p)
              (<[p := scan0 bitmap]> heap)).
Proof.
  intros bitmap. unfold LoadPNGImage. fold bitmap. split.
  - intros Hs.
    destruct (Win32.status_code (last_status bitmap)
              =? Win32.status_code Win32.Ok) eqn:E.
    + apply status_code_Ok in E. contradiction.
    + simpl. split; [reflexivity|].
      pose proof (status_code_positive _ Hs). lia.
  - intros (Hs & Hw & Hh & Hwh & Hlen).
    assert (Hn : 0 <= bitmap_width bitmap * bitmap_height bitmap) by nia.
    rewrite Hs.
    change (negb (Win32.status_code Win32.Ok =? Win32.status_code Win32.Ok))
      with false.
    cbv iota.
    rewrite (int32_small (bitmap_width bitmap)) by lia.
    rewrite (int32_small (bitmap_height bitmap)) by lia.
    rewrite (int32_small (bitmap_width bitmap * bitmap_height bitmap)) by lia.
    destruct (Z.ltb_spec (bitmap_width bitmap * bitmap_height bitmap) 0) as [Hneg|_];
      [lia|].
    set (p := fresh ({[0]} ∪ dom heap)).
    assert (Hp : p ∉ ({[0]} ∪ dom heap : gset Z)) by apply is_fresh.
    exists p. split; [|split].
    + intros E. apply Hp. rewrite E.
      apply elem_of_union_l, elem_of_singleton. reflexivity.
    + apply not_elem_of_dom. intros E. apply Hp.
      apply elem_of_union_r. exact E.
    + unfold new_pixels. unfold_op. fold p. rewrite <- Hlen.
      rewrite copy_pixels_all. f_equal. apply insert_insert_eq.
Qed.

Lemma LoadPNGImage_returns_status_witness :
  LoadPNGImage codec_no_file "bat_4.png" (mkPixelData 3 4 5) ∅
  = Done (- 10, mkPixelData 3 4 5) ∅ /\
  exists p, p <> 0 /\
    LoadPNGImage codec_two_pixels "bat_4.png" (mkPixelData 3 4 5) ∅
    = Done (1, mkPixelData 2 1 p) (<[p := [7; 9]]> ∅).
Proof.
  split.
  - apply (proj1 (LoadPNGImage_returns_status codec_no_file "bat_4.png"
                    (mkPixelData 3 4 5) ∅)).
    simpl. discriminate.
  - destruct (proj2 (LoadPNGImage_returns_status codec_two_pixels "bat_4.png"
                       (mkPixelData 3 4 5) ∅)) as (p & Hp & _ & Hload).
    + unfold decoded. simpl. repeat split; try lia; reflexivity.
    + exists p. split; assumption.
Defined.

(** ** The window procedure *)

Lemma LOWORD_MAKELPARAM (lo hi : Z) :
  Win32.LOWORD (Win32.MAKELPARAM lo hi) = lo mod 2 ^ 16.
Proof.
  unfold Win32.LOWORD, Win32.MAKELPARAM.
  change 65535 with (Z.ones 16).
  rewrite Z.land_lor_distr_l.
  rewrite <- Z.land_assoc, Z.land_diag.
  assert (H : Z.land (Z.shiftl (Z.land hi (Z.ones 16)) 16) (Z.ones 16) = 0).
  { apply Z.bits_inj'. intros n Hn.
    rewrite Z.land_spec, Z.bits_0.
    destruct (Z.lt_ge_cases n 16).
    - rewrite Z.shiftl_spec_low by lia. reflexivity.
    - rewrite Z.ones_spec_high by lia. apply andb_false_r. }
  rewrite H, Z.lor_0_r. apply Z.land_ones. lia.
Qed.

Lemma HIWORD_MAKELPARAM (lo hi : Z) :
  Win32.HIWORD (Win32.MAKELPARAM lo hi) = hi mod 2 ^ 16.
Proof.
  unfold Win32.HIWORD, Win32.MAKELPARAM.
  change 65535 with (Z.ones 16).
  rewrite Z.shiftr_lor.
  rewrite Z.shiftr_shiftl_l by lia. rewrite Z.sub_diag, Z.shiftl_0_r.
  assert (H : Z.shiftr (Z.land lo (Z.ones 16)) 16 = 0).
  { rewrite Z.land_ones by lia. rewrite Z.shiftr_div_pow2 by lia.
    apply Z.div_small. apply Z.mod_pos_bound. reflexivity. }
  rewrite H, Z.lor_0_l.
  rewrite <- Z.land_assoc, Z.land_diag. apply Z.land_ones. lia.
Qed.

Lemma int16_mod (z : Z) : - 2 ^ 15 <= z < 2 ^ 15 -> int16 (z mod 2 ^ 16) = z.
Proof.
  intros Hz. unfold int16, wrap_signed.
  replace (16 - 1) with 15 by reflexivity.
  rewrite Zplus_mod_idemp_l.
  change (2 ^ 16) with (2 * 2 ^ 15).
  rewrite Z.mod_small; lia.
Qed.

(** The accessors recover the client coordinates the system packed. *)
Lemma GET_X_LPARAM_MAKELPARAM (wx wy : Z) :
  - 2 ^ 15 <= wx < 2 ^ 15 -> Win32.GET_X_LPARAM (Win32.MAKELPARAM wx wy) = wx.
Proof.
  intros H. unfold Win32.GET_X_LPARAM. rewrite LOWORD_MAKELPARAM.
  now apply int16_mod.
Qed.

Lemma GET_Y_LPARAM_MAKELPARAM (wx wy : Z) :
  - 2 ^ 15 <= wy < 2 ^ 15 -> Win32.GET_Y_LPARAM (Win32.MAKELPARAM wx wy) = wy.
Proof.
  intros H. unfold Win32.GET_Y_LPARAM. rewrite HIWORD_MAKELPARAM.
  now apply int16_mod.
Qed.

Lemma quot_16bit (a b : Z) :
  - 2 ^ 15 <= a < 2 ^ 15 -> b <> 0 -> - 2 ^ 15 <= Z.quot a b <= 2 ^ 15.
Proof.
  intros Ha Hb.
  assert (H : Z.abs (Z.quot a b) <= Z.abs a).
  { rewrite <- Z.quot_abs by assumption.
    rewrite <- (Z.quot_1_r (Z.abs a)) at 2.
    apply Z.quot_le_compat_l; lia. }
  lia.
Qed.

Lemma quot_nonneg (a b : Z) : 0 <= a -> 0 < b -> 0 <= Z.quot a b.
Proof. intros Ha Hb. apply Z.quot_pos; lia. Qed.

Section WndProcFacts.

Context {G : Type}.
Variable P : Platform.
Implicit Types w : World G.

Lemma WndProc_WM_MOUSEMOVE w (hWnd wParam lParam : Z)
      (md : MouseData) (buf : PixelData) :
  m_bCreated (globals w) = true ->
  m_pMouseData (globals w) <> 0 ->
  mouseObjs w !! m_pMouseData (globals w) = Some md ->
  pixelObjs w !! m_pPlayBuffer (globals w) = Some buf ->
  m_scale (globals w) <> 0 ->
  WndProc P hWnd Win32.WM_MOUSEMOVE wParam lParam w
  = Done 0
      (set_mouseObjs
         (<[m_pMouseData (globals w) :=
              mkMouseData
                (IEEE.float_of_int
                   (int32 (Z.quot (Win32.GET_X_LPARAM lParam) (m_scale (globals w)))))
                (IEEE.fsub
                   (IEEE.float_of_int (height buf))
                   (IEEE.float_of_int
                      (int32 (Z.quot (Win32.GET_Y_LPARAM lParam) (m_scale (globals w))))))
                (left md) (right md)]> (mouseObjs w)) w).
Proof.
  intros Hc Hp Hmd Hbuf Hs.
  unfold WndProc.
  rewrite (bind_Done _ _ w tt w (ASSERT_WINDOW_created w Hc)).
  unfold bind at 1. unfold get at 1.
  change (Win32.WM_MOUSEMOVE =? Win32.WM_PAINT) with false.
  change (Win32.WM_MOUSEMOVE =? Win32.WM_DESTROY) with false.
  change (Win32.WM_MOUSEMOVE =? Win32.WM_LBUTTONDOWN) with false.
  change (Win32.WM_MOUSEMOVE =? Win32.WM_LBUTTONUP) with false.
  change (Win32.WM_MOUSEMOVE =? Win32.WM_RBUTTONDOWN) with false.
  change (Win32.WM_MOUSEMOVE =? Win32.WM_RBUTTONUP) with false.
  change (Win32.WM_MOUSEMOVE =? Win32.WM_MOUSEMOVE) with true.
  cbv iota.
  destruct (Z.eqb_spec (m_pMouseData (globals w)) 0) as [|_]; [contradiction|].
  unfold int_div.
  destruct (Z.eqb_spec (m_scale (globals w)) 0) as [|_]; [contradiction|].
  unfold update_mouse, deref_mouse, deref_pixel. unfold_op.
  rewrite Hmd. unfold set_mouseObjs.
  cbn [mouseObjs pixelObjs globals].
  rewrite Hbuf.
  cbn [mouseObjs pixelObjs globals g_pGDIToken msgQueue quitPosted nCounter
       nPeek nFocus game].
  rewrite lookup_insert_eq.
  cbn [mouseObjs pixelObjs globals g_pGDIToken msgQueue quitPosted nCounter
       nPeek nFocus game].
  rewrite insert_insert_eq.
  reflexivity.
Qed.

Lemma WndProc_WM_MOUSELEAVE w (hWnd wParam lParam : Z) (md : MouseData) :
  m_bCreated (globals w) = true ->
  mouseObjs w !! m_pMouseData (globals w) = Some md ->
  WndProc P hWnd Win32.WM_MOUSELEAVE wParam lParam w
  = Done 0
      (set_mouseObjs
         (<[m_pMouseData (globals w) :=
              mkMouseData (IEEE.float_of_int (-1)) (IEEE.float_of_int (-1))
                (left md) (right md)]> (mouseObjs w)) w).
Proof.
  intros Hc Hmd.
  unfold WndProc.
  rewrite (bind_Done _ _ w tt w (ASSERT_WINDOW_created w Hc)).
  unfold bind at 1. unfold get at 1.
  change (Win32.WM_MOUSELEAVE =? Win32.WM_PAINT) with false.
  change (Win32.WM_MOUSELEAVE =? Win32.WM_DESTROY) with false.
  change (Win32.WM_MOUSELEAVE =? Win32.WM_LBUTTONDOWN) with false.
  change (Win32.WM_MOUSELEAVE =? Win32.WM_LBUTTONUP) with false.
  change (Win32.WM_MOUSELEAVE =? Win32.WM_RBUTTONDOWN) with false.
  change (Win32.WM_MOUSELEAVE =? Win32.WM_RBUTTONUP) with false.
  change (Win32.WM_MOUSELEAVE =? Win32.WM_MOUSEMOVE) with false.
  change (Win32.WM_MOUSELEAVE =? Win32.WM_MOUSELEAVE) with true.
  cbv iota.
  unfold update_mouse, deref_mouse. unfold_op.
  rewrite Hmd. unfold set_mouseObjs.
  cbn [mouseObjs pixelObjs globals g_pGDIToken msgQueue quitPosted nCounter
       nPeek nFocus game].
  rewrite lookup_insert_eq.
  cbn [mouseObjs pixelObjs globals g_pGDIToken msgQueue quitPosted nCounter
       nPeek nFocus game].
  rewrite insert_insert_eq.
  reflexivity.
Qed.

End WndProcFacts.

(** A non-negative integer below 2^24 converts to a float that does not
    compare equal to -1. *)
Lemma float_of_int_nonneg_not_minus_one (q : Z) :
  0 <= q < 2 ^ 24 ->
  IEEE.feq (IEEE.float_of_int q) (IEEE.float_of_int (-1)) = false.
Proof.
  intros Hq. destruct (Z.eq_dec q 0) as [->|Hz]; [reflexivity|].
  rewrite float_of_int_canon by lia.
  destruct (canon32_mantissa (q <? 0) (Z.to_pos (Z.abs q))) as (mz & -> & _ & _).
  - apply digits2_pos_small; [lia|]. rewrite Z2Pos.id by lia. lia.
  - destruct (Z.ltb_spec q 0); [lia|]. reflexivity.
Qed.

(** C8: a mouse-move event at window coordinates (wx, wy), handled with a
    registered [MouseData], stores x = wx / m_scale and
    y = height - wy / m_scale, the divisions being those of [int]; the
    stored x is exactly that integer, and so is the stored y for every
    buffer height up to 2^23.  The buttons are left as they were. *)
Theorem mouse_move_reports_logical_position
    {G : Type} (P : Platform) (w : World G) (hWnd wParam wx wy : Z)
    (md : MouseData) (buf : PixelData) :
  m_bCreated (globals w) = true ->
  m_pMouseData (globals w) <> 0 ->
  mouseObjs w !! m_pMouseData (globals w) = Some md ->
  pixelObjs w !! m_pPlayBuffer (globals w) = Some buf ->
  0 < m_scale (globals w) ->
  - 2 ^ 15 <= wx < 2 ^ 15 -> - 2 ^ 15 <= wy < 2 ^ 15 ->
  exists w' md',
    WndProc P hWnd Win32.WM_MOUSEMOVE wParam (Win32.MAKELPARAM wx wy) w
    = Done 0 w' /\
    mouseObjs w' !! m_pMouseData (globals w) = Some md' /\
    pos_x md' = IEEE.float_of_int (Z.quot wx (m_scale (globals w))) /\
    pos_y md' = IEEE.fsub (IEEE.float_of_int (height buf))
                  (IEEE.float_of_int (Z.quot wy (m_scale (globals w)))) /\
    IEEE.exact_int (pos_x md') = Some (Z.quot wx (m_scale (globals w))) /\
    (Z.abs (height buf) <= 2 ^ 23 ->
     IEEE.exact_int (pos_y md')
     = Some (height buf - Z.quot wy (m_scale (globals w)))) /\
    left md' = left md /\ right md' = right md.
Proof.
  intros Hc Hp Hmd Hbuf Hs Hx Hy.
  pose proof (quot_16bit wx (m_scale (globals w)) Hx ltac:(lia)) as Hqx.
  pose proof (quot_16bit wy (m_scale (globals w)) Hy ltac:(lia)) as Hqy.
  eexists. eexists. split.
  { rewrite (WndProc_WM_MOUSEMOVE P w hWnd wParam _ md buf) by (assumption || lia).
    rewrite GET_X_LPARAM_MAKELPARAM, GET_Y_LPARAM_MAKELPARAM by assumption.
    rewrite !int32_small by lia. reflexivity. }
  split.
  { unfold set_mouseObjs. cbn [mouseObjs]. apply lookup_insert_eq. }
  cbn [pos_x pos_y left right].
  repeat split.
  - apply float_of_int_exact. lia.
  - intros Hh. apply fsub_int_exact; lia.
Qed.

Lemma mouse_move_reports_logical_position_witness :
  exists w' md',
    WndProc platform_steady 5 Win32.WM_MOUSEMOVE 0 (Win32.MAKELPARAM 101 50)
      world_running = Done 0 w' /\
    mouseObjs w' !! 16 = Some md' /\
    IEEE.exact_int (pos_x md') = Some 50 /\
    IEEE.exact_int (pos_y md') = Some 215.
Proof.
  destruct (mouse_move_reports_logical_position platform_steady world_running
              5 0 101 50
              (mkMouseData (S754_zero false) (S754_zero false) false false)
              (mkPixelData 320 240 0))
    as (w' & md' & H1 & H2 & _ & _ & H5 & H6 & _).
  - reflexivity.
  - simpl. lia.
  - reflexivity.
  - reflexivity.
  - simpl. lia.
  - lia.
  - lia.
  - exists w', md'. repeat split; try assumption.
    apply H6. simpl. lia.
Defined.

(** C10: a mouse-leave event, handled with a registered [MouseData], sets
    the position to (-1, -1) and changes nothing else, neither the buttons nor
    any other state; a mouse-move event inside the window stores a
    non-negative x, which does not compare equal to -1. *)
Theorem mouse_leave_sets_sentinel
    {G : Type} (P : Platform) (w : World G) (hWnd wParam lParam : Z)
    (md : MouseData) :
  m_bCreated (globals w) = true ->
  m_pMouseData (globals w) <> 0 ->
  mouseObjs w !! m_pMouseData (globals w) = Some md ->
  0 < m_scale (globals w) ->
  (exists w' md',
     WndProc P hWnd Win32.WM_MOUSELEAVE wParam lParam w = Done 0 w' /\
     mouseObjs w' !! m_pMouseData (globals w) = Some md' /\
     IEEE.exact_int (pos_x md') = Some (-1) /\
     IEEE.exact_int (pos_y md') = Some (-1) /\
     left md' = left md /\ right md' = right md /\
     (forall a, a <> m_pMouseData (globals w) ->
                mouseObjs w' !! a = mouseObjs w !! a) /\
     globals w' = globals w /\ pixelObjs w' = pixelObjs w /\
     msgQueue w' = msgQueue w /\ quitPosted w' = quitPosted w /\
     game w' = game w) /\
  (forall (buf : PixelData) (hWnd2 wParam2 wx wy : Z),
     pixelObjs w !! m_pPlayBuffer (globals w) = Some buf ->
     in_window w buf wx wy ->
     exists w2 md2 qx,
       WndProc P hWnd2 Win32.WM_MOUSEMOVE wParam2 (Win32.MAKELPARAM wx wy) w
       = Done 0 w2 /\
       mouseObjs w2 !! m_pMouseData (globals w) = Some md2 /\
       IEEE.exact_int (pos_x md2) = Some qx /\ 0 <= qx /\
       IEEE.feq (pos_x md2) (IEEE.float_of_int (-1)) = false).
Proof.
  intros Hc Hp Hmd Hs. split.
  - eexists. eexists. split.
    { apply (WndProc_WM_MOUSELEAVE P w hWnd wParam lParam md Hc Hmd). }
    split.
    { unfold set_mouseObjs. cbn [mouseObjs]. apply lookup_insert_eq. }
    cbn [pos_x pos_y left right].
    repeat split.
    intros a Ha. unfold set_mouseObjs. cbn [mouseObjs].
    apply lookup_insert_ne. congruence.
  - intros buf hWnd2 wParam2 wx wy Hbuf (Hx & Hy & Hx16 & Hy16).
    pose proof (quot_16bit wx (m_scale (globals w)) ltac:(lia) ltac:(lia)) as Hqx.
    pose proof (quot_16bit wy (m_scale (globals w)) ltac:(lia) ltac:(lia)) as Hqy.
    pose proof (quot_nonneg wx (m_scale (globals w)) ltac:(lia) Hs) as Hq0.
    eexists. eexists. exists (Z.quot wx (m_scale (globals w))). split.
    { rewrite (WndProc_WM_MOUSEMOVE P w hWnd2 wParam2 _ md buf)
        by (assumption || lia).
      rewrite GET_X_LPARAM_MAKELPARAM, GET_Y_LPARAM_MAKELPARAM by lia.
      rewrite !int32_small by lia. reflexivity. }
    split.
    { unfold set_mouseObjs. cbn [mouseObjs]. apply lookup_insert_eq. }
    cbn [pos_x].
    split; [apply float_of_int_exact; lia|].
    split; [exact Hq0|].
    apply float_of_int_nonneg_not_minus_one. lia.
Qed.

Lemma mouse_leave_sets_sentinel_witness :
  exists w' md',
    WndProc platform_steady 5 Win32.WM_MOUSELEAVE 0 0 world_running = Done 0 w' /\
    mouseObjs w' !! 16 = Some md' /\
    IEEE.exact_int (pos_x md') = Some (-1) /\
    IEEE.exact_int (pos_y md') = Some (-1).
Proof.
  destruct (mouse_leave_sets_sentinel platform_steady world_running 5 0 0
              (mkMouseData (S754_zero false) (S754_zero false) false false))
    as ((w' & md' & H1 & H2 & H3 & H4 & _) & _).
  - reflexivity.
  - simpl. lia.
  - reflexivity.
  - simpl. lia.
  - exists w', md'. split; [exact H1|]. split; [exact H2|].
    split; [exact H3|exact H4].
Defined.

(** [PeekMessage] always returns. *)
Lemma PeekMessage_returns {G : Type} (P : Platform) (w : World G) :
  exists r w', PeekMessage P w = Done r w'.
Proof.
  unfold PeekMessage, bind, get, modify, ret.
  destruct (msgQueue w ++ posted_at P (nPeek w)) as [|ms rest]; [|eauto].
  destruct (quitPosted w); eauto.
Qed.

(** ** Traces *)

Lemma every_event_nil (good : list Event -> Event -> Prop) :
  every_event good [].
Proof. intros pre e post H. destruct pre; discriminate H. Qed.

Lemma every_event_snoc (good : list Event -> Event -> Prop) tr e :
  every_event good tr -> good tr e -> every_event good (tr ++ [e]).
Proof.
  intros Htr He pre e' post Heq.
  destruct post as [|x post _] using rev_ind.
  - apply app_inj_tail in Heq as [-> ->]. exact He.
  - change (pre ++ e' :: post ++ [x]) with (pre ++ (e' :: post) ++ [x]) in Heq.
    rewrite app_assoc in Heq.
    apply app_inj_tail in Heq as [-> _].
    apply (Htr pre e' post). reflexivity.
Qed.

Lemma latest_stamp_snoc tr e :
  latest_stamp (tr ++ [e])
  = match e with EvStamp t => Some t | _ => latest_stamp tr end.
Proof. unfold latest_stamp. rewrite fold_left_app. reflexivity. Qed.

Lemma latest_counter_snoc tr e :
  latest_counter (tr ++ [e])
  = match e with EvCounter t => Some t | _ => latest_counter tr end.
Proof. unfold latest_counter. rewrite fold_left_app. reflexivity. Qed.

Section TraceLogic.

Context {G : Type}.
Local Notation "'Mach'" := (@Machine G).
Implicit Types m : Mach.

Lemma triple_bind {A B} Pre (c : Op Mach A) Mid (k : A -> Op Mach B)
      Post Exc :
  triple Pre c Mid Exc ->
  (forall a, triple (Mid a) (k a) Post Exc) ->
  triple Pre (bind c k) Post Exc.
Proof.
  intros Hc Hk m Hm. specialize (Hc m Hm). unfold bind.
  destruct (c m) as [a m'| | |]; try exact Hc.
  apply (Hk a m' Hc).
Qed.

Lemma triple_weaken {A} (Pre Pre' : list Event -> Prop) (c : Op Mach A)
      (Post Post' : A -> list Event -> Prop) Exc :
  triple Pre' c Post' Exc ->
  (forall tr, Pre tr -> Pre' tr) ->
  (forall a tr, Post' a tr -> Post a tr) ->
  triple Pre c Post Exc.
Proof.
  intros Hc Hpre Hpost m Hm. specialize (Hc m (Hpre _ Hm)).
  destruct (c m); auto.
Qed.

End TraceLogic.

(** ** The timing of the update *)

Section Timing.

Context {G : Type}.
Variable P : Platform.
Variable user : Game G.
Variable B : Build.

Local Notation "'freq'" := (int64 (frequency P)).
Local Notation "'timed'" := (every_event (update_timed freq (frame_interval B))).

Local Notation "'timing'" := (timing_inv freq (frame_interval B)).
Local Notation "'waited'" := (waited_inv freq (frame_interval B)).

Ltac snoc_timed :=
  repeat first
    [ rewrite latest_stamp_snoc | rewrite latest_counter_snoc
    | apply every_event_snoc | progress cbn [update_timed] ];
  auto.

Lemma handle_messages_timed l :
  triple (timing l) (@handle_messages G P l)
         (fun r tr => timing (snd r) tr) (fun _ tr => timed tr).
Proof.
  intros m (Hacc & Hst & Hf).
  unfold handle_messages, bind, lift, emit, modify, ret.
  destruct (PeekMessage P (world m)) as [r w1|s w1|w1|w1];
    cbn [trace world]; auto.
  destruct r as [ms|].
  - destruct (Win32.message ms =? Win32.WM_QUIT).
    + cbn [trace snd]. unfold timing_inv. repeat split; snoc_timed.
    + destruct (accelerator_hit P ms).
      * cbn [trace snd]. unfold timing_inv. repeat split; snoc_timed.
      * cbn [trace world].
        destruct (DispatchMessage P ms w1); cbn [trace snd];
          unfold timing_inv; repeat split; snoc_timed.
  - cbn [trace snd]. unfold timing_inv. repeat split; snoc_timed.
Qed.

Lemma wait_for_frame_timed spin : forall l,
  triple (timing l) (@wait_for_frame G P B spin l)
         (fun l' tr => waited l' tr) (fun _ tr => timed tr).
Proof.
  induction spin as [|k IH]; intros l m (Hacc & Hst & Hf).
  - exact Hacc.
  - cbn [wait_for_frame].
    unfold bind, lift, emit, modify, ret.
    unfold QueryPerformanceCounter at 1. unfold bind, get, modify, ret.
    cbn [trace world].
    set (t := int64 (counter_at P (nCounter (world m)))).
    set (m1 := mkMachine _ (trace m ++ [EvCounter t])).
    set (l1 := set_now t (milliseconds t (lastDrawTime l) (frequency_ l)) l).
    assert (H1 : timing l1 (trace m1)).
    { unfold timing_inv, l1, m1. cbn [trace lastDrawTime frequency_ set_now].
      repeat split; snoc_timed. }
    destruct (IEEE.dlt (milliseconds t (lastDrawTime l) (frequency_ l))
                (IEEE.double_of_float (frame_interval B))) eqn:E.
    + apply (IH l1 m1 H1).
    + unfold waited_inv. split; [exact H1|].
      unfold l1, m1. cbn [trace now elapsedTime lastDrawTime set_now].
      rewrite latest_counter_snoc. rewrite <- Hf. auto.
Qed.

Lemma call_update_timed l :
  triple (waited l) (@call_update G user l)
         (fun l' tr => timing l' tr /\ latest_counter tr = Some (now l')
                       /\ now l' = now l)
         (fun _ tr => timed tr).
Proof.
  intros m ((Hacc & Hst & Hf) & Hc & He & Hlt).
  unfold call_update, bind, get, emit, modify, ret. cbn [trace world].
  unfold timing_inv. cbn [lastDrawTime frequency_ now set_quit].
  repeat split; snoc_timed.
  exists (lastDrawTime l), (now l).
  rewrite <- He. auto.
Qed.

Lemma update_if_focused_timed l :
  triple (waited l) (@update_if_focused G P user B l)
         (fun l' tr => timing l' tr /\ latest_counter tr = Some (now l'))
         (fun _ tr => timed tr).
Proof.
  unfold update_if_focused. destruct (DEBUG B).
  - eapply triple_weaken; [apply call_update_timed|auto|].
    intros a tr (H1 & H2 & _). auto.
  - intros m Hw.
    unfold bind, lift, get. unfold GetFocus at 1.
    unfold bind, get, modify, ret, emit. cbn [trace world].
    unfold modify. cbn [trace world].
    set (b := focus_at P (nFocus (world m)) =? _).
    assert (H1 : waited l (trace m ++ [EvFocus b])).
    { destruct Hw as ((Hacc & Hst & Hf) & Hc & He & Hlt).
      unfold waited_inv, timing_inv.
      repeat split; snoc_timed. }
    destruct b.
    + match goal with
      | |- context [call_update user l ?mm] =>
          pose proof (call_update_timed l mm H1) as H;
          destruct (call_update user l mm); try exact H
      end.
      destruct H as (H2 & H3 & _). auto.
    + destruct H1 as (H1 & H2 & _). auto.
Qed.

Lemma frame_timed spin l :
  triple (timing l) (@frame G P user B spin l)
         (fun r tr => timing (snd r) tr) (fun _ tr => timed tr).
Proof.
  unfold frame.
  eapply triple_bind; [apply handle_messages_timed|].
  intros [[|] l1]; cbn [snd].
  - eapply triple_bind; [apply wait_for_frame_timed|].
    intros l2. cbv beta.
    eapply triple_bind; [apply update_if_focused_timed|].
    intros l3 m ((Hacc & Hst & Hf) & Hc).
    unfold bind, emit, modify, ret. cbn [trace snd].
    unfold timing_inv. cbn [lastDrawTime frequency_ set_lastDrawTime].
    repeat split; snoc_timed.
  - intros m H. exact H.
Qed.

Lemma frame_loop_timed spin frames : forall l,
  triple (timing l) (@frame_loop G P user B frames spin l)
         (fun _ tr => timed tr) (fun _ tr => timed tr).
Proof.
  induction frames as [|n IH]; intros l; cbn [frame_loop].
  - destruct (quit l); intros m (H & _); exact H.
  - destruct (quit l); [intros m (H & _); exact H|].
    eapply triple_bind; [apply frame_timed|].
    intros [[|] l1]; cbn [snd].
    + apply IH.
    + intros m (H & _). exact H.
Qed.

Lemma shut_down_timed l :
  triple (fun tr => timed tr) (@shut_down G user l)
         (fun _ tr => timed tr) (fun _ tr => timed tr).
Proof.
  intros m Hacc.
  unfold shut_down, bind, get, emit, modify, ret, PLAY_ASSERT, PLAY_ASSERT_MSG.
  cbn [trace world].
  destruct (negb (g_pGDIToken (snd (MainGameExit user (world m))) =? 0));
    cbn [trace]; snoc_timed.
Qed.

Lemma HandleWindows_timed frames spin :
  triple (fun tr => tr = []) (@HandleWindows G P user B frames spin)
         (fun _ tr => timed tr) (fun _ tr => timed tr).
Proof.
  intros m Hnil.
  assert (H0 : timed (trace m)) by (rewrite Hnil; apply every_event_nil).
  unfold HandleWindows.
  unfold bind at 1. unfold lift at 1.
  destruct (ASSERT_WINDOW (world m)) as [[] w0| | |]; cbn [trace]; auto.
  unfold bind at 1. unfold get at 1.
  unfold bind at 1. unfold lift at 1. cbn [world trace].
  destruct (deref_pixel _ w0) as [d w1| | |]; cbn [trace]; auto.
  unfold bind at 1. unfold emit at 1, modify at 1.
  cbn [world trace].
  destruct (CreateWindowW P _ _ =? 0).
  - cbn [ret trace]. snoc_timed.
  - unfold bind at 1. unfold lift at 1, modify at 1. cbn [world trace].
    unfold bind at 1. unfold lift at 1.
    unfold QueryPerformanceCounter at 1. unfold bind, get, modify, ret.
    cbn [world trace].
    unfold emit, modify. cbn [world trace].
    unfold lift, QueryPerformanceFrequency, ret. cbn [world trace].
    match goal with
    | |- context [frame_loop P user B frames spin ?l0 ?m0] =>
        pose proof (frame_loop_timed spin frames l0 m0) as HL
    end.
    cbn [trace] in HL.
    match type of HL with
    | ?A -> _ => assert (HA : A)
    end.
    { unfold timing_inv. cbn [lastDrawTime frequency_].
      repeat split; snoc_timed. }
    specialize (HL HA).
    destruct (frame_loop _ _ _ _ _ _ _) as [l' m'| | |]; auto.
    apply (shut_down_timed l' m' HL).
Qed.

End Timing.

(** C1, as the specification states it, is false: at 60 frames per second,
    with a 3 MHz counter that has advanced by exactly one sixtieth of a
    second, the callback is handed 8947848 * 2^-29 seconds, which is below
    1/60. *)
Lemma update_can_get_less_than_frame_time :
  ~ update_never_below_frame_time.
Proof.
  intros H.
  specialize (H platform_steady game_quits_at_once (mkBuild false 60)
                world_running 1%nat 1%nat
                (S754_finite false 8947848 (-29)) true).
  assert (Hin : In (EvUpdate (S754_finite false 8947848 (-29)) true)
                   (trace (final (HandleWindows platform_steady
                                    game_quits_at_once (mkBuild false 60)
                                    1 1 (mkMachine world_running [])))))
    by (vm_compute; tauto).
  specialize (H Hin). vm_compute in H. discriminate H.
Qed.

(** C1, amended: in every run of the frame loop, whenever the game-update
    callback is called, the milliseconds computed in double precision from
    the latest counter reading and the timestamp stored by the previous pass
    are not below the single-precision quotient [1000.0f / FRAMES_PER_SECOND],
    and the callback receives those milliseconds narrowed to [float] and
    divided by [1000.0f]; the timestamp a pass stores is its latest counter
    reading. *)
Theorem update_waits_for_frame_interval
    {G : Type} (P : Platform) (user : Game G) (B : Build)
    (w : World G) (frames spin : nat) :
  every_event (update_timed (int64 (frequency P)) (frame_interval B))
    (trace (final (HandleWindows P user B frames spin (mkMachine w [])))).
Proof.
  pose proof (HandleWindows_timed P user B frames spin (mkMachine w []) eq_refl)
    as H.
  destruct (HandleWindows P user B frames spin (mkMachine w [])); exact H.
Qed.

(** ** The life cycle of the loop *)

Lemma quit_signalled_snoc tr e :
  quit_signalled (tr ++ [e]) = quit_signalled tr || quit_signal e.
Proof.
  unfold quit_signalled. rewrite existsb_app. simpl.
  now rewrite orb_false_r.
Qed.

Lemma exit_calls_snoc tr e :
  exit_calls (tr ++ [e])
  = (exit_calls tr + if is_exit e then 1 else 0)%nat.
Proof.
  unfold exit_calls. rewrite List.filter_app, length_app. simpl.
  destruct (is_exit e); reflexivity.
Qed.

Section LifeCycle.

Context {G : Type}.
Variable P : Platform.
Variable user : Game G.
Variable B : Build.

Ltac snoc_life :=
  repeat first
    [ rewrite quit_signalled_snoc | rewrite exit_calls_snoc
    | apply every_event_snoc | progress cbn [lifecycle quit_signal is_exit] ];
  auto.

Lemma handle_messages_life l :
  quit l = false ->
  triple (running_inv l) (@handle_messages G P l)
         (fun r tr =>
            every_event lifecycle tr /\ exit_calls tr = 0%nat /\
            quit (snd r) = false /\
            quit_signalled tr
            = match fst r with Break => true | Next => false end)
         stopped_short.
Proof.
  intros Hq m (Hacc & Hex & Hsig). rewrite Hq in Hsig.
  unfold handle_messages, bind, lift, emit, modify, ret.
  destruct (PeekMessage P (world m)) as [r w1|s w1|w1|w1];
    cbn [trace world]; try (split; [exact Hacc|left; auto]).
  destruct r as [ms|].
  - destruct (Win32.message ms =? Win32.WM_QUIT) eqn:E.
    + cbn [trace fst snd quit set_msg].
      repeat split; snoc_life; rewrite ?Hsig, ?Hex, ?E; auto.
    + destruct (accelerator_hit P ms).
      * cbn [trace fst snd quit set_msg].
        repeat split; snoc_life; rewrite ?Hsig, ?Hex, ?E; auto.
      * cbn [trace world].
        assert (Hpre : every_event lifecycle
                         ((trace m ++ [EvPeek (Some ms)]) ++ [EvDispatch ms])).
        { snoc_life; rewrite ?Hsig, ?Hex, ?E; auto. }
        assert (Hs2 : quit_signalled
                        ((trace m ++ [EvPeek (Some ms)]) ++ [EvDispatch ms])
                      = false).
        { snoc_life; rewrite ?Hsig, ?Hex, ?E; auto. }
        assert (He2 : exit_calls
                        ((trace m ++ [EvPeek (Some ms)]) ++ [EvDispatch ms])
                      = 0%nat).
        { snoc_life; rewrite ?Hsig, ?Hex, ?E; auto. }
        destruct (DispatchMessage P ms w1); cbn [trace fst snd quit set_msg];
          try (split; [exact Hpre|left; auto]).
        auto.
  - cbn [trace fst snd].
    repeat split; snoc_life; rewrite ?Hsig, ?Hex; auto.
Qed.

Lemma wait_for_frame_life spin : forall l,
  triple (in_pass_inv l) (@wait_for_frame G P B spin l)
         (fun l' tr => in_pass_inv l' tr) stopped_short.
Proof.
  induction spin as [|k IH]; intros l m (Hacc & Hex & Hq & Hsig).
  - split; [exact Hacc|left; auto].
  - cbn [wait_for_frame].
    unfold bind, lift, emit, modify, ret.
    unfold QueryPerformanceCounter at 1. unfold bind, get, modify, ret.
    cbn [trace world].
    set (t := int64 (counter_at P (nCounter (world m)))).
    assert (H1 : forall e, in_pass_inv (set_now t e l)
                             (trace m ++ [EvCounter t])).
    { intros e. unfold in_pass_inv. cbn [quit set_now].
      repeat split; snoc_life; rewrite ?Hsig, ?Hex; auto. }
    destruct (IEEE.dlt _ _).
    + match goal with
      | |- context [wait_for_frame P B k ?l1 ?m1] => apply (IH l1 m1)
      end.
      apply H1.
    + apply H1.
Qed.

Lemma call_update_life l :
  triple (in_pass_inv l) (@call_update G user l)
         (fun l' tr => running_inv l' tr) stopped_short.
Proof.
  intros m (Hacc & Hex & Hq & Hsig).
  unfold call_update, bind, get, emit, modify, ret. cbn [trace world].
  unfold running_inv. cbn [quit set_quit].
  repeat split; snoc_life; rewrite ?Hsig, ?Hex; auto.
Qed.

Lemma update_if_focused_life l :
  triple (in_pass_inv l) (@update_if_focused G P user B l)
         (fun l' tr => running_inv l' tr) stopped_short.
Proof.
  unfold update_if_focused. destruct (DEBUG B).
  - apply call_update_life.
  - intros m (Hacc & Hex & Hq & Hsig).
    unfold bind, lift, get. unfold GetFocus at 1.
    unfold bind, get, modify, ret, emit. unfold modify. cbn [trace world].
    set (b := focus_at P (nFocus (world m)) =? _).
    assert (H1 : in_pass_inv l (trace m ++ [EvFocus b])).
    { unfold in_pass_inv.
      repeat split; snoc_life; rewrite ?Hsig, ?Hex; auto. }
    destruct b.
    + match goal with
      | |- context [call_update user l ?mm] =>
          apply (call_update_life l mm H1)
      end.
    + destruct H1 as (H1 & H2 & H3 & H4).
      unfold running_inv. rewrite H3. auto.
Qed.

Lemma frame_life spin l :
  quit l = false ->
  triple (running_inv l) (@frame G P user B spin l)
         (fun r tr =>
            match fst r with
            | Next => running_inv (snd r) tr
            | Break => loop_left tr
            end)
         stopped_short.
Proof.
  intros Hq. unfold frame.
  eapply triple_bind; [apply (handle_messages_life l Hq)|].
  intros [[|] l1]; cbn [fst snd].
  - eapply triple_bind.
    { eapply triple_weaken; [apply wait_for_frame_life| |intros a tr H; exact H].
      intros tr (H1 & H2 & H3 & H4). unfold in_pass_inv. auto. }
    intros l2. cbv beta.
    eapply triple_bind; [apply update_if_focused_life|].
    intros l3 m (Hacc & Hex & Hsig).
    unfold bind, emit, modify, ret. cbn [trace fst snd].
    unfold running_inv. cbn [quit set_lastDrawTime].
    repeat split; snoc_life; rewrite ?Hsig, ?Hex, ?orb_false_r; auto.
  - intros m (H1 & H2 & H3 & H4). cbn [ret fst]. unfold loop_left. auto.
Qed.

Lemma frame_loop_life spin frames : forall l,
  triple (running_inv l) (@frame_loop G P user B frames spin l)
         (fun _ tr => loop_left tr) stopped_short.
Proof.
  induction frames as [|n IH]; intros l; cbn [frame_loop].
  - destruct (quit l) eqn:Hq; intros m (H1 & H2 & H3).
    + cbn [ret]. unfold loop_left. rewrite H3. auto.
    + split; [exact H1|left]. rewrite H3. auto.
  - destruct (quit l) eqn:Hq.
    + intros m (H1 & H2 & H3). cbn [ret]. unfold loop_left. rewrite H3. auto.
    + eapply triple_bind; [apply (frame_life spin l Hq)|].
      intros [[|] l1]; cbn [fst snd].
      * apply IH.
      * intros m H. exact H.
Qed.

Lemma shut_down_life l :
  triple loop_left (@shut_down G user l)
         (fun _ tr => exited_once tr) stopped_short.
Proof.
  intros m (Hacc & Hex & Hsig).
  unfold shut_down, bind, get, emit, modify, ret, PLAY_ASSERT, PLAY_ASSERT_MSG.
  cbn [trace world].
  assert (H1 : exited_once
                 (trace m ++ [EvExit (fst (MainGameExit user (world m)))])).
  { unfold exited_once.
    repeat split; snoc_life; rewrite ?Hsig, ?Hex; auto. }
  destruct (negb (g_pGDIToken (snd (MainGameExit user (world m))) =? 0));
    cbn [trace].
  - destruct H1 as (H1 & H2 & H3). unfold exited_once.
    split; [|split].
    + apply every_event_snoc; [exact H1|].
      cbn [lifecycle]. eexists. eexists. reflexivity.
    + rewrite exit_calls_snoc, H2. reflexivity.
    + rewrite quit_signalled_snoc, H3. reflexivity.
  - destruct H1 as (H1 & H2 & H3). split; [exact H1|right; auto].
Qed.

Lemma HandleWindows_life frames spin :
  triple (fun tr => tr = []) (@HandleWindows G P user B frames spin)
         (fun _ tr =>
            every_event lifecycle tr /\
            ((exit_calls tr = 0%nat /\ quit_signalled tr = false /\
              exists w h, tr = [EvCreateWindow w h 0]) \/
             (exit_calls tr = 1%nat /\ quit_signalled tr = true)))
         stopped_short.
Proof.
  intros m Hnil.
  assert (H0 : stopped_short false (trace m)).
  { rewrite Hnil. split; [apply every_event_nil|left; auto]. }
  assert (H0' : stopped_short true (trace m)).
  { rewrite Hnil. split; [apply every_event_nil|left; auto]. }
  unfold HandleWindows.
  unfold bind at 1. unfold lift at 1.
  destruct (ASSERT_WINDOW (world m)) as [[] w0| | |]; cbn [trace]; auto.
  unfold bind at 1. unfold get at 1.
  unfold bind at 1. unfold lift at 1. cbn [world trace].
  destruct (deref_pixel _ w0) as [d w1| | |]; cbn [trace]; auto.
  unfold bind at 1. unfold emit at 1, modify at 1.
  cbn [world trace].
  assert (Hs0 : quit_signalled (trace m) = false) by (now rewrite Hnil).
  assert (He0 : exit_calls (trace m) = 0%nat) by (now rewrite Hnil).
  assert (Ha0 : every_event lifecycle (trace m))
    by (rewrite Hnil; apply every_event_nil).
  destruct (CreateWindowW P _ _ =? 0) eqn:EW.
  - cbn [ret trace]. apply Z.eqb_eq in EW. rewrite EW. split.
    + snoc_life.
    + left. rewrite Hnil. cbn. eauto.
  - unfold bind at 1. unfold lift at 1, modify at 1. cbn [world trace].
    unfold bind at 1. unfold lift at 1.
    unfold QueryPerformanceCounter at 1. unfold bind, get, modify, ret.
    cbn [world trace].
    unfold emit, modify. cbn [world trace].
    unfold lift, QueryPerformanceFrequency, ret. cbn [world trace].
    match goal with
    | |- context [frame_loop P user B frames spin ?l0 ?m0] =>
        pose proof (frame_loop_life spin frames l0 m0) as HL
    end.
    cbn [trace] in HL.
    match type of HL with
    | ?A -> _ => assert (HA : A)
    end.
    { unfold running_inv. cbn [quit].
      repeat split; snoc_life; rewrite ?Hs0, ?He0; auto. }
    specialize (HL HA).
    destruct (frame_loop _ _ _ _ _ _ _) as [l' m'| | |]; auto.
    pose proof (shut_down_life l' m' HL) as HS.
    destruct (shut_down user l' m'); auto.
    destruct HS as (H1 & H2 & H3). auto.
Qed.

End LifeCycle.

(** Two runs that end: the game asks to quit at its first update; the window
    is destroyed, which posts the quit message the second pass receives.  And
    one that is still going after two passes. *)
Example run_ends_when_update_returns_true :
  let o := HandleWindows platform_steady game_quits_at_once (mkBuild false 60)
             1 1 (mkMachine world_running []) in
  (exists m', o = Done 0 m') /\
  trace (final o)
  = [EvCreateWindow 640 480 5; EvCounter 0; EvStamp 0; EvPeek None;
     EvCounter 50000; EvFocus true;
     EvUpdate (S754_finite false 8947848 (-29)) true;
     EvStamp 50000; EvDwmFlush; EvExit 0; EvGdiplusShutdown 1].
Proof.
  split.
  - eexists. vm_compute. reflexivity.
  - vm_compute. reflexivity.
Qed.

Example run_ends_on_WM_QUIT :
  let o := HandleWindows platform_closing game_runs_on (mkBuild false 60)
             2 1 (mkMachine world_running []) in
  (exists m', o = Done 0 m') /\
  trace (final o)
  = [EvCreateWindow 640 480 5; EvCounter 0; EvStamp 0;
     EvPeek (Some (Win32.mkMSG 5 Win32.WM_DESTROY 0 0));
     EvDispatch (Win32.mkMSG 5 Win32.WM_DESTROY 0 0);
     EvCounter 50000; EvFocus true;
     EvUpdate (S754_finite false 8947848 (-29)) false;
     EvStamp 50000; EvDwmFlush;
     EvPeek (Some (Win32.mkMSG 0 Win32.WM_QUIT 0 0));
     EvExit 0; EvGdiplusShutdown 1].
Proof.
  split.
  - eexists. vm_compute. reflexivity.
  - vm_compute. reflexivity.
Qed.

Example run_goes_on_without_quit_signal :
  let o := HandleWindows platform_steady game_runs_on (mkBuild false 60)
             2 1 (mkMachine world_running []) in
  is_spinning o = true /\ exit_calls (trace (final o)) = 0%nat.
Proof. split; vm_compute; reflexivity. Qed.

(** ** The focus gate *)

Lemma recent_snoc tr e : recent (tr ++ [e]) = e :: firstn 2 (recent tr).
Proof.
  unfold recent. rewrite rev_app_distr. cbn [rev app firstn].
  now rewrite firstn_firstn.
Qed.

(** An event that is neither an update nor a timestamp fits after any
    settled trace. *)
Lemma focus_gate_settled pre e :
  settled false pre -> is_update e = false ->
  (forall t, e <> EvStamp t) ->
  focus_gate pre e.
Proof.
  intros Hs Hu Ht. unfold focus_gate. unfold settled in Hs.
  split; [rewrite Hu; discriminate|].
  split; [intros t E; destruct (Ht t E)|].
  destruct (recent pre) as [|e1 r1]; [exact I|].
  destruct e1 as [| | | |b| | | | |]; try exact I.
  - destruct Hs.
  - destruct r1 as [|e2 r2]; [exact I|].
    destruct e2 as [| | | |b| | | | |]; try exact I.
    destruct b; [exact I|destruct Hs].
  - destruct r1 as [|e2 r2]; [exact I|].
    destruct e2; try exact I.
    destruct r2 as [|e3 r3]; [exact I|].
    destruct e3 as [| | | |b| | | | |]; try exact I.
    destruct b; [exact I|discriminate Hs].
Qed.

(** A polling event fits after any polling event. *)
Lemma focus_gate_polling pre e0 rest e :
  recent pre = e0 :: rest -> polling e0 = true -> polling e = true ->
  focus_gate pre e.
Proof.
  intros Hr H0 He. unfold focus_gate. rewrite Hr.
  split; [destruct e; simpl in *; discriminate|].
  split; [intros t ->; discriminate He|].
  destruct e0; try discriminate H0; exact I.
Qed.

Lemma settled_polling b tr e0 rest :
  recent tr = e0 :: rest -> polling e0 = true -> settled b tr.
Proof.
  intros Hr H0. unfold settled. rewrite Hr.
  destruct e0; try discriminate H0; exact I.
Qed.

Section FocusGate.

Context {G : Type}.
Variable P : Platform.
Variable user : Game G.
Variable B : Build.
Hypothesis release : DEBUG B = false.

Lemma gate_head_peek l tr r :
  gate_head l tr -> focus_gate tr (EvPeek r).
Proof.
  intros (_ & [(_ & t & rest & Hr)|[(t & dt & q & rest & Hr)|(t & t0 & rest & Hr)]]);
    unfold focus_gate; rewrite Hr; cbn;
    (split; [discriminate|]); (split; [discriminate|]); eauto.
Qed.

Lemma gate_head_settled l tr :
  gate_head l tr -> settled (negb (quit l)) tr.
Proof.
  intros (_ & [(Hq & t & rest & Hr)|[(t & dt & q & rest & Hr)|(t & t0 & rest & Hr)]]);
    unfold settled; rewrite Hr; cbn; auto.
  now rewrite Hq.
Qed.

Lemma handle_messages_gate l :
  quit l = false ->
  triple (gate_head l) (@handle_messages G P l)
         (fun r tr =>
            match fst r with
            | Next => gate_polling (snd r) tr
            | Break => gate_stopped false tr
            end)
         gate_stopped.
Proof.
  intros Hq m Hh.
  pose proof Hh as (Hacc & _).
  unfold handle_messages, bind, lift, emit, modify, ret.
  destruct (PeekMessage_returns P (world m)) as (r & w1 & ->).
  cbn [trace world].
  assert (H1 : every_event focus_gate (trace m ++ [EvPeek r])).
  { apply every_event_snoc; [exact Hacc|]. apply (gate_head_peek l _ r Hh). }
  assert (R1 : recent (trace m ++ [EvPeek r])
               = EvPeek r :: firstn 2 (recent (trace m)))
    by apply recent_snoc.
  destruct r as [ms|].
  - destruct (Win32.message ms =? Win32.WM_QUIT) eqn:E.
    + cbn [trace fst snd]. split; [exact H1|].
      apply (settled_polling _ _ _ _ R1). reflexivity.
    + destruct (accelerator_hit P ms).
      * cbn [trace fst snd]. unfold gate_polling. cbn [quit set_msg].
        split; [exact H1|]. split; [exact Hq|].
        eexists. eexists. split; [exact R1|reflexivity].
      * cbn [trace world].
        assert (H2 : every_event focus_gate
                       ((trace m ++ [EvPeek (Some ms)]) ++ [EvDispatch ms])).
        { apply every_event_snoc; [exact H1|].
          apply (focus_gate_polling _ _ _ _ R1); reflexivity. }
        assert (R2 : recent ((trace m ++ [EvPeek (Some ms)]) ++ [EvDispatch ms])
                     = EvDispatch ms
                       :: firstn 2 (recent (trace m ++ [EvPeek (Some ms)])))
          by apply recent_snoc.
        destruct (DispatchMessage P ms w1); cbn [trace fst snd];
          try (split; [exact H2|];
               apply (settled_polling _ _ _ _ R2); reflexivity).
        unfold gate_polling. cbn [quit set_msg].
        split; [exact H2|]. split; [exact Hq|].
        eexists. eexists. split; [exact R2|reflexivity].
  - cbn [trace fst snd]. unfold gate_polling.
    split; [exact H1|]. split; [exact Hq|].
    eexists. eexists. split; [exact R1|reflexivity].
Qed.

Lemma wait_for_frame_gate spin : forall l,
  triple (gate_polling l) (@wait_for_frame G P B spin l)
         (fun l' tr => gate_waited l' tr) gate_stopped.
Proof.
  induction spin as [|k IH]; intros l m (Hacc & Hq & e0 & rest & Hr & He0).
  - split; [exact Hacc|]. apply (settled_polling _ _ _ _ Hr He0).
  - cbn [wait_for_frame].
    unfold bind, lift, emit, modify, ret.
    unfold QueryPerformanceCounter at 1. unfold bind, get, modify, ret.
    cbn [trace world].
    set (t := int64 (counter_at P (nCounter (world m)))).
    assert (H1 : every_event focus_gate (trace m ++ [EvCounter t])).
    { apply every_event_snoc; [exact Hacc|].
      apply (focus_gate_polling _ _ _ _ Hr He0). reflexivity. }
    assert (R1 : recent (trace m ++ [EvCounter t])
                 = EvCounter t :: firstn 2 (recent (trace m)))
      by apply recent_snoc.
    destruct (IEEE.dlt _ _).
    + match goal with
      | |- context [wait_for_frame P B k ?l1 ?m1] => apply (IH l1 m1)
      end.
      cbn [trace]. unfold gate_polling. cbn [quit set_now].
      split; [exact H1|]. split; [exact Hq|].
      eexists. eexists. split; [exact R1|reflexivity].
    + unfold gate_waited. cbn [trace quit now set_now].
      split; [exact H1|]. split; [exact Hq|]. split.
      * rewrite latest_counter_snoc. reflexivity.
      * eexists. exact R1.
Qed.

Lemma call_update_gate l :
  triple (fun tr => every_event focus_gate tr /\
                    latest_counter tr = Some (now l) /\
                    exists rest, recent tr = EvFocus true :: rest)
         (@call_update G user l)
         (fun l' tr => gate_updated l' tr) gate_stopped.
Proof.
  intros m (Hacc & Hc & rest & Hr).
  unfold call_update, bind, get, emit, modify, ret. cbn [trace world].
  unfold gate_updated. cbn [trace now set_quit]. split; [|split].
  - apply every_event_snoc; [exact Hacc|].
    unfold focus_gate. rewrite Hr. cbn.
    split; [eauto|]. split; [discriminate|reflexivity].
  - rewrite latest_counter_snoc. exact Hc.
  - left. rewrite recent_snoc, Hr. cbn [firstn]. eauto.
Qed.

Lemma update_if_focused_gate l :
  triple (gate_waited l) (@update_if_focused G P user B l)
         (fun l' tr => gate_updated l' tr) gate_stopped.
Proof.
  unfold update_if_focused. rewrite release.
  intros m (Hacc & Hq & Hc & rest & Hr).
  unfold bind, lift, get. unfold GetFocus at 1.
  unfold bind, get, modify, ret, emit. unfold modify. cbn [trace world].
  set (b := focus_at P (nFocus (world m)) =? _).
  assert (H1 : every_event focus_gate (trace m ++ [EvFocus b])).
  { apply every_event_snoc; [exact Hacc|].
    unfold focus_gate. rewrite Hr. cbn.
    split; [discriminate|]. split; [discriminate|exact I]. }
  assert (R1 : recent (trace m ++ [EvFocus b])
               = EvFocus b :: firstn 2 (recent (trace m)))
    by apply recent_snoc.
  assert (C1 : latest_counter (trace m ++ [EvFocus b]) = Some (now l))
    by (rewrite latest_counter_snoc; exact Hc).
  destruct b.
  - match goal with
    | |- context [call_update user l ?mm] =>
        apply (call_update_gate l mm)
    end.
    cbn [trace]. split; [exact H1|]. split; [exact C1|]. eexists. exact R1.
  - cbn [trace]. unfold gate_updated.
    split; [exact H1|]. split; [exact C1|].
    right. split; [exact Hq|]. eexists. exact R1.
Qed.

Lemma frame_gate spin l :
  quit l = false ->
  triple (gate_head l) (@frame G P user B spin l)
         (fun r tr =>
            match fst r with
            | Next => gate_head (snd r) tr
            | Break => gate_stopped false tr
            end)
         gate_stopped.
Proof.
  intros Hq. unfold frame.
  eapply triple_bind; [apply (handle_messages_gate l Hq)|].
  intros [[|] l1]; cbn [fst snd].
  - eapply triple_bind; [apply wait_for_frame_gate|].
    intros l2. cbv beta.
    eapply triple_bind; [apply update_if_focused_gate|].
    intros l3 m (Hacc & Hc & Hcase).
    unfold bind, emit, modify, ret. cbn [trace fst snd].
    assert (H1 : every_event focus_gate (trace m ++ [EvStamp (now l3)])).
    { apply every_event_snoc; [exact Hacc|].
      unfold focus_gate.
      split; [discriminate|]. split.
      - intros t _. right.
        destruct Hcase as [(dt & q & rest & Hr)|(_ & rest & Hr)]; eauto.
      - destruct Hcase as [(dt & q & rest & Hr)|(_ & rest & Hr)];
          rewrite Hr; cbn; eauto. }
    assert (R1 : recent (trace m ++ [EvStamp (now l3)])
                 = EvStamp (now l3) :: firstn 2 (recent (trace m)))
      by apply recent_snoc.
    assert (H2 : every_event focus_gate
                   ((trace m ++ [EvStamp (now l3)]) ++ [EvDwmFlush])).
    { apply every_event_snoc; [exact H1|].
      unfold focus_gate. rewrite R1.
      split; [discriminate|]. split; [discriminate|].
      destruct Hcase as [(dt & q & rest & Hr)|(_ & rest & Hr)];
        rewrite Hr; cbn; auto. }
    unfold gate_head. cbn [quit set_lastDrawTime].
    split; [exact H2|].
    rewrite recent_snoc, R1.
    destruct Hcase as [(dt & q & rest & Hr)|(Hq3 & rest & Hr)];
      rewrite Hr; cbn [firstn].
    + right. left. eauto.
    + left. split; [exact Hq3|]. eauto.
  - intros m H. exact H.
Qed.

Lemma frame_loop_gate spin frames : forall l,
  triple (gate_head l) (@frame_loop G P user B frames spin l)
         (fun _ tr => gate_stopped false tr) gate_stopped.
Proof.
  induction frames as [|n IH]; intros l; cbn [frame_loop].
  - destruct (quit l) eqn:Hq; intros m Hh;
      pose proof (gate_head_settled l _ Hh) as Hs; rewrite Hq in Hs;
      destruct Hh as (Hacc & _); split; assumption.
  - destruct (quit l) eqn:Hq.
    + intros m Hh.
      pose proof (gate_head_settled l _ Hh) as Hs; rewrite Hq in Hs;
      destruct Hh as (Hacc & _); split; assumption.
    + eapply triple_bind; [apply (frame_gate spin l Hq)|].
      intros [[|] l1]; cbn [fst snd].
      * apply IH.
      * intros m H. exact H.
Qed.

Lemma settled_after b tr e :
  match e with
  | EvFocus _ | EvStamp _ | EvDwmFlush => False
  | _ => True
  end ->
  settled b (tr ++ [e]).
Proof.
  intros He. unfold settled. rewrite recent_snoc.
  destruct e; try destruct He; exact I.
Qed.

Lemma shut_down_gate l :
  triple (gate_stopped false) (@shut_down G user l)
         (fun _ tr => gate_stopped false tr) gate_stopped.
Proof.
  intros m (Hacc & Hs).
  unfold shut_down, bind, get, emit, modify, ret, PLAY_ASSERT, PLAY_ASSERT_MSG.
  cbn [trace world].
  set (c := fst (MainGameExit user (world m))).
  assert (H1 : gate_stopped false (trace m ++ [EvExit c])).
  { split.
    - apply every_event_snoc; [exact Hacc|].
      apply focus_gate_settled; [exact Hs|reflexivity|discriminate].
    - apply settled_after. exact I. }
  destruct (negb (g_pGDIToken (snd (MainGameExit user (world m))) =? 0));
    cbn [trace]; [|exact H1].
  destruct H1 as (H1 & H2). split.
  - apply every_event_snoc; [exact H1|].
    apply focus_gate_settled; [exact H2|reflexivity|discriminate].
  - apply settled_after. exact I.
Qed.

Lemma HandleWindows_gate frames spin :
  triple (fun tr => tr = []) (@HandleWindows G P user B frames spin)
         (fun _ tr => gate_stopped false tr) gate_stopped.
Proof.
  intros m Hnil.
  assert (H0 : forall b, gate_stopped b (trace m)).
  { intros b. rewrite Hnil. split; [apply every_event_nil|exact I]. }
  unfold HandleWindows.
  unfold bind at 1. unfold lift at 1.
  destruct (ASSERT_WINDOW (world m)) as [[] w0| | |]; cbn [trace]; auto.
  unfold bind at 1. unfold get at 1.
  unfold bind at 1. unfold lift at 1. cbn [world trace].
  destruct (deref_pixel _ w0) as [d w1| | |]; cbn [trace]; auto.
  unfold bind at 1. unfold emit at 1, modify at 1.
  cbn [world trace].
  match goal with
  | |- context [EvCreateWindow ?a ?b ?c] => set (ew := EvCreateWindow a b c)
  end.
  assert (H1 : gate_stopped false (trace m ++ [ew])).
  { destruct (H0 false) as (Ha & Hs). split.
    - apply every_event_snoc; [exact Ha|].
      apply focus_gate_settled; [exact Hs|reflexivity|discriminate].
    - apply settled_after. exact I. }
  destruct (CreateWindowW P _ _ =? 0) eqn:EW.
  - cbn [ret trace]. exact H1.
  - unfold bind at 1. unfold lift at 1, modify at 1. cbn [world trace].
    unfold bind at 1. unfold lift at 1.
    unfold QueryPerformanceCounter at 1. unfold bind, get, modify, ret.
    cbn [world trace].
    unfold emit, modify. cbn [world trace].
    unfold lift, QueryPerformanceFrequency, ret. cbn [world trace].
    match goal with
    | |- context [frame_loop P user B frames spin ?l0 ?m0] =>
        pose proof (frame_loop_gate spin frames l0 m0) as HL
    end.
    cbn [trace] in HL.
    match type of HL with
    | ?A -> _ => assert (HA : A)
    end.
    { destruct H1 as (H1 & H2).
      match goal with
      | |- gate_head _ ((_ ++ [EvCounter ?t]) ++ _) => set (t0 := t)
      end.
      assert (H3 : gate_stopped false ((trace m ++ [ew]) ++ [EvCounter t0])).
      { split.
        - apply every_event_snoc; [exact H1|].
          apply focus_gate_settled; [exact H2|reflexivity|discriminate].
        - apply settled_after. exact I. }
      destruct H3 as (H3 & H4).
      unfold gate_head. split.
      - apply every_event_snoc; [exact H3|].
        unfold focus_gate. split; [discriminate|]. split.
        + intros t _. left.
          rewrite !latest_stamp_snoc. unfold ew. now rewrite Hnil.
        + rewrite recent_snoc. cbn. exact I.
      - right. right. rewrite !recent_snoc. cbn [firstn]. eauto. }
    specialize (HL HA).
    destruct (frame_loop _ _ _ _ _ _ _) as [l' m'| | |]; auto.
    apply (shut_down_gate l' m' HL).
Qed.

End FocusGate.

(** Without the focus a release build skips the update and stores the
    timestamp all the same; a debug build makes no test and calls the
    update. *)
Example release_run_without_focus_skips_update :
  trace (final (HandleWindows platform_unfocused game_runs_on
                  (mkBuild false 60) 2 1 (mkMachine world_running [])))
  = [EvCreateWindow 640 480 5; EvCounter 0; EvStamp 0;
     EvPeek None; EvCounter 50000; EvFocus false; EvStamp 50000; EvDwmFlush;
     EvPeek None; EvCounter 100000; EvFocus false; EvStamp 100000;
     EvDwmFlush].
Proof. vm_compute. reflexivity. Qed.

Example debug_run_without_focus_updates :
  trace (final (HandleWindows platform_unfocused game_runs_on
                  (mkBuild true 60) 1 1 (mkMachine world_running [])))
  = [EvCreateWindow 640 480 5; EvCounter 0; EvStamp 0;
     EvPeek None; EvCounter 50000;
     EvUpdate (S754_finite false 8947848 (-29)) false;
     EvStamp 50000; EvDwmFlush].
Proof. vm_compute. reflexivity. Qed.

(** From program start: a game that creates the manager in its entry function
    gets its frame loop; one that does not stops on the assertion of
    [HandleWindows]. *)
Example WinMain_runs_the_loop :
  exists m',
    WinMain platform_steady game_creates_manager (mkBuild false 60) 1 1
      (mkMachine world_boot []) = Done 0 m' /\
    exit_calls (trace m') = 1%nat.
Proof. eexists. split; vm_compute; reflexivity. Qed.

Example WinMain_without_manager_is_fatal :
  exists m',
    WinMain platform_steady game_quits_at_once (mkBuild false 60) 1 1
      (mkMachine world_boot []) = Fatal ASSERT_WINDOW_text m' /\
    trace m' = [].
Proof. eexists. split; vm_compute; reflexivity. Qed.

(** ** One message per pass *)

Section OneMessage.

Context {G : Type}.
Variable P : Platform.
Variable user : Game G.
Variable B : Build.

Lemma PeekMessage_takes_oldest (w : World G) :
  exists w',
    PeekMessage P w = Done (peeked P w) w' /\
    msgQueue w' = tl (pending P w).
Proof.
  unfold PeekMessage, peeked, pending, bind, get, modify, ret.
  destruct (msgQueue w ++ posted_at P (nPeek w)) as [|ms rest].
  - destruct (quitPosted w); eexists; split; reflexivity.
  - eexists; split; reflexivity.
Qed.

(** The window procedure leaves the queue alone; [PostQuitMessage] only
    raises the flag. *)
Lemma WndProc_keeps_queue (w : World G) (hWnd message wParam lParam : Z) :
  msgQueue (final (WndProc P hWnd message wParam lParam w)) = msgQueue w.
Proof.
  unfold WndProc, ASSERT_WINDOW, PostQuitMessage, update_mouse, deref_mouse,
    deref_pixel, int_div.
  unfold_op.
  destruct (m_bCreated (globals w)); [|reflexivity].
  repeat
    match goal with
    | |- context [if ?c then _ else _] => destruct c
    | |- context [match ?o with Some _ => _ | None => _ end] => destruct o
    end;
    try reflexivity.
Qed.

(** Nor does it touch the globals of the namespace. *)
Lemma WndProc_keeps_globals (w : World G) (hWnd message wParam lParam : Z) :
  globals (final (WndProc P hWnd message wParam lParam w)) = globals w.
Proof.
  unfold WndProc, ASSERT_WINDOW, PostQuitMessage, update_mouse, deref_mouse,
    deref_pixel, int_div.
  unfold_op.
  destruct (m_bCreated (globals w)); [|reflexivity].
  repeat
    match goal with
    | |- context [if ?c then _ else _] => destruct c
    | |- context [match ?o with Some _ => _ | None => _ end] => destruct o
    end;
    try reflexivity.
Qed.

Lemma DispatchMessage_keeps_queue (w : World G) (ms : Win32.MSG) :
  msgQueue (final (DispatchMessage P ms w)) = msgQueue w.
Proof.
  unfold DispatchMessage. unfold bind at 1. unfold get at 1.
  destruct (negb (Win32.hwnd ms =? 0) && _).
  - apply WndProc_keeps_queue.
  - reflexivity.
Qed.

Lemma handle_messages_takes_one l (m : @Machine G) :
  let o := handle_messages P l m in
  msgQueue (world (final o)) = tl (pending P (world m)) /\
  one_peek (trace m) (peeked P (world m)) (trace (final o)).
Proof.
  intros o.
  assert (Ho : o = handle_messages P l m) by reflexivity. clearbody o.
  unfold handle_messages in Ho.
  destruct (PeekMessage_takes_oldest (world m)) as (w1 & HP & HQ).
  unfold bind at 1 in Ho. unfold lift at 1 in Ho. rewrite HP in Ho.
  unfold bind at 1 in Ho. unfold emit at 1, modify at 1 in Ho.
  cbn [world trace] in Ho.
  set (r := peeked P (world m)) in *.
  assert (Q0 : one_peek (trace m) r (trace m ++ [EvPeek r])).
  { exists []. split; [reflexivity|constructor]. }
  destruct r as [ms|].
  - destruct (Win32.message ms =? Win32.WM_QUIT).
    + subst o. cbn [ret final world trace].
      split; [exact HQ|exact Q0].
    + destruct (accelerator_hit P ms).
      * subst o. cbn [ret final world trace].
        split; [exact HQ|exact Q0].
      * unfold bind at 1 in Ho. unfold emit at 1, modify at 1 in Ho.
        cbn [world trace] in Ho.
        unfold bind, lift, ret in Ho. cbn [world trace] in Ho.
        pose proof (DispatchMessage_keeps_queue w1 ms) as HD.
        assert (Q1 : one_peek (trace m) (Some ms)
                       ((trace m ++ [EvPeek (Some ms)]) ++ [EvDispatch ms])).
        { exists [EvDispatch ms]. split.
          - now rewrite <- app_assoc.
          - repeat constructor. }
        destruct (DispatchMessage P ms w1); subst o;
          cbn [final world trace] in *;
          (split; [congruence|exact Q1]).
  - subst o. cbn [ret final world trace].
    split; [exact HQ|exact Q0].
Qed.

Lemma one_peek_snoc tr0 r tr e :
  one_peek tr0 r tr -> is_peek e = false -> one_peek tr0 r (tr ++ [e]).
Proof.
  intros (evs & -> & Hf) He. exists (evs ++ [e]). split.
  - rewrite <- app_assoc. reflexivity.
  - apply Forall_app. split; [exact Hf|]. repeat constructor. exact He.
Qed.

Lemma wait_for_frame_one_peek tr0 r spin : forall l,
  triple (one_peek tr0 r) (@wait_for_frame G P B spin l)
         (fun _ tr => one_peek tr0 r tr) (fun _ tr => one_peek tr0 r tr).
Proof.
  induction spin as [|k IH]; intros l m H.
  - exact H.
  - cbn [wait_for_frame].
    unfold bind, lift, emit, modify, ret.
    unfold QueryPerformanceCounter at 1. unfold bind, get, modify, ret.
    cbn [trace world].
    set (t := int64 (counter_at P (nCounter (world m)))).
    assert (H1 : one_peek tr0 r (trace m ++ [EvCounter t]))
      by (apply one_peek_snoc; [exact H|reflexivity]).
    destruct (IEEE.dlt _ _).
    + match goal with
      | |- context [wait_for_frame P B k ?l1 ?m1] => apply (IH l1 m1)
      end.
      exact H1.
    + exact H1.
Qed.

Lemma update_if_focused_one_peek tr0 r l :
  triple (one_peek tr0 r) (@update_if_focused G P user B l)
         (fun _ tr => one_peek tr0 r tr) (fun _ tr => one_peek tr0 r tr).
Proof.
  intros m H. unfold update_if_focused, call_update.
  destruct (DEBUG B).
  - unfold bind, get, emit, modify, ret. cbn [trace world].
    apply one_peek_snoc; [exact H|reflexivity].
  - unfold bind, lift, get. unfold GetFocus at 1.
    unfold bind, get, modify, ret, emit. unfold modify. cbn [trace world].
    destruct (focus_at P (nFocus (world m)) =? _); cbn [trace].
    + repeat (apply one_peek_snoc; [|reflexivity]). exact H.
    + apply one_peek_snoc; [exact H|reflexivity].
Qed.

End OneMessage.


(** * Proofs of the further properties *)

(** ** Outcomes *)

Lemma final_bind {S A B} (c : Op S A) (k : A -> Op S B) (s : S) :
  final (bind c k s)
  = match c s with
    | Done a s' => final (k a s')
    | Fatal _ s' | Crash s' | Spinning s' => s'
    end.
Proof. unfold bind. destruct (c s); reflexivity. Qed.

(** ** The window manager *)

Section ManagerCalls.

Context {G : Type}.
Variable P : Platform.
Implicit Types w : World G.

Lemma Present_keeps_globals w : globals (final (Present P w)) = globals w.
Proof.
  unfold Present, ASSERT_WINDOW, QueryPerformanceCounter,
    QueryPerformanceFrequency, deref_pixel.
  unfold_op.
  destruct (m_bCreated (globals w)); [|reflexivity].
  cbn [globals set_nCounter pixelObjs].
  destruct (pixelObjs w !! m_pPlayBuffer (globals w)); reflexivity.
Qed.

Lemma getter_keeps_world {A} (f : PixelData -> A) w :
  final ((ASSERT_WINDOW ;;;
          w0 <- get ;;
          d <- deref_pixel (m_pPlayBuffer (globals w0)) ;;
          ret (f d)) w) = w.
Proof.
  unfold ASSERT_WINDOW, deref_pixel. unfold_op.
  destruct (m_bCreated (globals w)); [|reflexivity].
  destruct (pixelObjs w !! m_pPlayBuffer (globals w)); reflexivity.
Qed.

Lemma call_manager_ok w (c : ManagerCall) :
  manager_ok w -> manager_ok (final (call P c w)).
Proof.
  intros Hw. destruct c; unfold call.
  - rewrite final_bind.
    pose proof (CreateManager_manager_ok w pDisplayBuffer nScale Hw) as H.
    destruct (CreateManager pDisplayBuffer nScale w); exact H.
  - rewrite final_bind.
    pose proof (DestroyManager_manager_ok w Hw) as H.
    destruct (DestroyManager w); exact H.
  - apply RegisterMouse_manager_ok. exact Hw.
  - rewrite final_bind.
    pose proof (getter_keeps_world width w) as H. fold (@GetWidth G) in H.
    destruct (GetWidth w); simpl in H |- *; now rewrite H.
  - rewrite final_bind.
    pose proof (getter_keeps_world height w) as H. fold (@GetHeight G) in H.
    destruct (GetHeight w); simpl in H |- *; now rewrite H.
  - rewrite final_bind.
    assert (H : final (GetScale w) = w).
    { unfold GetScale, ASSERT_WINDOW. unfold_op.
      destruct (m_bCreated (globals w)); reflexivity. }
    destruct (GetScale w); simpl in H |- *; now rewrite H.
  - rewrite final_bind.
    pose proof (Present_keeps_globals w) as H.
    unfold manager_ok in *.
    destruct (Present P w); simpl in H |- *; now rewrite H.
  - rewrite final_bind.
    pose proof (WndProc_keeps_globals P w hWnd message wParam lParam) as H.
    unfold manager_ok in *.
    destruct (WndProc P hWnd message wParam lParam w);
      simpl in H |- *; now rewrite H.
Qed.

End ManagerCalls.

(** X1: After [CreateManager] has bound a buffer and a scale, [GetScale]
    returns that scale and [GetWidth] and [GetHeight] return the size of that
    buffer, and none of the three changes anything. *)
Theorem getters_return_what_CreateManager_bound
    {G : Type} (w : World G) (pDisplayBuffer nScale : Z) (d : PixelData) :
  pDisplayBuffer <> 0 -> 0 < nScale ->
  pixelObjs w !! pDisplayBuffer = Some d ->
  exists w',
    CreateManager pDisplayBuffer nScale w = Done true w' /\
    GetScale w' = Done nScale w' /\
    GetWidth w' = Done (width d) w' /\
    GetHeight w' = Done (height d) w'.
Proof.
  intros Hp Hs Hd. unfold CreateManager. unfold_op.
  destruct (Z.eqb_spec pDisplayBuffer 0) as [|_]; [contradiction|]. simpl.
  destruct (Z.ltb_spec 0 nScale); [|lia].
  eexists. split; [reflexivity|].
  unfold GetScale, GetWidth, GetHeight, ASSERT_WINDOW, deref_pixel.
  unfold_op. simpl. rewrite Hd. repeat split; reflexivity.
Qed.

Lemma getters_return_what_CreateManager_bound_witness :
  exists w',
    CreateManager 8 2 world_boot = Done true w' /\
    GetScale w' = Done 2 w' /\
    GetWidth w' = Done 320 w' /\
    GetHeight w' = Done 240 w'.
Proof.
  apply (getters_return_what_CreateManager_bound world_boot 8 2
           (mkPixelData 320 240 0)); [lia | lia | reflexivity].
Defined.

(** X2: [DestroyManager] clears the created flag and nothing else: the scale,
    the buffer pointer, the registered mouse pointer and the window handle
    stay as they were, so that a [CreateManager] that follows rebinds buffer
    and scale with the mouse registration and the window handle still in
    place. *)
Theorem mouse_registration_survives_recreation
    {G : Type} (w : World G) (pDisplayBuffer nScale : Z) :
  m_bCreated (globals w) = true ->
  pDisplayBuffer <> 0 -> 0 < nScale ->
  exists w1 w2,
    DestroyManager w = Done true w1 /\
    globals w1
    = mkWindowGlobals (m_scale (globals w)) (m_pPlayBuffer (globals w))
        (m_pMouseData (globals w)) (m_hWindow (globals w)) false /\
    CreateManager pDisplayBuffer nScale w1 = Done true w2 /\
    globals w2
    = mkWindowGlobals nScale pDisplayBuffer
        (m_pMouseData (globals w)) (m_hWindow (globals w)) true /\
    mouseObjs w2 = mouseObjs w /\ pixelObjs w2 = pixelObjs w /\
    msgQueue w2 = msgQueue w /\ quitPosted w2 = quitPosted w /\
    game w2 = game w.
Proof.
  intros Hc Hp Hs.
  unfold DestroyManager, CreateManager, ASSERT_WINDOW. unfold_op.
  rewrite Hc.
  destruct (Z.eqb_spec pDisplayBuffer 0) as [|_]; [contradiction|]. simpl.
  destruct (Z.ltb_spec 0 nScale); [|lia].
  eexists. eexists. repeat split; reflexivity.
Qed.

Lemma mouse_registration_survives_recreation_witness :
  exists w1 w2,
    DestroyManager world_running = Done true w1 /\
    CreateManager 8 3 w1 = Done true w2 /\
    globals w2 = mkWindowGlobals 3 8 16 5 true.
Proof.
  destruct (mouse_registration_survives_recreation world_running 8 3)
    as (w1 & w2 & H1 & _ & H2 & H3 & _); [reflexivity | lia | lia |].
  exists w1, w2. split; [exact H1|]. split; [exact H2|exact H3].
Defined.

(** X3: Whatever operations are called in whatever order, at the point where
    the sequence returns or stops a created manager has a positive scale and a
    buffer pointer that is not null; the division by [m_scale] in [WndProc] is
    therefore never a division by zero. *)
Theorem calls_keep_scale_positive_and_buffer_bound
    {G : Type} (P : Platform) (cs : list ManagerCall) (w : World G) :
  manager_ok w ->
  manager_ok (final (calls P cs w)).
Proof.
  revert w. induction cs as [|c rest IH]; intros w Hw.
  - exact Hw.
  - cbn [calls]. rewrite final_bind.
    pose proof (call_manager_ok P w c Hw) as Hc.
    destruct (call P c w) as [[] w1|msg w1|w1|w1]; simpl in Hc.
    + apply IH. exact Hc.
    + exact Hc.
    + exact Hc.
    + exact Hc.
Qed.

Lemma calls_keep_scale_positive_and_buffer_bound_witness :
  manager_ok world_boot /\
  let w' := final (calls platform_steady session world_boot) in
  m_bCreated (globals w') = true /\
  0 < m_scale (globals w') /\ m_pPlayBuffer (globals w') <> 0.
Proof.
  assert (H0 : manager_ok world_boot) by (apply manager_ok_initial; reflexivity).
  split; [exact H0|].
  intros w'.
  assert (Hc : m_bCreated (globals w') = true) by reflexivity.
  split; [exact Hc|].
  exact (calls_keep_scale_positive_and_buffer_bound platform_steady session
           world_boot H0 Hc).
Defined.

(** ** The window procedure *)

Section WndProcMore.

Context {G : Type}.
Variable P : Platform.
Implicit Types w : World G.

Import Win32.

Lemma mouse_frame_refl w (p : Z) : mouse_frame p w w.
Proof. unfold mouse_frame, same_but_mouse_and_quit. repeat split. Qed.

Lemma mouse_frame_trans (w w1 w2 : World G) (p : Z) :
  mouse_frame p w w1 -> mouse_frame p w1 w2 -> mouse_frame p w w2.
Proof.
  unfold mouse_frame, same_but_mouse_and_quit.
  intros ((A1 & A2 & A3 & A4 & A5 & A6 & A7 & A8) & Aq & Ad & Am)
         ((B1 & B2 & B3 & B4 & B5 & B6 & B7 & B8) & Bq & Bd & Bm).
  repeat split; try congruence.
  intros a Ha. rewrite (Bm a Ha). apply Am. exact Ha.
Qed.

Lemma keeps_frame_bind {A B} (p : Z) (c : Op (World G) A)
      (k : A -> Op (World G) B) :
  keeps_frame p c -> (forall a, keeps_frame p (k a)) ->
  keeps_frame p (bind c k).
Proof.
  intros Hc Hk w. rewrite final_bind. specialize (Hc w).
  destruct (c w) as [a w1| | |]; cbn [final] in Hc; try exact Hc.
  apply (mouse_frame_trans w w1 _ p Hc). apply Hk.
Qed.

Lemma keeps_frame_ret {A} (p : Z) (a : A) : keeps_frame p (@ret (World G) A a).
Proof. intros w. apply mouse_frame_refl. Qed.

Lemma keeps_frame_int_div (p a b : Z) : keeps_frame p (@int_div (World G) a b).
Proof.
  intros w. unfold int_div. destruct (b =? 0); apply mouse_frame_refl.
Qed.

Lemma keeps_frame_deref_pixel (p q : Z) : keeps_frame p (@deref_pixel G q).
Proof.
  intros w. unfold deref_pixel. unfold_op.
  destruct (pixelObjs w !! q); apply mouse_frame_refl.
Qed.

Lemma keeps_frame_update_mouse (p : Z) (f : MouseData -> MouseData) :
  keeps_frame p (@update_mouse G p f).
Proof.
  intros w. unfold update_mouse, deref_mouse. unfold_op.
  destruct (mouseObjs w !! p) eqn:E; cbn [final]; [|apply mouse_frame_refl].
  unfold mouse_frame, same_but_mouse_and_quit, set_mouseObjs.
  cbn [globals g_pGDIToken pixelObjs msgQueue nCounter nPeek nFocus game
       quitPosted mouseObjs].
  repeat split.
  - rewrite dom_insert_L.
    assert (p ∈ dom (mouseObjs w)) by (apply elem_of_dom; eauto).
    apply set_eq. intros a. rewrite elem_of_union, elem_of_singleton.
    split; [intros [->|]; assumption|auto].
  - intros a Ha. apply lookup_insert_ne. congruence.
Qed.

End WndProcMore.


(** X5: With no [MouseData] registered, the four button messages and the move
    message are handled without any effect: [WndProc] returns 0 and the world
    is as before. *)
Theorem WndProc_without_mouse_ignores_mouse_messages
    {G : Type} (P : Platform) (w : World G) (hWnd message wParam lParam : Z) :
  m_bCreated (globals w) = true ->
  m_pMouseData (globals w) = 0 ->
  guarded_mouse_message message = true ->
  WndProc P hWnd message wParam lParam w = Done 0 w.
Proof.
  intros Hc Hp Hm. unfold WndProc.
  rewrite (bind_Done _ _ w tt w (ASSERT_WINDOW_created w Hc)).
  unfold bind at 1. unfold get at 1. cbv zeta. rewrite Hp.
  change (0 =? 0) with true. cbv iota.
  unfold guarded_mouse_message in Hm.
  destruct (Z.eqb_spec message Win32.WM_LBUTTONDOWN) as [->|];
    [reflexivity|].
  destruct (Z.eqb_spec message Win32.WM_LBUTTONUP) as [->|];
    [reflexivity|].
  destruct (Z.eqb_spec message Win32.WM_RBUTTONDOWN) as [->|];
    [reflexivity|].
  destruct (Z.eqb_spec message Win32.WM_RBUTTONUP) as [->|];
    [reflexivity|].
  destruct (Z.eqb_spec message Win32.WM_MOUSEMOVE) as [->|];
    [reflexivity|].
  discriminate Hm.
Qed.

Lemma WndProc_without_mouse_ignores_mouse_messages_witness :
  WndProc platform_steady 5 Win32.WM_MOUSEMOVE 0 (Win32.MAKELPARAM 10 20)
    world_no_mouse
  = Done 0 world_no_mouse.
Proof.
  apply WndProc_without_mouse_ignores_mouse_messages; reflexivity.
Defined.

(** X6: [WM_MOUSELEAVE] is the one mouse message handled without the test [if
    (m_pMouseData)]: with no [MouseData] registered, the handler writes
    through the null pointer. *)
Theorem WM_MOUSELEAVE_without_mouse_writes_through_null
    {G : Type} (P : Platform) (w : World G) (hWnd wParam lParam : Z) :
  m_bCreated (globals w) = true ->
  m_pMouseData (globals w) = 0 ->
  mouseObjs w !! 0 = None ->
  WndProc P hWnd Win32.WM_MOUSELEAVE wParam lParam w = Crash w.
Proof.
  intros Hc Hp Hn. unfold WndProc.
  rewrite (bind_Done _ _ w tt w (ASSERT_WINDOW_created w Hc)).
  unfold bind at 1. unfold get at 1. cbv zeta. rewrite Hp.
  change (Win32.WM_MOUSELEAVE =? Win32.WM_PAINT) with false.
  change (Win32.WM_MOUSELEAVE =? Win32.WM_DESTROY) with false.
  change (Win32.WM_MOUSELEAVE =? Win32.WM_LBUTTONDOWN) with false.
  change (Win32.WM_MOUSELEAVE =? Win32.WM_LBUTTONUP) with false.
  change (Win32.WM_MOUSELEAVE =? Win32.WM_RBUTTONDOWN) with false.
  change (Win32.WM_MOUSELEAVE =? Win32.WM_RBUTTONUP) with false.
  change (Win32.WM_MOUSELEAVE =? Win32.WM_MOUSEMOVE) with false.
  change (Win32.WM_MOUSELEAVE =? Win32.WM_MOUSELEAVE) with true.
  cbv iota.
  unfold update_mouse, deref_mouse. unfold_op. rewrite Hn. reflexivity.
Qed.

Lemma WM_MOUSELEAVE_without_mouse_writes_through_null_witness :
  WndProc platform_steady 5 Win32.WM_MOUSELEAVE 0 0 world_no_mouse
  = Crash world_no_mouse.
Proof.
  apply WM_MOUSELEAVE_without_mouse_writes_through_null; reflexivity.
Defined.

Section Buttons.

Context {G : Type}.
Variable P : Platform.
Implicit Types w : World G.

Import Win32.

Lemma update_mouse_Done w (p : Z) (f : MouseData -> MouseData) (md : MouseData) :
  mouseObjs w !! p = Some md ->
  update_mouse p f w = Done tt (set_mouseObjs (<[p := f md]> (mouseObjs w)) w).
Proof.
  intros H. unfold update_mouse, deref_mouse. unfold_op. now rewrite H.
Qed.

(** One message, with a [MouseData] registered and a buffer bound. *)
Lemma WndProc_tracks_buttons w (hWnd message wParam lParam : Z)
      (md : MouseData) (buf : PixelData) :
  m_bCreated (globals w) = true ->
  m_pMouseData (globals w) <> 0 ->
  mouseObjs w !! m_pMouseData (globals w) = Some md ->
  pixelObjs w !! m_pPlayBuffer (globals w) = Some buf ->
  m_scale (globals w) <> 0 ->
  exists r w' md',
    WndProc P hWnd message wParam lParam w = Done r w' /\
    globals w' = globals w /\ pixelObjs w' = pixelObjs w /\
    mouseObjs w' !! m_pMouseData (globals w) = Some md' /\
    left md' = (if message =? WM_LBUTTONDOWN then true
                else if message =? WM_LBUTTONUP then false
                else left md) /\
    right md' = (if message =? WM_RBUTTONDOWN then true
                 else if message =? WM_RBUTTONUP then false
                 else right md).
Proof.
  intros Hc Hp Hmd Hbuf Hs.
  destruct (Z.eqb_spec message WM_MOUSEMOVE) as [->|Hmove].
  { eexists. eexists. eexists. split.
    - apply (WndProc_WM_MOUSEMOVE P w hWnd wParam lParam md buf); assumption.
    - unfold set_mouseObjs. cbn [globals pixelObjs mouseObjs].
      rewrite lookup_insert_eq. repeat split. }
  destruct (Z.eqb_spec message WM_MOUSELEAVE) as [->|Hleave].
  { eexists. eexists. eexists. split.
    - apply (WndProc_WM_MOUSELEAVE P w hWnd wParam lParam md); assumption.
    - unfold set_mouseObjs. cbn [globals pixelObjs mouseObjs].
      rewrite lookup_insert_eq. repeat split. }
  unfold WndProc.
  rewrite (bind_Done _ _ w tt w (ASSERT_WINDOW_created w Hc)).
  unfold bind at 1. unfold get at 1. cbv zeta.
  destruct (Z.eqb_spec (m_pMouseData (globals w)) 0) as [|_]; [contradiction|].
  destruct (Z.eqb_spec message WM_MOUSEMOVE) as [|_]; [contradiction|].
  destruct (Z.eqb_spec message WM_MOUSELEAVE) as [|_]; [contradiction|].
  destruct (Z.eqb_spec message WM_PAINT) as [->|_].
  { exists 0, w, md. repeat split; try reflexivity. exact Hmd. }
  destruct (Z.eqb_spec message WM_DESTROY) as [->|_].
  { eexists. eexists. exists md. split; [reflexivity|].
    repeat split; try reflexivity. exact Hmd. }
  destruct (Z.eqb_spec message WM_LBUTTONDOWN) as [->|_].
  { eexists. eexists. eexists. split.
    - unfold bind. rewrite (update_mouse_Done w _ _ md Hmd). reflexivity.
    - unfold set_mouseObjs. cbn [globals pixelObjs mouseObjs].
      rewrite lookup_insert_eq. repeat split. }
  destruct (Z.eqb_spec message WM_LBUTTONUP) as [->|_].
  { eexists. eexists. eexists. split.
    - unfold bind. rewrite (update_mouse_Done w _ _ md Hmd). reflexivity.
    - unfold set_mouseObjs. cbn [globals pixelObjs mouseObjs].
      rewrite lookup_insert_eq. repeat split. }
  destruct (Z.eqb_spec message WM_RBUTTONDOWN) as [->|_].
  { eexists. eexists. eexists. split.
    - unfold bind. rewrite (update_mouse_Done w _ _ md Hmd). reflexivity.
    - unfold set_mouseObjs. cbn [globals pixelObjs mouseObjs].
      rewrite lookup_insert_eq. repeat split. }
  destruct (Z.eqb_spec message WM_RBUTTONUP) as [->|_].
  { eexists. eexists. eexists. split.
    - unfold bind. rewrite (update_mouse_Done w _ _ md Hmd). reflexivity.
    - unfold set_mouseObjs. cbn [globals pixelObjs mouseObjs].
      rewrite lookup_insert_eq. repeat split. }
  exists (DefWindowProc P hWnd message wParam lParam), w, md.
  repeat split; try reflexivity. exact Hmd.
Qed.

End Buttons.

(** X7: With a [MouseData] registered and a buffer bound, every sequence of
    messages is handled to the end, and afterwards each button flag is what
    the latest message of that button says: set by its button-down, cleared by
    its button-up, and as before when the sequence has neither; messages of
    the other button and moves do not touch it. *)
Theorem buttons_follow_their_latest_message
    {G : Type} (P : Platform) (ms : list Win32.MSG) (w : World G)
    (md : MouseData) (buf : PixelData) :
  m_bCreated (globals w) = true ->
  m_pMouseData (globals w) <> 0 ->
  mouseObjs w !! m_pMouseData (globals w) = Some md ->
  pixelObjs w !! m_pPlayBuffer (globals w) = Some buf ->
  m_scale (globals w) <> 0 ->
  exists w' md',
    deliver P ms w = Done tt w' /\
    globals w' = globals w /\
    mouseObjs w' !! m_pMouseData (globals w) = Some md' /\
    left md'
    = button_after Win32.WM_LBUTTONDOWN Win32.WM_LBUTTONUP ms (left md) /\
    right md'
    = button_after Win32.WM_RBUTTONDOWN Win32.WM_RBUTTONUP ms (right md).
Proof.
  revert w md. induction ms as [|m rest IH]; intros w md Hc Hp Hmd Hbuf Hs.
  - exists w, md. repeat split; try reflexivity. exact Hmd.
  - destruct (WndProc_tracks_buttons P w (Win32.hwnd m) (Win32.message m)
                (Win32.wParam m) (Win32.lParam m) md buf Hc Hp Hmd Hbuf Hs)
      as (r & w1 & md1 & Hrun & Hg & Hpx & Hmd1 & Hl & Hr).
    destruct (IH w1 md1) as (w' & md' & Hrest & Hg' & Hmd' & Hl' & Hr').
    + now rewrite Hg.
    + now rewrite Hg.
    + now rewrite Hg.
    + now rewrite Hg, Hpx.
    + now rewrite Hg.
    + exists w', md'. split.
      { cbn [deliver]. unfold bind at 1. rewrite Hrun. exact Hrest. }
      rewrite Hg in Hg', Hmd'.
      split; [exact Hg'|]. split; [exact Hmd'|].
      unfold button_after in *. cbn [fold_left].
      rewrite <- Hl, <- Hr. split; assumption.
Qed.

Lemma buttons_follow_their_latest_message_witness :
  exists w' md',
    deliver platform_steady messages_click world_running = Done tt w' /\
    mouseObjs w' !! 16 = Some md' /\
    left md' = false /\ right md' = true.
Proof.
  destruct (buttons_follow_their_latest_message platform_steady messages_click
              world_running
              (mkMouseData (S754_zero false) (S754_zero false) false false)
              (mkPixelData 320 240 0))
    as (w' & md' & H1 & _ & H2 & H3 & H4);
    [reflexivity | simpl; lia | reflexivity | reflexivity | simpl; lia |].
  exists w', md'. split; [exact H1|]. split; [exact H2|].
  split; [exact H3|exact H4].
Defined.

(** ** Loading, reading, saving *)

(** The copy loop in general: the first [count] pixels of the destination
    are replaced by those of the source. *)
Lemma copy_pixels_from (src : list Pixel) :
  forall (count b : nat) (dest : list Pixel),
    (b + count <= length src)%nat ->
    (b + count <= length dest)%nat ->
    copy_pixels count b src dest
    = Some (take b dest ++ take count (drop b src) ++ drop (b + count) dest).
Proof.
  induction count as [|k IH]; intros b dest Hs Hd; cbn [copy_pixels].
  - rewrite Nat.add_0_r. rewrite firstn_O. cbn [app]. now rewrite take_drop.
  - destruct (lookup_lt_is_Some_2 src b ltac:(lia)) as [px Hpx].
    rewrite Hpx. rewrite IH by (rewrite ?length_insert; lia).
    f_equal.
    rewrite (drop_S src px b Hpx). rewrite firstn_cons.
    rewrite drop_insert_lt by lia.
    replace (S b + k)%nat with (b + S k)%nat by lia.
    assert (E : take (S b) (<[b:=px]> dest) = take b dest ++ [px]).
    { rewrite (take_S_r (<[b:=px]> dest) b px).
      - now rewrite take_insert_ge by lia.
      - apply list_lookup_insert_eq. lia. }
    rewrite E, <- app_assoc. reflexivity.
Qed.

Lemma copy_pixels_take (src dest : list Pixel) (n : nat) :
  (n <= length src)%nat -> (n <= length dest)%nat ->
  copy_pixels n 0 src dest = Some (take n src ++ drop n dest).
Proof.
  intros Hs Hd. rewrite copy_pixels_from by lia. reflexivity.
Qed.

(** X8: Whatever the codec answers and however the call ends, [LoadPNGImage]
    leaves every pixel array that exists as it is: none is overwritten and
    none is released, the one [destImage.pPixels] pointed to before the call
    included. *)
Theorem LoadPNGImage_keeps_existing_arrays
    (codec : Codec) (fileAndPath : string) (destImage : PixelData)
    (heap : gmap Z (list Pixel)) (a : Z) (pixels : list Pixel) :
  heap !! a = Some pixels ->
  final (LoadPNGImage codec fileAndPath destImage heap) !! a = Some pixels.
Proof.
  intros Ha. unfold LoadPNGImage.
  destruct (negb _); [exact Ha|].
  destruct (_ <? 0); [exact Ha|].
  unfold new_pixels. unfold_op.
  set (p := fresh ({[0]} ∪ dom heap)).
  assert (Hp : p ∉ ({[0]} ∪ dom heap : gset Z)) by apply is_fresh.
  assert (Hne : p <> a).
  { intros ->. apply Hp. apply elem_of_union_r. apply elem_of_dom. eauto. }
  destruct (copy_pixels _ _ _ _); cbn [final].
  - rewrite !lookup_insert_ne by exact Hne. exact Ha.
  - rewrite lookup_insert_ne by exact Hne. exact Ha.
Qed.

Lemma LoadPNGImage_keeps_existing_arrays_witness :
  final (LoadPNGImage codec_two_pixels "bat_4.png" (mkPixelData 1 1 4)
           {[ 4 := [5] ]}) !! 4
  = Some [5].
Proof.
  apply LoadPNGImage_keeps_existing_arrays. reflexivity.
Defined.

(** X9: [ReadPNGImage] and [LoadPNGImage] agree: whenever [LoadPNGImage]
    returns, [ReadPNGImage] returns the same code for the same file; with the
    code 1 it stores the width and height [LoadPNGImage] stores in the
    destination image, and with a failure code both leave their outputs as
    they were. *)
Theorem ReadPNGImage_agrees_with_LoadPNGImage
    (codec : Codec) (fileAndPath : string) (destImage loaded : PixelData)
    (heap heap' : gmap Z (list Pixel)) (w0 h0 code : Z) :
  LoadPNGImage codec fileAndPath destImage heap = Done (code, loaded) heap' ->
  (code = 1 /\
   ReadPNGImage codec fileAndPath w0 h0 = (1, (width loaded, height loaded)))
  \/
  (code < 0 /\ loaded = destImage /\ heap' = heap /\
   ReadPNGImage codec fileAndPath w0 h0 = (code, (w0, h0))).
Proof.
  unfold LoadPNGImage, ReadPNGImage.
  set (bitmap := FromFile codec (mbstowcs codec fileAndPath)).
  destruct (Win32.status_code (last_status bitmap)
            =? Win32.status_code Win32.Ok) eqn:E; cbn [negb].
  - destruct (_ <? 0); [discriminate|].
    unfold new_pixels. unfold_op.
    destruct (copy_pixels _ _ _ _); [|discriminate].
    intros H. injection H as <- <- _. left. split; reflexivity.
  - unfold_op. intros H. injection H as <- <- <-. right.
    assert (Hs : last_status bitmap <> Win32.Ok).
    { intros Hs. apply status_code_Ok in Hs. congruence. }
    pose proof (status_code_positive _ Hs).
    repeat split. lia.
Qed.

Lemma ReadPNGImage_agrees_with_LoadPNGImage_witness :
  ReadPNGImage codec_no_file "bat_4.png" 3 4 = (-10, (3, 4)).
Proof.
  destruct (ReadPNGImage_agrees_with_LoadPNGImage codec_no_file "bat_4.png"
              (mkPixelData 3 4 5) (mkPixelData 3 4 5) ∅ ∅ 3 4 (-10)
              eq_refl) as [[H _]|(_ & _ & _ & H)].
  - discriminate H.
  - exact H.
Defined.

(** ** Finding an encoder *)

Lemma string_compare_refl (a : string) : String.compare a a = Eq.
Proof.
  pose proof (String.compare_antisym a a) as H.
  destruct (String.compare a a); [reflexivity|discriminate H|discriminate H].
Qed.

Lemma wcscmp_zero (a b : string) : (wcscmp a b =? 0) = true <-> a = b.
Proof.
  unfold wcscmp. split.
  - pose proof (String.compare_eq_iff a b) as H.
    destruct (String.compare a b); simpl; intros E;
      [apply H; reflexivity|discriminate E|discriminate E].
  - intros ->. now rewrite string_compare_refl.
Qed.

Section EncoderSearch.

Variable imageCodecInfo : list ImageCodecInfo.
Variable format : string.

(** The loop against [list_find], when the array holds the entries it
    visits. *)
Lemma search_encoders_find (c0 : CLSID) :
  forall (count j : nat),
    (j + count <= length imageCodecInfo)%nat ->
    Z.of_nat (j + count) <= 2 ^ 31 ->
    search_encoders count j imageCodecInfo format c0
    = match list_find (fun info => MimeType info = format)
              (take count (drop j imageCodecInfo)) with
      | Some (k, info) => Done (Some (Z.of_nat (j + k))) (Clsid info)
      | None => Done None c0
      end.
Proof.
  induction count as [|n IH]; intros j Hlen Hmax; cbn [search_encoders].
  - rewrite firstn_O. reflexivity.
  - destruct (lookup_lt_is_Some_2 imageCodecInfo j ltac:(lia)) as [info Hinfo].
    rewrite Hinfo, (drop_S _ _ _ Hinfo), firstn_cons. cbn [list_find].
    destruct (wcscmp (MimeType info) format =? 0) eqn:E.
    + apply wcscmp_zero in E.
      destruct (decide (MimeType info = format)) as [_|N]; [|contradiction].
      unfold_op. rewrite Nat.add_0_r, int32_small by lia. reflexivity.
    + destruct (decide (MimeType info = format)) as [Y|_].
      { apply wcscmp_zero in Y. congruence. }
      rewrite IH by lia.
      destruct (list_find _ _) as [[k info']|]; cbn [fmap option_fmap option_map prod_map fst snd id].
      * replace (S j + k)%nat with (j + S k)%nat by lia. reflexivity.
      * reflexivity.
Qed.

(** What the loop can return, whatever the array holds. *)
Lemma search_encoders_sound (c0 : CLSID) :
  forall (count j : nat) (r : option Z) (c : CLSID),
    Z.of_nat (j + count) <= 2 ^ 31 ->
    search_encoders count j imageCodecInfo format c0 = Done r c ->
    match r with
    | Some v =>
        exists k info,
          (j <= k < j + count)%nat /\ v = Z.of_nat k /\
          imageCodecInfo !! k = Some info /\
          MimeType info = format /\ c = Clsid info
    | None => c = c0
    end.
Proof.
  induction count as [|n IH]; intros j r c Hmax; cbn [search_encoders].
  - unfold_op. intros H. injection H as <- <-. reflexivity.
  - destruct (imageCodecInfo !! j) as [info|] eqn:Hinfo; [|discriminate].
    destruct (wcscmp (MimeType info) format =? 0) eqn:E.
    + apply wcscmp_zero in E. unfold_op. intros H. injection H as <- <-.
      exists j, info. rewrite int32_small by lia.
      repeat split; try assumption; lia.
    + intros H. apply IH in H; [|lia].
      destruct r as [v|]; [|exact H].
      destruct H as (k & info' & Hk & Hv & Hl & Hm & Hc).
      exists k, info'. repeat split; try assumption; lia.
Qed.

End EncoderSearch.

(** X10: When GDI+ reports a size that is not zero, the allocation succeeds
    and the array holds the [num] encoders it was asked for, [GetEncoderClsid]
    returns the index of the first encoder whose MIME type is [format] and
    stores its class identifier; when none has it, it returns -1 and leaves
    the identifier as it was. *)
Theorem GetEncoderClsid_returns_first_match
    (table : EncoderTable) (format : string) (c0 : CLSID) :
  encoders_size table <> 0 ->
  malloc_succeeds table = true ->
  0 <= encoders_num table <= Z.of_nat (length (image_encoders table)) ->
  encoders_num table <= 2 ^ 31 ->
  GetEncoderClsid table format c0
  = match list_find (fun info => MimeType info = format)
            (take (Z.to_nat (encoders_num table)) (image_encoders table)) with
    | Some (k, info) => Done (Z.of_nat k) (Clsid info)
    | None => Done (-1) c0
    end.
Proof.
  intros Hsize Hmalloc Hnum Hmax. unfold GetEncoderClsid.
  destruct (Z.eqb_spec (encoders_size table) 0) as [|_]; [contradiction|].
  rewrite Hmalloc. cbn [negb].
  unfold bind.
  rewrite search_encoders_find by lia.
  rewrite drop_0.
  destruct (list_find _ _) as [[k info]|]; reflexivity.
Qed.

Lemma GetEncoderClsid_returns_first_match_witness :
  GetEncoderClsid table_five "image/png" 0 = Done 4 4006 /\
  GetEncoderClsid table_five "image/webp" 7 = Done (-1) 7.
Proof.
  split.
  - apply (GetEncoderClsid_returns_first_match table_five "image/png" 0);
      [discriminate | reflexivity | simpl; lia | simpl; lia].
  - apply (GetEncoderClsid_returns_first_match table_five "image/webp" 7);
      [discriminate | reflexivity | simpl; lia | simpl; lia].
Defined.

(** X11: Whatever GDI+ and the allocator answer, a call of [GetEncoderClsid]
    that returns either returns -1 with the class identifier untouched, or
    returns the index of an encoder whose MIME type is [format] with the
    identifier of that encoder stored. *)
Theorem GetEncoderClsid_result_matches_or_is_minus_one
    (table : EncoderTable) (format : string) (c0 c : CLSID) (r : Z) :
  encoders_num table <= 2 ^ 31 ->
  GetEncoderClsid table format c0 = Done r c ->
  (r = -1 /\ c = c0) \/
  (exists info,
     0 <= r < encoders_num table /\
     image_encoders table !! Z.to_nat r = Some info /\
     MimeType info = format /\ c = Clsid info).
Proof.
  intros Hmax. unfold GetEncoderClsid.
  destruct (encoders_size table =? 0).
  { unfold_op. intros H. injection H as <- <-. left. split; reflexivity. }
  destruct (negb (malloc_succeeds table)).
  { unfold_op. intros H. injection H as <- <-. left. split; reflexivity. }
  unfold bind.
  destruct (search_encoders _ _ _ _ _) as [r' c'| | |] eqn:E;
    try discriminate.
  apply search_encoders_sound in E; [|lia].
  destruct r' as [v|]; unfold_op; intros H; injection H as <- <-.
  - destruct E as (k & info & Hk & -> & Hl & Hm & Hc).
    right. exists info. rewrite Nat2Z.id.
    repeat split; try assumption; lia.
  - left. split; [reflexivity|exact E].
Qed.

Lemma GetEncoderClsid_result_matches_or_is_minus_one_witness :
  (4 = -1 /\ 4006 = 0) \/
  (exists info,
     0 <= 4 < 5 /\
     image_encoders table_five !! Z.to_nat 4 = Some info /\
     MimeType info = "image/png"%string /\ 4006 = Clsid info).
Proof.
  apply (GetEncoderClsid_result_matches_or_is_minus_one table_five
           "image/png" 0 4006 4); [simpl; lia | reflexivity].
Defined.

(** ** Saving *)

(** The decoded case of [LoadPNGImage]. *)
Lemma LoadPNGImage_decoded (codec : Codec) (fileAndPath : string)
      (destImage : PixelData) (heap : gmap Z (list Pixel)) :
  let bitmap := FromFile codec (mbstowcs codec fileAndPath) in
  decoded bitmap ->
  exists p,
    p <> 0 /\ heap !! p = None /\
    LoadPNGImage codec fileAndPath destImage heap
    = Done (1, mkPixelData (bitmap_width bitmap) (bitmap_height bitmap) p)
           (<[p := scan0 bitmap]> heap).
Proof.
  intros bitmap (Hs & Hw & Hh & Hwh & Hlen).
  unfold LoadPNGImage. fold bitmap.
  assert (Hn : 0 <= bitmap_width bitmap * bitmap_height bitmap) by nia.
  rewrite Hs.
  change (negb (Win32.status_code Win32.Ok =? Win32.status_code Win32.Ok))
    with false.
  cbv iota.
  rewrite (int32_small (bitmap_width bitmap)) by lia.
  rewrite (int32_small (bitmap_height bitmap)) by lia.
  rewrite (int32_small (bitmap_width bitmap * bitmap_height bitmap)) by lia.
  destruct (Z.ltb_spec (bitmap_width bitmap * bitmap_height bitmap) 0);
    [lia|].
  set (p := fresh ({[0]} ∪ dom heap)).
  assert (Hp : p ∉ ({[0]} ∪ dom heap : gset Z)) by apply is_fresh.
  exists p. split; [|split].
  - intros E. apply Hp. rewrite E.
    apply elem_of_union_l, elem_of_singleton. reflexivity.
  - apply not_elem_of_dom. intros E. apply Hp.
    apply elem_of_union_r. exact E.
  - unfold new_pixels. unfold_op. fold p. rewrite <- Hlen.
    rewrite copy_pixels_all. f_equal. apply insert_insert_eq.
Qed.

Section SavingFacts.

Context {Disk : Type}.
Variable gdi : Imaging Disk.

(** When the source array and the locked bitmap both hold the [n] pixels the
    loop copies, [SavePNGImage] hands [Bitmap::Save] a bitmap that starts
    with the first [n] pixels of the source, under the class identifier
    [GetEncoderClsid] left in [pngClsid], whatever that call returned;
    it returns 1 when [Save] reports [Ok] and the negated status, a negative
    number, otherwise; the pixel memory is as before. *)
Lemma SavePNGImage_runs (fileAndPath : string) (sourceImage : PixelData)
      (s : Storage Disk) (sourcePixels : list Pixel) (r : Z)
      (pngClsid : CLSID) :
  let bitmap := new_Bitmap gdi (width sourceImage) (height sourceImage) in
  let n := Z.to_nat (int32 (width sourceImage * height sourceImage)) in
  pixel_heap s !! pPixels sourceImage = Some sourcePixels ->
  (n <= length sourcePixels)%nat ->
  (n <= length (scan0 bitmap))%nat ->
  GetEncoderClsid (encoder_table gdi) "image/png" (unassigned_clsid gdi)
  = Done r pngClsid ->
  let saved :=
    Save gdi (path_to_wide gdi fileAndPath) pngClsid
      (mkBitmap (last_status bitmap) (bitmap_width bitmap)
         (bitmap_height bitmap)
         (take n sourcePixels ++ drop n (scan0 bitmap)))
      (disk s) in
  SavePNGImage gdi fileAndPath sourceImage s
  = Done (result_code (fst saved)) (mkStorage (pixel_heap s) (snd saved)).
Proof.
  intros bitmap n Hsrc Hn Hb Henc saved.
  unfold SavePNGImage. fold bitmap.
  unfold bind at 1. unfold get at 1. rewrite Hsrc. cbn [default].
  destruct (Z.ltb_spec (Z.of_nat (length (scan0 bitmap)))
              (int32 (width sourceImage * height sourceImage))) as [Hlt|_].
  { subst n. lia. }
  fold n. change (id sourcePixels) with sourcePixels.
  rewrite (copy_pixels_take sourcePixels (scan0 bitmap) n Hn Hb).
  rewrite Henc. fold saved.
  unfold result_code. unfold_op.
  destruct (negb _); reflexivity.
Qed.

End SavingFacts.

Lemma copy_pixels_short (src : list Pixel) :
  forall (count b : nat) (dest : list Pixel),
    (length src < b + count)%nat ->
    (b <= length src)%nat ->
    copy_pixels count b src dest = None.
Proof.
  induction count as [|k IH]; intros b dest Hs Hb; cbn [copy_pixels].
  - lia.
  - destruct (src !! b) as [px|] eqn:E; [|reflexivity].
    apply lookup_lt_Some in E. apply IH; lia.
Qed.

Lemma result_code_cases (s : Win32.Status) :
  (s = Win32.Ok /\ result_code s = 1) \/
  (s <> Win32.Ok /\ result_code s = - Win32.status_code s /\
   result_code s < 0).
Proof.
  unfold result_code.
  destruct (Win32.status_code s =? Win32.status_code Win32.Ok) eqn:E;
    cbn [negb].
  - left. split; [apply status_code_Ok; exact E|reflexivity].
  - right.
    assert (Hs : s <> Win32.Ok).
    { intros Hs. apply status_code_Ok in Hs. congruence. }
    pose proof (status_code_positive _ Hs).
    repeat split; [exact Hs|lia].
Qed.

(** X12: When the source array and the locked bitmap both hold the pixels the
    loop copies, [SavePNGImage] hands [Bitmap::Save] a bitmap that starts with
    the first [width * height] pixels of the source, under the class
    identifier [GetEncoderClsid] left in [pngClsid], whatever that call
    returned, -1 included; it returns 1 when [Save] reports [Ok] and the
    negated status, a negative number, otherwise, and the pixel memory is as
    before. *)
Theorem SavePNGImage_saves_the_source_pixels
    {Disk : Type} (gdi : Imaging Disk) (fileAndPath : string)
    (sourceImage : PixelData) (s : Storage Disk) (sourcePixels : list Pixel)
    (r : Z) (pngClsid : CLSID) :
  let bitmap := new_Bitmap gdi (width sourceImage) (height sourceImage) in
  let n := Z.to_nat (int32 (width sourceImage * height sourceImage)) in
  pixel_heap s !! pPixels sourceImage = Some sourcePixels ->
  (n <= length sourcePixels)%nat ->
  (n <= length (scan0 bitmap))%nat ->
  GetEncoderClsid (encoder_table gdi) "image/png" (unassigned_clsid gdi)
  = Done r pngClsid ->
  exists (status : Win32.Status) (disk' : Disk) (code : Z),
    Save gdi (path_to_wide gdi fileAndPath) pngClsid
      (mkBitmap (last_status bitmap) (bitmap_width bitmap)
         (bitmap_height bitmap)
         (take n sourcePixels ++ drop n (scan0 bitmap)))
      (disk s)
    = (status, disk') /\
    SavePNGImage gdi fileAndPath sourceImage s
    = Done code (mkStorage (pixel_heap s) disk') /\
    ((status = Win32.Ok /\ code = 1) \/
     (status <> Win32.Ok /\ code = - Win32.status_code status /\ code < 0)).
Proof.
  intros bitmap n Hsrc Hn Hb Henc.
  pose proof (SavePNGImage_runs gdi fileAndPath sourceImage s sourcePixels r
                pngClsid Hsrc Hn Hb Henc) as H.
  cbv zeta in H. fold bitmap n in H.
  destruct (Save gdi _ _ _ _) as [status disk'] eqn:E.
  exists status, disk', (result_code status).
  split; [reflexivity|]. split; [exact H|].
  apply result_code_cases.
Qed.

Lemma SavePNGImage_saves_the_source_pixels_witness :
  exists (status : Win32.Status) (disk' : option Bitmap) (code : Z),
    Save imaging_one_file (path_to_wide imaging_one_file "out.png") 4006
      (mkBitmap Win32.Ok 2 1 [7; 9]) None
    = (status, disk') /\
    SavePNGImage imaging_one_file "out.png" (mkPixelData 2 1 4)
      storage_two_pixels
    = Done code (mkStorage {[ 4 := [7; 9] ]} disk') /\
    ((status = Win32.Ok /\ code = 1) \/
     (status <> Win32.Ok /\ code = - Win32.status_code status /\ code < 0)).
Proof.
  apply (SavePNGImage_saves_the_source_pixels imaging_one_file "out.png"
           (mkPixelData 2 1 4) storage_two_pixels [7; 9] 4 4006);
    [reflexivity | vm_compute; lia | vm_compute; lia | reflexivity].
Defined.

(** X13: The loop copies [width * height] pixels whatever the length of the
    source array: with a source array shorter than that, [SavePNGImage] reads
    past its end. *)
Theorem SavePNGImage_reads_past_a_short_source
    {Disk : Type} (gdi : Imaging Disk) (fileAndPath : string)
    (sourceImage : PixelData) (s : Storage Disk) (sourcePixels : list Pixel) :
  let bitmap := new_Bitmap gdi (width sourceImage) (height sourceImage) in
  let n := Z.to_nat (int32 (width sourceImage * height sourceImage)) in
  pixel_heap s !! pPixels sourceImage = Some sourcePixels ->
  (length sourcePixels < n)%nat ->
  SavePNGImage gdi fileAndPath sourceImage s = Crash s.
Proof.
  intros bitmap n Hsrc Hn.
  unfold SavePNGImage. fold bitmap.
  unfold bind at 1. unfold get at 1. rewrite Hsrc. cbn [default].
  change (id sourcePixels) with sourcePixels.
  destruct (_ <? _); [reflexivity|].
  fold n. rewrite copy_pixels_short by lia. reflexivity.
Qed.

Lemma SavePNGImage_reads_past_a_short_source_witness :
  SavePNGImage imaging_one_file "out.png" (mkPixelData 2 2 4)
    storage_two_pixels
  = Crash storage_two_pixels.
Proof.
  apply (SavePNGImage_reads_past_a_short_source imaging_one_file "out.png"
           (mkPixelData 2 2 4) storage_two_pixels [7; 9]);
    [reflexivity | vm_compute; lia].
Defined.

(** X14: Saving and loading again gives the image back: when GDI+ creates the
    bitmap it is asked for, [Save] reports [Ok], and decoding the file hands
    back the bitmap that was saved, [SavePNGImage] returns 1 and a
    [LoadPNGImage] of the same path returns 1 with the width and height of the
    source image and a fresh array holding its first [width * height] pixels. *)
Theorem SavePNGImage_then_LoadPNGImage
    {Disk : Type} (gdi : Imaging Disk) (FromDisk : Disk -> list Z -> Bitmap)
    (fileAndPath : string) (sourceImage destImage : PixelData)
    (s : Storage Disk) (sourcePixels : list Pixel) (r : Z)
    (pngClsid : CLSID) (disk' : Disk) :
  let w := width sourceImage in
  let h := height sourceImage in
  let saved := mkBitmap Win32.Ok w h (take (Z.to_nat (w * h)) sourcePixels) in
  0 < w -> 0 < h -> w * h < 2 ^ 31 ->
  pixel_heap s !! pPixels sourceImage = Some sourcePixels ->
  w * h <= Z.of_nat (length sourcePixels) ->
  new_Bitmap gdi w h = mkBitmap Win32.Ok w h (replicate (Z.to_nat (w * h)) 0) ->
  GetEncoderClsid (encoder_table gdi) "image/png" (unassigned_clsid gdi)
  = Done r pngClsid ->
  Save gdi (path_to_wide gdi fileAndPath) pngClsid saved (disk s)
  = (Win32.Ok, disk') ->
  FromDisk disk' (path_to_wide gdi fileAndPath) = saved ->
  SavePNGImage gdi fileAndPath sourceImage s
  = Done 1 (mkStorage (pixel_heap s) disk') /\
  exists p,
    p <> 0 /\ pixel_heap s !! p = None /\
    LoadPNGImage (mkCodec (path_to_wide gdi) (FromDisk disk')) fileAndPath
      destImage (pixel_heap s)
    = Done (1, mkPixelData w h p)
        (<[p := take (Z.to_nat (w * h)) sourcePixels]> (pixel_heap s)).
Proof.
  intros w h saved Hw Hh Hwh Hsrc Hlen Hnew Henc Hsave Hread.
  assert (Hpos : 0 < w * h) by nia.
  assert (Hn : int32 (w * h) = w * h) by (apply int32_small; lia).
  split.
  - pose proof (SavePNGImage_runs gdi fileAndPath sourceImage s sourcePixels
                  r pngClsid Hsrc) as H.
    cbv zeta in H. fold w h in H. rewrite Hn, Hnew in H.
    cbn [scan0 last_status bitmap_width bitmap_height] in H.
    rewrite length_replicate in H.
    rewrite drop_ge in H by (rewrite length_replicate; lia).
    rewrite app_nil_r in H. fold saved in H.
    rewrite Hsave in H. apply H; [lia|lia|exact Henc].
  - pose proof (LoadPNGImage_decoded
                  (mkCodec (path_to_wide gdi) (FromDisk disk'))
                  fileAndPath destImage (pixel_heap s)) as H.
    cbv zeta in H. cbn [FromFile mbstowcs] in H. rewrite Hread in H.
    apply H. unfold decoded, saved.
    cbn [scan0 last_status bitmap_width bitmap_height].
    rewrite length_take.
    repeat split; try lia.
Qed.

Lemma SavePNGImage_then_LoadPNGImage_witness :
  SavePNGImage imaging_one_file "out.png" (mkPixelData 2 1 4)
    storage_two_pixels
  = Done 1 (mkStorage {[ 4 := [7; 9] ]}
              (Some (mkBitmap Win32.Ok 2 1 [7; 9]))) /\
  exists p,
    p <> 0 /\ ({[ 4 := [7; 9] ]} : gmap Z (list Pixel)) !! p = None /\
    LoadPNGImage
      (mkCodec (path_to_wide imaging_one_file)
         (read_one_file (Some (mkBitmap Win32.Ok 2 1 [7; 9]))))
      "out.png" (mkPixelData 0 0 0) {[ 4 := [7; 9] ]}
    = Done (1, mkPixelData 2 1 p) (<[p := [7; 9]]> {[ 4 := [7; 9] ]}).
Proof.
  apply (SavePNGImage_then_LoadPNGImage imaging_one_file read_one_file
           "out.png" (mkPixelData 2 1 4) (mkPixelData 0 0 0)
           storage_two_pixels [7; 9] 4 4006
           (Some (mkBitmap Win32.Ok 2 1 [7; 9])));
    try reflexivity; vm_compute; (reflexivity || discriminate).
Defined.

(** ** The order of events *)

Lemma phase_after_snoc (P : Platform) (B : Build) tr e :
  phase_after P B (tr ++ [e])
  = match phase_after P B tr with
    | Some ph => step P B ph e
    | None => None
    end.
Proof. unfold phase_after. rewrite fold_left_app. reflexivity. Qed.

Lemma latest_message_snoc tr e :
  latest_message (tr ++ [e])
  = match e with EvPeek (Some m) => m | _ => latest_message tr end.
Proof. unfold latest_message. rewrite fold_left_app. reflexivity. Qed.

Lemma MSG_eqb_refl (m : Win32.MSG) : MSG_eqb m m = true.
Proof. unfold MSG_eqb. now rewrite !Z.eqb_refl. Qed.

Lemma MSG_eqb_eq (a b : Win32.MSG) : MSG_eqb a b = true -> a = b.
Proof.
  unfold MSG_eqb. destruct a, b. cbn.
  rewrite !andb_true_iff, !Z.eqb_eq. intros (((-> & ->) & ->) & ->).
  reflexivity.
Qed.

Lemma ready_to_poll_step (P : Platform) (B : Build) ph t :
  ready_to_poll P ph = true -> step P B ph (EvCounter t) = Some (Polled t).
Proof.
  destruct ph as [| | | | |[m|]| | | | | | |]; try discriminate;
    cbn [ready_to_poll step]; try reflexivity.
  intros H. apply negb_true_iff in H. now rewrite H.
Qed.

Section Order.

Context {G : Type}.
Variable P : Platform.
Variable user : Game G.
Variable B : Build.

Local Notation "'phase'" := (phase_after P B).
Local Notation "'at_phase'" := (in_phase P B).
Local Notation "'stopped'" := (stopped_in_phase P B).

Lemma stopped_ready ph tr :
  phase tr = Some ph -> ready_to_poll P ph = true -> stopped true tr.
Proof.
  intros H Hr. exists ph. split; [exact H|].
  destruct ph as [| | | | |r| | | | | | |]; try discriminate Hr;
    cbn [stops_at andb]; try reflexivity; exact Hr.
Qed.

Lemma handle_messages_order l :
  triple (at_phase (LoopHead false) l) (@handle_messages G P l)
         (fun r tr =>
            msg (snd r) = latest_message tr /\ quit (snd r) = quit l /\
            match fst r with
            | Next => exists ph, phase tr = Some ph /\ ready_to_poll P ph = true
            | Break =>
                exists m, phase tr = Some (Peeked (Some m)) /\
                          (Win32.message m =? Win32.WM_QUIT) = true
            end)
         stopped.
Proof.
  intros m (Hph & Hmsg).
  unfold handle_messages, bind, lift, emit, modify, ret.
  destruct (PeekMessage_returns P (world m)) as (r & w1 & ->).
  cbn [trace world].
  assert (H1 : phase (trace m ++ [EvPeek r]) = Some (Peeked r)).
  { rewrite phase_after_snoc, Hph. reflexivity. }
  destruct r as [ms|].
  - destruct (Win32.message ms =? Win32.WM_QUIT) eqn:E.
    + cbn [trace fst snd]. rewrite latest_message_snoc.
      cbn [msg set_msg quit]. repeat split. exists ms. split; assumption.
    + destruct (accelerator_hit P ms) eqn:EA.
      * cbn [trace fst snd]. rewrite latest_message_snoc.
        cbn [msg set_msg quit]. repeat split.
        eexists. split; [exact H1|].
        cbn [ready_to_poll]. unfold dispatchable. now rewrite E, EA.
      * cbn [trace world].
        assert (H2 : phase ((trace m ++ [EvPeek (Some ms)]) ++ [EvDispatch ms])
                     = Some Dispatched).
        { rewrite phase_after_snoc, H1. cbn [step]. unfold dispatchable.
          now rewrite E, EA, MSG_eqb_refl. }
        destruct (DispatchMessage P ms w1); cbn [trace fst snd];
          try (exists Dispatched; split; [exact H2|reflexivity]).
        rewrite !latest_message_snoc. cbn [msg set_msg quit].
        repeat split. eexists. split; [exact H2|reflexivity].
  - cbn [trace fst snd]. rewrite latest_message_snoc.
    repeat split; [exact Hmsg|]. eexists. split; [exact H1|reflexivity].
Qed.

Lemma wait_for_frame_order spin : forall l,
  triple (fun tr => msg l = latest_message tr /\
                    exists ph, phase tr = Some ph /\
                               ready_to_poll P ph = true)
         (@wait_for_frame G P B spin l)
         (fun l' tr => at_phase (Polled (now l')) l' tr /\ quit l' = quit l)
         stopped.
Proof.
  induction spin as [|k IH]; intros l m (Hmsg & ph & Hph & Hr).
  - apply (stopped_ready ph _ Hph Hr).
  - cbn [wait_for_frame].
    unfold bind, lift, emit, modify, ret.
    unfold QueryPerformanceCounter at 1. unfold bind, get, modify, ret.
    cbn [trace world].
    set (t := int64 (counter_at P (nCounter (world m)))).
    assert (H1 : phase (trace m ++ [EvCounter t]) = Some (Polled t)).
    { rewrite phase_after_snoc, Hph. apply ready_to_poll_step. exact Hr. }
    assert (M1 : latest_message (trace m ++ [EvCounter t]) = msg l).
    { rewrite latest_message_snoc. now rewrite Hmsg. }
    destruct (IEEE.dlt _ _).
    + match goal with
      | |- context [wait_for_frame P B k ?l1 ?m1] =>
          pose proof (IH l1 m1) as H
      end.
      cbn [trace msg set_now quit] in H.
      match type of H with
      | ?A -> _ => assert (HA : A)
      end.
      { split; [now rewrite M1|]. eexists. split; [exact H1|reflexivity]. }
      specialize (H HA).
      destruct (wait_for_frame _ _ _ _ _); exact H.
    + cbn [trace]. unfold in_phase. cbn [now msg quit set_now].
      repeat split; [exact H1|now rewrite M1].
Qed.

Lemma call_update_order l ph0 :
  (forall dt q, step P B ph0 (EvUpdate dt q) = Some (Updated q (now l))) ->
  triple (at_phase ph0 l) (@call_update G user l)
         (fun l' tr => at_phase (Updated (quit l') (now l')) l' tr)
         stopped.
Proof.
  intros Hstep m (Hph & Hmsg).
  unfold call_update, bind, get, emit, modify, ret. cbn [trace world].
  unfold in_phase. cbn [quit now msg set_quit].
  rewrite phase_after_snoc, Hph, Hstep, latest_message_snoc.
  split; [reflexivity|exact Hmsg].
Qed.

Lemma update_if_focused_order l :
  quit l = false ->
  triple (at_phase (Polled (now l)) l) (@update_if_focused G P user B l)
         (fun l' tr =>
            at_phase (Updated (quit l') (now l')) l' tr \/
            (at_phase (FocusTested false (now l')) l' tr /\ quit l' = false))
         stopped.
Proof.
  intros Hq. unfold update_if_focused. destruct (DEBUG B) eqn:ED.
  - intros m Hm.
    pose proof (call_update_order l (Polled (now l))) as H.
    specialize (H ltac:(intros; cbn [step]; now rewrite ED) m Hm).
    destruct (call_update user l m); auto.
  - intros m (Hph & Hmsg).
    unfold bind, lift, get. unfold GetFocus at 1.
    unfold bind, get, modify, ret, emit. unfold modify. cbn [trace world].
    set (b := focus_at P (nFocus (world m)) =? _).
    assert (H1 : at_phase (FocusTested b (now l)) l (trace m ++ [EvFocus b])).
    { split.
      - rewrite phase_after_snoc, Hph. cbn [step]. now rewrite ED.
      - now rewrite latest_message_snoc. }
    destruct b.
    + match goal with
      | |- context [call_update user l ?mm] =>
          pose proof (call_update_order l (FocusTested true (now l))
                        ltac:(intros; reflexivity) mm H1) as H
      end.
      destruct (call_update user l _); auto.
    + cbn [trace]. right. split; [exact H1|exact Hq].
Qed.

Lemma frame_order spin l :
  quit l = false ->
  triple (at_phase (LoopHead false) l) (@frame G P user B spin l)
         (fun r tr =>
            msg (snd r) = latest_message tr /\
            match fst r with
            | Next => phase tr = Some (LoopHead (quit (snd r)))
            | Break =>
                exists m, phase tr = Some (Peeked (Some m)) /\
                          (Win32.message m =? Win32.WM_QUIT) = true
            end)
         stopped.
Proof.
  intros Hq. unfold frame.
  eapply triple_bind; [apply (handle_messages_order l)|].
  intros [[|] l1]; cbn [fst snd].
  - intros m (Hmsg & Hq1 & Hph).
    pose proof (wait_for_frame_order spin l1 m (conj Hmsg Hph)) as HW.
    unfold bind at 1.
    destruct (wait_for_frame P B spin l1 m) as [l2 m2| | |]; try exact HW.
    destruct HW as (HW & Hq2).
    assert (Hq2' : quit l2 = false) by congruence.
    pose proof (update_if_focused_order l2 Hq2' m2 HW) as HU.
    unfold bind at 1.
    destruct (update_if_focused P user B l2 m2) as [l3 m3| | |]; try exact HU.
    unfold bind, emit, modify, ret. cbn [trace fst snd].
    cbn [msg quit set_lastDrawTime].
    rewrite !latest_message_snoc, !phase_after_snoc.
    destruct HU as [(Hph3 & Hm3)|((Hph3 & Hm3) & Hq3)];
      rewrite Hph3; cbn [step]; rewrite Z.eqb_refl; cbn [step].
    + split; [exact Hm3|reflexivity].
    + split; [exact Hm3|now rewrite Hq3].
  - intros m (Hmsg & _ & Hph). cbn [ret fst snd]. split; assumption.
Qed.

Lemma frame_loop_order spin frames : forall l,
  triple (at_phase (LoopHead (quit l)) l)
         (@frame_loop G P user B frames spin l)
         (fun l' tr =>
            msg l' = latest_message tr /\
            (phase tr = Some (LoopHead true) \/
             exists m, phase tr = Some (Peeked (Some m)) /\
                       (Win32.message m =? Win32.WM_QUIT) = true))
         stopped.
Proof.
  induction frames as [|n IH]; intros l; cbn [frame_loop].
  - destruct (quit l) eqn:Hq; intros m (Hph & Hmsg).
    + cbn [ret]. split; [exact Hmsg|left; exact Hph].
    + exists (LoopHead false). split; [exact Hph|reflexivity].
  - destruct (quit l) eqn:Hq.
    + intros m (Hph & Hmsg). cbn [ret]. split; [exact Hmsg|left; exact Hph].
    + eapply triple_bind; [apply (frame_order spin l Hq)|].
      intros [[|] l1]; cbn [fst snd].
      * intros m (Hmsg & Hph). apply IH. split; assumption.
      * intros m (Hmsg & Hph). cbn [ret]. split; [exact Hmsg|right; exact Hph].
Qed.

Lemma shut_down_order l :
  triple (fun tr =>
            msg l = latest_message tr /\
            (phase tr = Some (LoopHead true) \/
             exists m, phase tr = Some (Peeked (Some m)) /\
                       (Win32.message m =? Win32.WM_QUIT) = true))
         (@shut_down G user l)
         (fun ret tr =>
            phase tr = Some ShutDown /\
            ret = int32 (Win32.wParam (latest_message tr)))
         stopped.
Proof.
  intros m (Hmsg & Hph).
  unfold shut_down, bind, get, emit, modify, ret, PLAY_ASSERT, PLAY_ASSERT_MSG.
  cbn [trace world].
  set (c := fst (MainGameExit user (world m))).
  assert (H1 : phase (trace m ++ [EvExit c]) = Some Exited).
  { rewrite phase_after_snoc.
    destruct Hph as [Hph|(ms & Hph & E)]; rewrite Hph; cbn [step];
      [reflexivity|now rewrite E]. }
  destruct (negb (g_pGDIToken (snd (MainGameExit user (world m))) =? 0));
    cbn [trace].
  - rewrite phase_after_snoc, H1, !latest_message_snoc, Hmsg.
    split; reflexivity.
  - exists Exited. split; [exact H1|reflexivity].
Qed.

Lemma HandleWindows_order frames spin :
  triple (fun tr => tr = []) (@HandleWindows G P user B frames spin)
         (fun ret tr =>
            (phase tr = Some NoWindow \/ phase tr = Some ShutDown) /\
            ret = int32 (Win32.wParam (latest_message tr)))
         stopped.
Proof.
  intros m Hnil.
  assert (H0 : forall b, stopped b (trace m)).
  { intros b. rewrite Hnil. exists AtStart. split; reflexivity. }
  unfold HandleWindows.
  unfold bind at 1. unfold lift at 1.
  destruct (ASSERT_WINDOW (world m)) as [[] w0| | |]; cbn [trace]; auto.
  unfold bind at 1. unfold get at 1.
  unfold bind at 1. unfold lift at 1. cbn [world trace].
  destruct (deref_pixel _ w0) as [d w1| | |]; cbn [trace]; auto.
  unfold bind at 1. unfold emit at 1, modify at 1.
  cbn [world trace].
  destruct (CreateWindowW P _ _ =? 0) eqn:EW.
  - cbn [ret trace]. rewrite Hnil. cbn [app phase_after fold_left step].
    rewrite EW. split; [left; reflexivity|reflexivity].
  - unfold bind at 1. unfold lift at 1, modify at 1. cbn [world trace].
    unfold bind at 1. unfold lift at 1.
    unfold QueryPerformanceCounter at 1. unfold bind, get, modify, ret.
    cbn [world trace].
    unfold emit, modify. cbn [world trace].
    unfold lift, QueryPerformanceFrequency, ret. cbn [world trace].
    match goal with
    | |- context [frame_loop P user B frames spin ?l0 ?m0] =>
        pose proof (frame_loop_order spin frames l0 m0) as HL
    end.
    cbn [trace quit] in HL.
    match type of HL with
    | ?A -> _ => assert (HA : A)
    end.
    { rewrite Hnil. split.
      - cbn [app phase_after fold_left step]. rewrite EW.
        cbn [step]. now rewrite Z.eqb_refl.
      - reflexivity. }
    specialize (HL HA).
    destruct (frame_loop _ _ _ _ _ _ _) as [l' m'| | |]; auto.
    pose proof (shut_down_order l' m' HL) as HS.
    destruct (shut_down user l' m'); auto.
    destruct HS as (H1 & H2). split; [right; exact H1|exact H2].
Qed.

End Order.

(** X15: Every run of [HandleWindows] goes through its events in one order:
    the window is created, and when that fails nothing else happens; the
    counter is read and the timestamp stored; then, pass after pass, one
    [PeekMessage], the dispatch of the message retrieved, the readings of the
    wait, the focus test of a release build, the update, the timestamp and
    [DwmFlush]; after a pass whose update returned [true], or on retrieving
    [WM_QUIT], the exit callback and then [GdiplusShutdown]. A run that
    returns has gone through all of it or has found no window. *)
Theorem run_follows_the_order_of_events
    {G : Type} (P : Platform) (user : Game G) (B : Build)
    (w : World G) (frames spin : nat) :
  let o := HandleWindows P user B frames spin (mkMachine w []) in
  exists ph,
    phase_after P B (trace (final o)) = Some ph /\ ends_in P o ph = true.
Proof.
  intros o.
  pose proof (HandleWindows_order P user B frames spin (mkMachine w [])
                eq_refl) as H.
  fold o in H. unfold ends_in.
  destruct o as [ret m'|msg m'|m'|m']; cbn [final]; try exact H.
  destruct H as ([H|H] & _); eexists; (split; [exact H|reflexivity]).
Qed.

(** X16: [HandleWindows] returns the [wParam] of the latest message
    [PeekMessage] retrieved, narrowed to [int]: the exit code of [WM_QUIT]
    when the loop ended on it; and 0 when no message was ever retrieved. *)
Theorem HandleWindows_returns_wParam_of_latest_message
    {G : Type} (P : Platform) (user : Game G) (B : Build)
    (w : World G) (frames spin : nat) (ret : Z) (m' : @Machine G) :
  HandleWindows P user B frames spin (mkMachine w []) = Done ret m' ->
  ret = int32 (Win32.wParam (latest_message (trace m'))).
Proof.
  intros E.
  pose proof (HandleWindows_order P user B frames spin (mkMachine w [])
                eq_refl) as H.
  rewrite E in H. apply H.
Qed.

Lemma HandleWindows_returns_wParam_of_latest_message_witness :
  exists m',
    HandleWindows platform_quit_posted game_runs_on (mkBuild false 60) 1 1
      (mkMachine world_running []) = Done 7 m' /\
    7 = int32 (Win32.wParam (latest_message (trace m'))).
Proof.
  eexists. split.
  - vm_compute. reflexivity.
  - apply (HandleWindows_returns_wParam_of_latest_message platform_quit_posted
             game_runs_on (mkBuild false 60) world_running 1 1).
    vm_compute. reflexivity.
Defined.

Section OrderFacts.

Variable P : Platform.
Variable B : Build.

Lemma phase_after_app tr1 tr2 :
  phase_after P B (tr1 ++ tr2)
  = fold_left
      (fun acc e => match acc with Some ph => step P B ph e | None => None end)
      tr2 (phase_after P B tr1).
Proof. unfold phase_after. apply fold_left_app. Qed.

Lemma out_of_order_stays tr :
  fold_left
    (fun acc e => match acc with Some ph => step P B ph e | None => None end)
    tr None = None.
Proof. induction tr as [|e tr IH]; [reflexivity|exact IH]. Qed.

(** An event of an ordered trace is a step from the phase before it. *)
Lemma phase_after_split pre e post ph :
  phase_after P B (pre ++ e :: post) = Some ph ->
  exists ph0 ph1,
    phase_after P B pre = Some ph0 /\ step P B ph0 e = Some ph1 /\
    phase_after P B (pre ++ [e]) = Some ph1.
Proof.
  intros H. rewrite phase_after_app in H. cbn [fold_left] in H.
  destruct (phase_after P B pre) as [ph0|] eqn:E0;
    [|now rewrite out_of_order_stays in H].
  destruct (step P B ph0 e) as [ph1|] eqn:E1;
    [|now rewrite out_of_order_stays in H].
  exists ph0, ph1. rewrite phase_after_snoc, E0. auto.
Qed.

(** A phase other than the first has been entered by the last event. *)
Lemma phase_after_last tr ph :
  phase_after P B tr = Some ph ->
  (tr = [] /\ ph = AtStart) \/
  exists pre e ph0,
    tr = pre ++ [e] /\ phase_after P B pre = Some ph0 /\
    step P B ph0 e = Some ph.
Proof.
  destruct tr as [|e tr _] using rev_ind.
  - intros H. injection H as <-. left. split; reflexivity.
  - intros H. right. rewrite phase_after_snoc in H.
    destruct (phase_after P B tr) as [ph0|] eqn:E0; [|discriminate H].
    exists tr, e, ph0. auto.
Qed.

Ltac step_cases ph0 e H :=
  destruct ph0 as [| | |?|[|]|[?|]| |?|[|] ?|? ?|?| |];
  destruct e; cbn [step] in H; try discriminate H.

Lemma step_into_Peeked ph0 e r :
  step P B ph0 e = Some (Peeked r) -> e = EvPeek r.
Proof.
  intros H. step_cases ph0 e H;
    repeat match type of H with
           | context [if ?c then _ else _] =>
               destruct c eqn:?; try discriminate H
           end;
    try (injection H as ->; reflexivity); try discriminate H.
Qed.

Lemma step_into_Updated ph0 e q t :
  step P B ph0 e = Some (Updated q t) -> exists dt, e = EvUpdate dt q.
Proof.
  intros H. step_cases ph0 e H;
    repeat match type of H with
           | context [if ?c then _ else _] =>
               destruct c eqn:?; try discriminate H
           end;
    try (injection H as -> ->; eexists; reflexivity); try discriminate H.
Qed.

Lemma step_into_FocusTested ph0 e b t :
  step P B ph0 e = Some (FocusTested b t) -> DEBUG B = false.
Proof.
  intros H. step_cases ph0 e H;
    repeat match type of H with
           | context [if ?c then _ else _] =>
               destruct c eqn:?; try discriminate H
           end;
    try discriminate H; try reflexivity.
Qed.

Lemma step_into_FirstReading ph0 e t :
  step P B ph0 e = Some (FirstReading t) ->
  ph0 = WindowCreated /\ e = EvCounter t.
Proof.
  intros H. step_cases ph0 e H;
    repeat match type of H with
           | context [if ?c then _ else _] =>
               destruct c eqn:?; try discriminate H
           end;
    try discriminate H.
  injection H as ->. split; reflexivity.
Qed.

Lemma step_into_WindowCreated ph0 e :
  step P B ph0 e = Some WindowCreated ->
  ph0 = AtStart /\ exists w h hWnd, e = EvCreateWindow w h hWnd.
Proof.
  intros H. step_cases ph0 e H;
    repeat match type of H with
           | context [if ?c then _ else _] =>
               destruct c eqn:?; try discriminate H
           end;
    try discriminate H.
  split; [reflexivity|]. eexists. eexists. eexists. reflexivity.
Qed.

Lemma step_into_AtStart ph0 e : step P B ph0 e <> Some AtStart.
Proof.
  intros H. step_cases ph0 e H;
    repeat match type of H with
           | context [if ?c then _ else _] =>
               destruct c eqn:?; try discriminate H
           end;
    try discriminate H.
Qed.

Lemma step_Dispatch ph0 m ph :
  step P B ph0 (EvDispatch m) = Some ph ->
  ph0 = Peeked (Some m) /\ dispatchable P m = true.
Proof.
  intros H.
  destruct ph0 as [| | |?|[|]|[m0|]| |?|[|] ?|? ?|?| |];
    cbn [step] in H; try discriminate H.
  destruct (dispatchable P m0) eqn:Ed; cbn [andb] in H; [|discriminate H].
  destruct (MSG_eqb m0 m) eqn:Em; [|discriminate H].
  apply MSG_eqb_eq in Em. subst m0. split; [reflexivity|exact Ed].
Qed.

Lemma step_after_dispatchable m e ph :
  dispatchable P m = true ->
  step P B (Peeked (Some m)) e = Some ph -> e = EvDispatch m.
Proof.
  intros Hd H. pose proof Hd as Hd'. unfold dispatchable in Hd'.
  apply andb_true_iff in Hd' as [Hq _]. apply negb_true_iff in Hq.
  destruct e; cbn [step] in H; try discriminate H.
  - rewrite Hd in H. cbn [andb] in H.
    destruct (MSG_eqb m m0) eqn:Em; [|discriminate H].
    apply MSG_eqb_eq in Em. now subst.
  - rewrite Hd, orb_true_r in H. discriminate H.
  - rewrite Hq in H. discriminate H.
Qed.

Lemma step_Focus ph0 b ph :
  step P B ph0 (EvFocus b) = Some ph -> DEBUG B = false.
Proof.
  intros H.
  destruct ph0 as [| | |?|[|]|[m0|]| |?|[|] ?|? ?|?| |];
    cbn [step] in H; try discriminate H.
  destruct (DEBUG B); [discriminate H|reflexivity].
Qed.

Lemma step_Stamp ph0 t ph :
  step P B ph0 (EvStamp t) = Some ph ->
  ph0 = FirstReading t \/ ph0 = FocusTested false t \/
  exists q, ph0 = Updated q t.
Proof.
  intros H.
  destruct ph0 as [| | |t0|[|]|[m0|]| |?|[|] t0|q t0|?| |];
    cbn [step] in H; try discriminate H;
    destruct (Z.eqb_spec t0 t) as [->|]; try discriminate H; eauto.
Qed.

End OrderFacts.

(** X17: A message reaches [DispatchMessage] only as the message just
    retrieved by [PeekMessage], and only when it is not [WM_QUIT] and was not
    consumed by [TranslateAccelerator]; and every such message retrieved is
    dispatched before anything else happens. *)
Theorem messages_are_dispatched_as_retrieved
    {G : Type} (P : Platform) (user : Game G) (B : Build)
    (w : World G) (frames spin : nat) :
  let tr := trace (final (HandleWindows P user B frames spin (mkMachine w []))) in
  (forall pre m post,
     tr = pre ++ EvDispatch m :: post ->
     dispatchable P m = true /\ exists pre', pre = pre' ++ [EvPeek (Some m)]) /\
  (forall pre m post,
     tr = pre ++ EvPeek (Some m) :: post ->
     dispatchable P m = true ->
     exists post', post = EvDispatch m :: post').
Proof.
  intros tr.
  pose proof (HandleWindows_order P user B frames spin (mkMachine w [])
                eq_refl) as H.
  assert (Hend : exists ph,
             phase_after P B tr = Some ph /\
             (ready_to_poll P ph = true \/
              match ph with Peeked _ => False | _ => True end)).
  { subst tr.
    destruct (HandleWindows P user B frames spin (mkMachine w []))
      as [ret m'|msg m'|m'|m']; cbn [final].
    - destruct H as ([H|H] & _); eexists; (split; [exact H|right; exact I]).
    - destruct H as (ph & H1 & H2). exists ph. split; [exact H1|].
      destruct ph; try discriminate H2; auto.
    - destruct H as (ph & H1 & H2). exists ph. split; [exact H1|].
      destruct ph; try discriminate H2; auto.
    - destruct H as (ph & H1 & H2). exists ph. split; [exact H1|].
      destruct ph; try discriminate H2; auto. }
  clearbody tr. clear H. destruct Hend as (ph & Hph & Hend). split.
  - intros pre m post E. rewrite E in Hph.
    apply phase_after_split in Hph as (ph0 & ph1 & H0 & H1 & _).
    apply step_Dispatch in H1 as [-> Hd]. split; [exact Hd|].
    apply phase_after_last in H0 as [[_ H0]|(pre' & e & ph' & -> & _ & H0)];
      [discriminate H0|].
    apply step_into_Peeked in H0. subst e. eauto.
  - intros pre m post E Hd. rewrite E in Hph.
    pose proof (phase_after_split P B pre _ post ph Hph)
      as (ph0 & ph1 & H0 & H1 & H2).
    assert (E1 : ph1 = Peeked (Some m)).
    { destruct ph0 as [| | |?|[|]|[?|]| |?|[|] ?|? ?|?| |];
        cbn [step] in H1; try discriminate H1.
      now injection H1 as <-. }
    subst ph1.
    destruct post as [|e post'].
    + rewrite Hph in H2. injection H2 as ->.
      destruct Hend as [Hr|[]]. cbn [ready_to_poll] in Hr.
      rewrite Hd, orb_true_r in Hr. discriminate Hr.
    + replace (pre ++ EvPeek (Some m) :: e :: post')
        with ((pre ++ [EvPeek (Some m)]) ++ e :: post') in Hph
        by (now rewrite <- app_assoc).
      apply phase_after_split in Hph as (ph0' & ph1' & H0' & H1' & _).
      rewrite H2 in H0'. injection H0' as <-.
      apply (step_after_dispatchable P B m e ph1' Hd) in H1'. subst e. eauto.
Qed.

(** X18: In a debug build [GetFocus] is never called, and every pass that
    stores its timestamp has called [MainGameUpdate] right before: the only
    timestamp not preceded by an update is the one stored before the loop. *)
Theorem debug_build_updates_in_every_pass
    {G : Type} (P : Platform) (user : Game G) (B : Build)
    (w : World G) (frames spin : nat) :
  DEBUG B = true ->
  let tr := trace (final (HandleWindows P user B frames spin (mkMachine w []))) in
  (forall b, ~ In (EvFocus b) tr) /\
  (forall pre t post,
     tr = pre ++ EvStamp t :: post ->
     (exists w h hWnd, pre = [EvCreateWindow w h hWnd; EvCounter t]) \/
     (exists pre' dt q, pre = pre' ++ [EvUpdate dt q])).
Proof.
  intros ED tr.
  pose proof (HandleWindows_order P user B frames spin (mkMachine w [])
                eq_refl) as H.
  assert (Hend : exists ph, phase_after P B tr = Some ph).
  { subst tr.
    destruct (HandleWindows P user B frames spin (mkMachine w []))
      as [ret m'|msg m'|m'|m']; cbn [final].
    - destruct H as ([H|H] & _); eauto.
    - destruct H as (ph & H1 & _); eauto.
    - destruct H as (ph & H1 & _); eauto.
    - destruct H as (ph & H1 & _); eauto. }
  clearbody tr. clear H. destruct Hend as (ph & Hph). split.
  - intros b Hin. apply in_split in Hin as (pre & post & E).
    rewrite E in Hph.
    apply phase_after_split in Hph as (ph0 & ph1 & _ & H1 & _).
    apply step_Focus in H1. congruence.
  - intros pre t post E. rewrite E in Hph.
    apply phase_after_split in Hph as (ph0 & ph1 & H0 & H1 & _).
    apply step_Stamp in H1 as [->|[->|(q & ->)]].
    + left.
      apply phase_after_last in H0 as [[_ H0]|(pre1 & e1 & ph1' & -> & H0 & H1)];
        [discriminate H0|].
      apply step_into_FirstReading in H1 as [-> ->].
      apply phase_after_last in H0 as [[_ H0]|(pre2 & e2 & ph2 & -> & H0 & H1)];
        [discriminate H0|].
      apply step_into_WindowCreated in H1 as [-> (w0 & h0 & hw & ->)].
      apply phase_after_last in H0 as [[-> _]|(pre3 & e3 & ph3 & _ & _ & H1)].
      * exists w0, h0, hw. reflexivity.
      * now apply step_into_AtStart in H1.
    + apply phase_after_last in H0 as [[_ H0]|(pre1 & e1 & ph1' & _ & _ & H1)];
        [discriminate H0|].
      apply step_into_FocusTested in H1. congruence.
    + right.
      apply phase_after_last in H0 as [[_ H0]|(pre1 & e1 & ph1' & -> & _ & H1)];
        [discriminate H0|].
      apply step_into_Updated in H1 as (dt & ->). eauto.
Qed.

Lemma debug_build_updates_in_every_pass_witness :
  let tr := trace (final (HandleWindows platform_unfocused game_runs_on
                            (mkBuild true 60) 2 1
                            (mkMachine world_running []))) in
  (forall b, ~ In (EvFocus b) tr) /\
  (forall pre t post,
     tr = pre ++ EvStamp t :: post ->
     (exists w h hWnd, pre = [EvCreateWindow w h hWnd; EvCounter t]) \/
     (exists pre' dt q, pre = pre' ++ [EvUpdate dt q])).
Proof.
  apply (debug_build_updates_in_every_pass platform_unfocused game_runs_on
           (mkBuild true 60) world_running 2 1).
  reflexivity.
Defined.

(** ** Window creation and the wait *)

(** X19: When the window cannot be created, [HandleWindows] returns [FALSE] at
    once: the client area asked for is the buffer size times the scale, no
    message is retrieved, neither the update nor the exit callback is called,
    GDI+ is not shut down, and the world is as before. *)
Theorem HandleWindows_without_window_returns_FALSE
    {G : Type} (P : Platform) (user : Game G) (B : Build)
    (m : @Machine G) (d : PixelData) (frames spin : nat) :
  let g := globals (world m) in
  let w := int32 (width d * m_scale g) in
  let h := int32 (height d * m_scale g) in
  m_bCreated g = true ->
  pixelObjs (world m) !! m_pPlayBuffer g = Some d ->
  CreateWindowW P w h = 0 ->
  HandleWindows P user B frames spin m
  = Done 0 (mkMachine (world m) (trace m ++ [EvCreateWindow w h 0])).
Proof.
  intros g w h Hc Hd Hw. unfold HandleWindows.
  unfold bind at 1. unfold lift at 1.
  rewrite (ASSERT_WINDOW_created (world m) Hc). cbn [world trace].
  unfold bind at 1. unfold get at 1.
  unfold bind at 1. unfold lift at 1. cbn [world trace].
  unfold deref_pixel. unfold bind at 1. unfold get at 1.
  fold g. rewrite Hd. unfold ret at 1. cbn [world trace].
  fold w h. rewrite Hw.
  unfold bind, emit, modify, ret. cbn [world trace]. reflexivity.
Qed.

Lemma HandleWindows_without_window_returns_FALSE_witness :
  HandleWindows platform_no_window game_runs_on (mkBuild false 60) 3 3
    (mkMachine world_running [])
  = Done 0 (mkMachine world_running [EvCreateWindow 640 480 0]).
Proof.
  apply (HandleWindows_without_window_returns_FALSE platform_no_window
           game_runs_on (mkBuild false 60) (mkMachine world_running [])
           (mkPixelData 320 240 0) 3 3); reflexivity.
Defined.

(** X20: The wait ends at the first reading of the counter for which the
    milliseconds elapsed are not below the frame interval: if that is the
    reading number [k] and the bound of the model allows more than [k] polls,
    the wait returns after exactly [k + 1] readings, with [now] and
    [elapsedTime] set from the last of them and nothing else changed. *)
Theorem wait_ends_at_first_late_reading
    {G : Type} (P : Platform) (B : Build) (k : nat) :
  forall (spin : nat) (l : Locals) (m : @Machine G),
    (k < spin)%nat ->
    (forall i, (i < k)%nat -> too_early P B l (world m) i = true) ->
    too_early P B l (world m) k = false ->
    wait_for_frame P B spin l m
    = Done (set_now (reading P (world m) k) (elapsed_at P l (world m) k) l)
        (mkMachine
           (set_nCounter (nCounter (world m) + S k) (world m))
           (trace m
            ++ map (fun i => EvCounter (reading P (world m) i)) (seq 0 (S k)))).
Proof.
  induction k as [|k IH]; intros spin l m Hspin Hearly Hlate;
    (destruct spin as [|spin]; [lia|]).
  - cbn [wait_for_frame].
    unfold bind, lift, emit, modify, ret.
    unfold QueryPerformanceCounter at 1. unfold bind, get, modify, ret.
    cbn [trace world].
    unfold too_early, elapsed_at, reading in Hlate.
    rewrite Nat.add_0_r in Hlate. rewrite Hlate.
    unfold elapsed_at, reading. cbn [seq map].
    rewrite !Nat.add_0_r, Nat.add_1_r. reflexivity.
  - cbn [wait_for_frame].
    unfold bind at 1. unfold lift at 1.
    unfold QueryPerformanceCounter at 1. unfold bind, get, modify, ret.
    cbn [trace world].
    unfold emit, modify. cbn [trace world].
    pose proof (Hearly 0%nat ltac:(lia)) as H0.
    unfold too_early, elapsed_at, reading in H0.
    rewrite Nat.add_0_r in H0. rewrite H0.
    match goal with
    | |- wait_for_frame P B spin ?l1 ?m1 = _ =>
        rewrite (IH spin l1 m1)
    end.
    + cbn [world trace set_nCounter nCounter lastDrawTime frequency_ set_now].
      unfold elapsed_at, reading, set_now, set_nCounter.
      cbn [nCounter lastDrawTime frequency_ globals g_pGDIToken mouseObjs
           pixelObjs msgQueue quitPosted nPeek nFocus game elapsedTime now
           msg quit].
      replace (S (nCounter (world m)) + S k)%nat
        with (nCounter (world m) + S (S k))%nat by lia.
      replace (S (nCounter (world m)) + k)%nat
        with (nCounter (world m) + S k)%nat by lia.
      f_equal. f_equal.
      rewrite <- app_assoc. f_equal.
      change (seq 0 (S (S k))) with (0%nat :: seq 1 (S k)).
      rewrite <- seq_shift, map_cons, map_map, Nat.add_0_r.
      cbn [app]. f_equal.
      apply map_ext. intros i. f_equal. f_equal. f_equal. lia.
    + lia.
    + intros i Hi. pose proof (Hearly (S i) ltac:(lia)) as Hi'.
      unfold too_early, elapsed_at, reading in Hi' |- *.
      cbn [world nCounter set_nCounter lastDrawTime frequency_ set_now].
      replace (S (nCounter (world m)) + i)%nat
        with (nCounter (world m) + S i)%nat by lia.
      exact Hi'.
    + unfold too_early, elapsed_at, reading in Hlate |- *.
      cbn [world nCounter set_nCounter lastDrawTime frequency_ set_now].
      replace (S (nCounter (world m)) + k)%nat
        with (nCounter (world m) + S k)%nat by lia.
      exact Hlate.
Qed.

Lemma wait_ends_at_first_late_reading_witness :
  wait_for_frame platform_steady (mkBuild false 60) 5 locals_start
    (mkMachine world_running [])
  = Done (set_now 50000
            (elapsed_at platform_steady locals_start world_running 1)
            locals_start)
      (mkMachine (set_nCounter 2 world_running) [EvCounter 0; EvCounter 50000]).
Proof.
  apply (wait_ends_at_first_late_reading platform_steady (mkBuild false 60) 1
           5 locals_start (mkMachine world_running [])).
  - lia.
  - intros i Hi. assert (i = 0%nat) as -> by lia. vm_compute. reflexivity.
  - vm_compute. reflexivity.
Defined.

(** ** The GDI+ token *)

Section Token.

Context {G : Type}.
Variable P : Platform.
Variable user : Game G.
Variable B : Build.
Variable tok : Z.
Hypothesis user_leaves_token : leaves_token user.

Local Notation "'keeps'" := (@keeps_token_inv G _ tok).

Lemma keeps_token_bind {A C} (c : Op (@Machine G) A)
      (k : A -> Op (@Machine G) C) :
  keeps_token_inv tok c -> (forall a, keeps_token_inv tok (k a)) ->
  keeps_token_inv tok (bind c k).
Proof.
  intros Hc Hk m Hm. rewrite final_bind. specialize (Hc m Hm).
  destruct (c m) as [a m1| | |]; cbn [final] in Hc; try exact Hc.
  apply Hk. exact Hc.
Qed.

Lemma keeps_token_ret {A} (a : A) : keeps_token_inv tok (@ret (@Machine G) A a).
Proof. intros m Hm. exact Hm. Qed.

Lemma keeps_token_get {A} (k : @Machine G -> Op (@Machine G) A) :
  (forall m0, keeps_token_inv tok (k m0)) ->
  keeps_token_inv tok (bind get k).
Proof. intros Hk m Hm. unfold bind, get. apply (Hk m m Hm). Qed.

Lemma keeps_token_spinning {A} :
  keeps_token_inv tok (@spinning (@Machine G) A).
Proof. intros m Hm. exact Hm. Qed.

Lemma keeps_token_emit (e : Event) :
  is_shutdown e = false -> keeps_token_inv tok (@emit G e).
Proof.
  intros He m (H1 & H2). unfold emit, modify. cbn [final world trace].
  split; [exact H1|].
  intros t Hin. apply in_app_or in Hin as [Hin|[E|[]]].
  - apply H2. exact Hin.
  - rewrite E in He. discriminate He.
Qed.

Lemma keeps_token_lift {A} (c : Op (World G) A) :
  (forall w, g_pGDIToken (final (c w)) = g_pGDIToken w) ->
  keeps_token_inv tok (lift c).
Proof.
  intros Hc m (H1 & H2). unfold lift. specialize (Hc (world m)).
  revert Hc.
  destruct (c (world m)); cbn [final world trace]; intros Hc.
  all: (split; cbn [world trace]; [congruence|exact H2]).
Qed.

Lemma PeekMessage_keeps_token (w : World G) :
  g_pGDIToken (final (PeekMessage P w)) = g_pGDIToken w.
Proof.
  unfold PeekMessage. unfold_op.
  destruct (msgQueue w ++ posted_at P (nPeek w)); [|reflexivity].
  destruct (quitPosted w); reflexivity.
Qed.

Lemma WndProc_keeps_token (w : World G) (hWnd message wParam lParam : Z) :
  g_pGDIToken (final (WndProc P hWnd message wParam lParam w)) = g_pGDIToken w.
Proof.
  unfold WndProc, ASSERT_WINDOW, PostQuitMessage, update_mouse, deref_mouse,
    deref_pixel, int_div.
  unfold_op.
  destruct (m_bCreated (globals w)); [|reflexivity].
  repeat
    match goal with
    | |- context [if ?c then _ else _] => destruct c
    | |- context [match ?o with Some _ => _ | None => _ end] => destruct o
    end;
    try reflexivity.
Qed.

Lemma DispatchMessage_keeps_token (w : World G) (ms : Win32.MSG) :
  g_pGDIToken (final (DispatchMessage P ms w)) = g_pGDIToken w.
Proof.
  unfold DispatchMessage. unfold bind at 1. unfold get at 1.
  destruct (_ && _); [apply WndProc_keeps_token|reflexivity].
Qed.

Lemma handle_messages_keeps_token l :
  keeps_token_inv tok (@handle_messages G P l).
Proof.
  unfold handle_messages.
  apply keeps_token_bind.
  { apply keeps_token_lift. apply PeekMessage_keeps_token. }
  intros r. apply keeps_token_bind; [now apply keeps_token_emit|].
  intros _. destruct r as [ms|]; [|apply keeps_token_ret].
  destruct (_ =? _); [apply keeps_token_ret|].
  destruct (accelerator_hit P ms); [apply keeps_token_ret|].
  apply keeps_token_bind; [now apply keeps_token_emit|].
  intros _. apply keeps_token_bind.
  { apply keeps_token_lift. intros w. apply DispatchMessage_keeps_token. }
  intros _. apply keeps_token_ret.
Qed.

Lemma wait_for_frame_keeps_token spin : forall l,
  keeps_token_inv tok (@wait_for_frame G P B spin l).
Proof.
  induction spin as [|k IH]; intros l; cbn [wait_for_frame].
  - apply keeps_token_spinning.
  - apply keeps_token_bind.
    { apply keeps_token_lift. intros w. reflexivity. }
    intros t. apply keeps_token_bind; [now apply keeps_token_emit|].
    intros _. destruct (IEEE.dlt _ _); [apply IH|apply keeps_token_ret].
Qed.

Lemma call_update_keeps_token l :
  keeps_token_inv tok (@call_update G user l).
Proof.
  intros m (H1 & H2).
  unfold call_update, bind, get, emit, modify, ret.
  cbn [final world trace].
  destruct user_leaves_token as (_ & Hu & _). split; cbn [world trace].
  - rewrite Hu. exact H1.
  - intros t Hin. apply in_app_or in Hin as [Hin|[E|[]]].
    + apply H2. exact Hin.
    + discriminate E.
Qed.

Lemma update_if_focused_keeps_token l :
  keeps_token_inv tok (@update_if_focused G P user B l).
Proof.
  unfold update_if_focused.
  destruct (DEBUG B); [apply call_update_keeps_token|].
  apply keeps_token_bind.
  { apply keeps_token_lift. intros w. reflexivity. }
  intros h. apply keeps_token_get. intros m0.
  apply keeps_token_bind; [now apply keeps_token_emit|].
  intros _. destruct (_ =? _);
    [apply call_update_keeps_token|apply keeps_token_ret].
Qed.

Lemma frame_keeps_token spin l :
  keeps_token_inv tok (@frame G P user B spin l).
Proof.
  unfold frame.
  apply keeps_token_bind; [apply handle_messages_keeps_token|].
  intros [[|] l1]; [|apply keeps_token_ret].
  apply keeps_token_bind; [apply wait_for_frame_keeps_token|].
  intros l2. apply keeps_token_bind; [apply update_if_focused_keeps_token|].
  intros l3. apply keeps_token_bind; [now apply keeps_token_emit|].
  intros _. apply keeps_token_bind; [now apply keeps_token_emit|].
  intros _. apply keeps_token_ret.
Qed.

Lemma frame_loop_keeps_token spin frames : forall l,
  keeps_token_inv tok (@frame_loop G P user B frames spin l).
Proof.
  induction frames as [|n IH]; intros l; cbn [frame_loop].
  - destruct (quit l); [apply keeps_token_ret|apply keeps_token_spinning].
  - destruct (quit l); [apply keeps_token_ret|].
    apply keeps_token_bind; [apply frame_keeps_token|].
    intros [[|] l1]; [apply IH|apply keeps_token_ret].
Qed.

Lemma shut_down_keeps_token l :
  keeps_token_inv tok (@shut_down G user l).
Proof.
  intros m (H1 & H2).
  unfold shut_down, bind, get, emit, modify, ret, PLAY_ASSERT, PLAY_ASSERT_MSG.
  cbn [world trace].
  destruct user_leaves_token as (_ & _ & He).
  assert (Ht : g_pGDIToken (snd (MainGameExit user (world m))) = tok)
    by (rewrite He; exact H1).
  assert (H3 : forall t,
             In (EvGdiplusShutdown t)
                (trace m ++ [EvExit (fst (MainGameExit user (world m)))]) ->
             t = tok /\ t <> 0).
  { intros t Hin. apply in_app_or in Hin as [Hin|[E|[]]].
    - apply H2. exact Hin.
    - discriminate E. }
  rewrite Ht.
  destruct (Z.eqb_spec tok 0) as [E0|N0]; cbn [negb final world trace].
  - split; cbn [world trace]; [exact Ht|exact H3].
  - split; cbn [world trace]; [exact Ht|].
    intros t Hin. apply in_app_or in Hin as [Hin|[E|[]]].
    + apply H3. exact Hin.
    + injection E as <-. split; [reflexivity|exact N0].
Qed.

Lemma HandleWindows_keeps_token frames spin :
  keeps_token_inv tok (@HandleWindows G P user B frames spin).
Proof.
  unfold HandleWindows.
  apply keeps_token_bind.
  { apply keeps_token_lift. intros w. unfold ASSERT_WINDOW. unfold_op.
    destruct (m_bCreated (globals w)); reflexivity. }
  intros _. apply keeps_token_get. intros m0. cbv zeta.
  apply keeps_token_bind.
  { apply keeps_token_lift. intros w. unfold deref_pixel. unfold_op.
    destruct (pixelObjs w !! _); reflexivity. }
  intros d. apply keeps_token_bind; [now apply keeps_token_emit|].
  intros _. destruct (_ =? 0); [apply keeps_token_ret|].
  apply keeps_token_bind.
  { apply keeps_token_lift. intros w. reflexivity. }
  intros _. apply keeps_token_bind.
  { apply keeps_token_lift. intros w. reflexivity. }
  intros t0. apply keeps_token_bind; [now apply keeps_token_emit|].
  intros _. apply keeps_token_bind; [now apply keeps_token_emit|].
  intros _. apply keeps_token_bind.
  { apply keeps_token_lift. intros w. reflexivity. }
  intros freq. apply keeps_token_bind; [apply frame_loop_keeps_token|].
  intros l. apply shut_down_keeps_token.
Qed.

End Token.

(** X21: When the callbacks of the game leave [g_pGDIToken] alone,
    [GdiplusShutdown] is only ever called with the token [GdiplusStartup]
    returned to [WinMain]. *)
Theorem GdiplusShutdown_gets_the_token_of_GdiplusStartup
    {G : Type} (P : Platform) (user : Game G) (B : Build)
    (w : World G) (frames spin : nat) (t : Z) :
  leaves_token user ->
  In (EvGdiplusShutdown t)
     (trace (final (WinMain P user B frames spin (mkMachine w [])))) ->
  t = snd (GdiplusStartup P).
Proof.
  intros Hu Hin.
  set (tok := snd (GdiplusStartup P)) in *.
  unfold WinMain in Hin. fold tok in Hin.
  unfold PLAY_ASSERT, PLAY_ASSERT_MSG in Hin.
  unfold bind at 1 in Hin.
  destruct (_ =? _); [|destruct Hin].
  unfold bind at 1 in Hin. unfold lift at 1, modify at 1 in Hin.
  cbn [world trace] in Hin.
  unfold bind at 1 in Hin. unfold lift at 1, modify at 1 in Hin.
  cbn [world trace] in Hin.
  match type of Hin with
  | In _ (trace (final (HandleWindows _ _ _ _ _ ?m0))) =>
      pose proof (HandleWindows_keeps_token P user B tok Hu frames spin m0)
        as H
  end.
  destruct H as (_ & H).
  - split.
    + cbn [world]. destruct Hu as (He & _). rewrite He. reflexivity.
    + intros t' [].
  - apply (H t Hin).
Qed.

Lemma GdiplusShutdown_gets_the_token_of_GdiplusStartup_witness :
  In (EvGdiplusShutdown 1)
     (trace (final (WinMain platform_steady game_creates_manager
                      (mkBuild false 60) 1 1 (mkMachine world_boot [])))) /\
  1 = snd (GdiplusStartup platform_steady).
Proof.
  assert (Hin : In (EvGdiplusShutdown 1)
                   (trace (final (WinMain platform_steady game_creates_manager
                                    (mkBuild false 60) 1 1
                                    (mkMachine world_boot [])))))
    by (vm_compute; tauto).
  split; [exact Hin|].
  apply (GdiplusShutdown_gets_the_token_of_GdiplusStartup platform_steady
           game_creates_manager (mkBuild false 60) world_boot 1 1 1);
    [|exact Hin].
  repeat split; intros; reflexivity.
Defined.

(** ** Signs of the values the timing computes *)

Lemma int64_small (z : Z) : - 2 ^ 63 <= z < 2 ^ 63 -> int64 z = z.
Proof.
  intros Hz. unfold int64, wrap_signed.
  replace (64 - 1) with 63 by reflexivity.
  change (2 ^ 64) with (2 * 2 ^ 63).
  rewrite Z.mod_small; lia.
Qed.

Section Signs.

Variables prec emax : Z.

Lemma shr_1_nonneg (mrs : shr_record) :
  0 <= shr_m mrs -> 0 <= shr_m (shr_1 mrs).
Proof.
  destruct mrs as [m r s]. destruct m as [|[p|p|]|p]; simpl; lia.
Qed.

Lemma iter_shr_1_nonneg (n : positive) :
  forall mrs, 0 <= shr_m mrs ->
              0 <= shr_m (SpecFloat.iter_pos shr_1 n mrs).
Proof.
  induction n as [n IH|n IH|]; intros mrs H; simpl.
  - apply IH, IH, shr_1_nonneg, H.
  - apply IH, IH, H.
  - apply shr_1_nonneg, H.
Qed.

Lemma shr_fexp_nonneg (m e : Z) (l : location) :
  0 <= m -> 0 <= shr_m (fst (shr_fexp prec emax m e l)).
Proof.
  intros H. unfold shr_fexp, shr.
  assert (H0 : 0 <= shr_m (shr_record_of_loc m l))
    by (destruct l as [|[]]; exact H).
  destruct (fexp prec emax (Zdigits2 m + e) - e); cbn [fst]; try exact H0.
  apply iter_shr_1_nonneg, H0.
Qed.

Lemma round_nearest_even_nonneg (m : Z) (l : location) :
  0 <= m -> 0 <= round_nearest_even m l.
Proof.
  intros H. destruct l as [|[]]; simpl; try lia.
  destruct (Z.even m); lia.
Qed.

(** Rounding a mantissa that is not negative gives a number of the sign
    asked for. *)
Lemma binary_round_aux_sign (sx : bool) (mx ex : Z) (lx : location) :
  0 <= mx -> has_sign sx (binary_round_aux prec emax sx mx ex lx).
Proof.
  intros H. unfold binary_round_aux.
  pose proof (shr_fexp_nonneg mx ex lx H) as H1.
  destruct (shr_fexp prec emax mx ex lx) as [mrs' e']. cbn [fst] in H1.
  pose proof (shr_fexp_nonneg _ e' loc_Exact
                (round_nearest_even_nonneg _ (loc_of_shr_record mrs') H1))
    as H2.
  destruct (shr_fexp prec emax _ e' loc_Exact) as [mrs'' e'']. cbn [fst] in H2.
  destruct (shr_m mrs'') as [|m|m]; [reflexivity| |lia].
  destruct (e'' <=? emax - prec); reflexivity.
Qed.

Lemma binary_round_sign (s : bool) (m : positive) (e : Z) :
  has_sign s (binary_round prec emax s m e).
Proof.
  unfold binary_round. destruct (shl_align _ _ _) as [mz ez].
  apply binary_round_aux_sign. lia.
Qed.

Lemma binary_normalize_sign (z : Z) :
  has_sign (z <? 0) (binary_normalize prec emax z 0 false).
Proof.
  destruct z as [|m|m]; [reflexivity| |]; simpl binary_normalize;
    apply binary_round_sign.
Qed.

Lemma SFmul_sign (x y : spec_float) (sx sy : bool) :
  has_sign sx x -> has_sign sy y ->
  match x, y with
  | S754_zero _, S754_infinity _ | S754_infinity _, S754_zero _ => False
  | _, _ => True
  end ->
  has_sign (xorb sx sy) (SFmul prec emax x y).
Proof.
  destruct x as [s1|s1| |s1 m1 e1], y as [s2|s2| |s2 m2 e2];
    cbn [has_sign SFmul]; intros Hx Hy Hd;
    try contradiction; subst; try reflexivity.
  apply binary_round_aux_sign. lia.
Qed.

Lemma SFdiv_core_nonneg (m1 m2 : positive) (e1 e2 : Z) :
  0 <= fst (fst (SFdiv_core_binary prec emax (Zpos m1) e1 (Zpos m2) e2)).
Proof.
  unfold SFdiv_core_binary. cbv zeta.
  match goal with
  | |- context [Z.div_eucl ?a ?b] =>
      assert (Ha : 0 <= a);
      [|pose proof (Z.div_pos a b Ha ltac:(lia)) as Hq;
        unfold Z.div in Hq; destruct (Z.div_eucl a b) as [q r]]
  end.
  - destruct (e1 - e2 - _) as [|s|s]; try lia.
    apply Z.shiftl_nonneg. lia.
  - exact Hq.
Qed.

Lemma SFdiv_sign (x y : spec_float) (sx sy : bool) :
  has_sign sx x -> has_sign sy y ->
  match x, y with
  | S754_zero _, S754_zero _ | S754_infinity _, S754_infinity _ => False
  | _, _ => True
  end ->
  has_sign (xorb sx sy) (SFdiv prec emax x y).
Proof.
  destruct x as [s1|s1| |s1 m1 e1], y as [s2|s2| |s2 m2 e2];
    cbn [has_sign SFdiv]; intros Hx Hy Hd;
    try contradiction; subst; try reflexivity.
  pose proof (SFdiv_core_nonneg m1 m2 e1 e2) as H.
  destruct (SFdiv_core_binary prec emax (Zpos m1) e1 (Zpos m2) e2)
    as [[mz ez] lz].
  apply binary_round_aux_sign. exact H.
Qed.

End Signs.

Lemma has_sign_not_negative (f : spec_float) :
  has_sign false f -> not_negative f = true.
Proof. destruct f; simpl; intros H; subst; try reflexivity. destruct H. Qed.

(** A value that is a number and is not below one that is not negative is
    not negative. *)
Lemma not_below_not_negative (x y : spec_float) (s : bool) :
  has_sign s x -> not_negative y = true -> SFltb x y = false ->
  not_negative x = true.
Proof.
  destruct x as [s1|s1| |s1 m1 e1], y as [s2|s2| |s2 m2 e2];
    cbn [has_sign not_negative]; intros Hx Hy Hlt;
    try reflexivity; try contradiction; try discriminate Hy;
    destruct s1; try reflexivity;
    try (destruct s2; try discriminate Hy);
    try discriminate Hlt.
Qed.

(** Positive integers below 2^53 are finite binary64 values. *)
Lemma double_of_int_finite (z : Z) :
  0 < z < 2 ^ 53 ->
  exists m e, IEEE.double_of_int z = S754_finite false m e.
Proof.
  intros Hz. destruct z as [|p|p]; try lia.
  unfold IEEE.double_of_int, IEEE.prec64, IEEE.emax64, binary_normalize,
    binary_round.
  pose proof (digits2_pos_small p 53 ltac:(lia) ltac:(lia)) as Hd.
  set (d := Zpos (digits2_pos p)) in *.
  assert (Hd1 : 1 <= d) by (unfold d; lia).
  assert (Hf : fexp 53 1024 (d + 0) = d - 53) by (unfold fexp, emin; lia).
  rewrite Hf. unfold shl_align.
  assert (Hcanon : forall (mz : positive) (e : Z),
             Zpos (digits2_pos mz) = 53 -> -1074 <= e <= 971 ->
             binary_round_aux 53 1024 false (Zpos mz) e loc_Exact
             = S754_finite false mz e).
  { intros mz e Hm He. unfold binary_round_aux.
    assert (Hs : shr_fexp 53 1024 (Zpos mz) e loc_Exact
                 = (Build_shr_record (Zpos mz) false false, e)).
    { unfold shr_fexp, Zdigits2. rewrite Hm.
      assert (E : fexp 53 1024 (53 + e) - e = 0) by (unfold fexp, emin; lia).
      rewrite E. reflexivity. }
    rewrite Hs. simpl shr_m. simpl loc_of_shr_record.
    simpl round_nearest_even. rewrite Hs. simpl shr_m.
    destruct (Z.leb_spec e (1024 - 53)); [reflexivity|lia]. }
  destruct (d - 53 - 0) as [|j|j] eqn:Ej.
  - eexists. eexists. apply Hcanon; [fold d; lia|lia].
  - lia.
  - eexists. eexists. apply Hcanon; [|lia].
    rewrite digits2_pos_iter_xO. fold d. lia.
Qed.

(** With a frequency between 1 and 2^53 the milliseconds are a number, of
    the sign of the difference of the two readings. *)
Lemma milliseconds_sign (later earlier freq : Z) :
  0 < freq < 2 ^ 53 ->
  has_sign (int64 (later - earlier) <? 0) (milliseconds later earlier freq).
Proof.
  intros Hf. unfold milliseconds, IEEE.ddiv, IEEE.dmul.
  destruct (double_of_int_finite freq Hf) as (mf & ef & ->).
  destruct (double_of_int_finite 1000 ltac:(lia)) as (mk & ek & ->).
  set (s := int64 (later - earlier) <? 0).
  pose proof (binary_normalize_sign IEEE.prec64 IEEE.emax64
                (int64 (later - earlier))) as Hx.
  fold s in Hx. fold (IEEE.double_of_int (int64 (later - earlier))) in Hx.
  pose proof (SFmul_sign IEEE.prec64 IEEE.emax64 _ (S754_finite false mk ek)
                s false Hx eq_refl) as Hm.
  rewrite xorb_false_r in Hm.
  assert (Hm' : has_sign s
                  (SFmul IEEE.prec64 IEEE.emax64
                     (IEEE.double_of_int (int64 (later - earlier)))
                     (S754_finite false mk ek))).
  { apply Hm. destruct (IEEE.double_of_int _); exact I. }
  pose proof (SFdiv_sign IEEE.prec64 IEEE.emax64 _ (S754_finite false mf ef)
                s false Hm' eq_refl) as Hd.
  rewrite xorb_false_r in Hd. apply Hd.
  destruct (SFmul _ _ _ _); exact I.
Qed.

Lemma double_of_float_sign (s : bool) (f : IEEE.float) :
  has_sign s f -> has_sign s (IEEE.double_of_float f).
Proof.
  destruct f as [s'|s'| |s' m e]; cbn [has_sign IEEE.double_of_float];
    intros H; try exact H.
  subst. apply binary_round_sign.
Qed.

Lemma float_of_double_sign (s : bool) (d : IEEE.double) :
  has_sign s d -> has_sign s (IEEE.float_of_double d).
Proof.
  destruct d as [s'|s'| |s' m e]; cbn [has_sign IEEE.float_of_double];
    intros H; try exact H.
  subst. apply binary_round_sign.
Qed.

Lemma float_of_int_1000 :
  IEEE.float_of_int 1000 = S754_finite false 16384000 (-14).
Proof. vm_compute. reflexivity. Qed.

(** [1000.0f / FRAMES_PER_SECOND] is a number that is not negative when
    [FRAMES_PER_SECOND] is not. *)
Lemma frame_interval_sign (B : Build) :
  0 <= FRAMES_PER_SECOND B -> has_sign false (frame_interval B).
Proof.
  intros H. unfold frame_interval, IEEE.fdiv. rewrite float_of_int_1000.
  pose proof (binary_normalize_sign IEEE.prec32 IEEE.emax32
                (FRAMES_PER_SECOND B)) as Hy.
  destruct (Z.ltb_spec (FRAMES_PER_SECOND B) 0) as [|_]; [lia|].
  fold (IEEE.float_of_int (FRAMES_PER_SECOND B)) in Hy.
  apply (SFdiv_sign IEEE.prec32 IEEE.emax32 (S754_finite false 16384000 (-14))
           _ false false eq_refl Hy).
  destruct (IEEE.float_of_int _); exact I.
Qed.

Lemma elapsed_seconds_not_negative (e : IEEE.double) :
  not_negative e = true -> not_negative (elapsed_seconds e) = true.
Proof.
  intros H. unfold elapsed_seconds, IEEE.fdiv. rewrite float_of_int_1000.
  destruct e as [s|s| |s m k]; cbn [not_negative] in H;
    try discriminate H.
  - reflexivity.
  - destruct s; [discriminate H|]. reflexivity.
  - destruct s; [discriminate H|].
    apply has_sign_not_negative.
    apply (SFdiv_sign IEEE.prec32 IEEE.emax32 _
             (S754_finite false 16384000 (-14)) false false).
    + apply float_of_double_sign. reflexivity.
    + reflexivity.
    + destruct (IEEE.float_of_double _); exact I.
Qed.

(** X22: With a performance frequency between 1 and 2^53 and a
    [FRAMES_PER_SECOND] that is not negative, the seconds handed to
    [MainGameUpdate] are always a number and never below zero. *)
Theorem update_seconds_are_not_negative
    {G : Type} (P : Platform) (user : Game G) (B : Build)
    (w : World G) (frames spin : nat) (dt : IEEE.float) (q : bool) :
  0 < int64 (frequency P) < 2 ^ 53 ->
  0 <= FRAMES_PER_SECOND B ->
  In (EvUpdate dt q)
     (trace (final (HandleWindows P user B frames spin (mkMachine w [])))) ->
  not_negative dt = true.
Proof.
  intros Hf HB Hin.
  assert (Ht : every_event
                 (update_timed (int64 (frequency P)) (frame_interval B))
                 (trace (final (HandleWindows P user B frames spin
                                  (mkMachine w []))))).
  { pose proof (HandleWindows_timed P user B frames spin (mkMachine w [])
                  eq_refl) as H.
    destruct (HandleWindows P user B frames spin (mkMachine w [])); exact H. }
  apply in_split in Hin as (pre & post & E).
  specialize (Ht pre _ post E). cbn [update_timed] in Ht.
  destruct Ht as (a & t & _ & _ & Hlate & ->).
  apply elapsed_seconds_not_negative.
  apply (not_below_not_negative _ (IEEE.double_of_float (frame_interval B)) _
           (milliseconds_sign t a (int64 (frequency P)) Hf)); [|exact Hlate].
  apply has_sign_not_negative, double_of_float_sign, frame_interval_sign, HB.
Qed.

Lemma update_seconds_are_not_negative_witness :
  In (EvUpdate (S754_finite false 8947848 (-29)) true)
     (trace (final (HandleWindows platform_steady game_quits_at_once
                      (mkBuild false 60) 1 1 (mkMachine world_running [])))) /\
  not_negative (S754_finite false 8947848 (-29)) = true.
Proof.
  assert (Hin : In (EvUpdate (S754_finite false 8947848 (-29)) true)
                   (trace (final (HandleWindows platform_steady
                                    game_quits_at_once (mkBuild false 60)
                                    1 1 (mkMachine world_running [])))))
    by (vm_compute; tauto).
  split; [exact Hin|].
  apply (update_seconds_are_not_negative platform_steady game_quits_at_once
           (mkBuild false 60) world_running 1 1 _ true);
    [vm_compute; split; reflexivity | simpl; lia | exact Hin].
Defined.

(** X23: [Present] reads the counter twice and returns the milliseconds
    between the two readings, changing nothing else; when the counter has not
    run backwards and the frequency is between 1 and 2^53, the value returned
    is a number and not below zero. *)
Theorem Present_returns_milliseconds_not_negative
    {G : Type} (P : Platform) (w : World G) (d : PixelData) :
  let before := counter_at P (nCounter w) in
  let after := counter_at P (S (nCounter w)) in
  m_bCreated (globals w) = true ->
  pixelObjs w !! m_pPlayBuffer (globals w) = Some d ->
  0 <= before <= after -> after < 2 ^ 63 ->
  0 < frequency P < 2 ^ 53 ->
  Present P w
  = Done (milliseconds after before (frequency P))
      (set_nCounter (S (S (nCounter w))) w) /\
  not_negative (milliseconds after before (frequency P)) = true.
Proof.
  intros before after Hc Hd Hba Ha Hf.
  assert (Ef : int64 (frequency P) = frequency P)
    by (apply int64_small; lia).
  split.
  - unfold Present.
    rewrite (bind_Done _ _ w tt w (ASSERT_WINDOW_created w Hc)).
    unfold QueryPerformanceCounter, QueryPerformanceFrequency, deref_pixel.
    unfold_op. cbn [globals pixelObjs nCounter set_nCounter].
    rewrite Hd. unfold set_nCounter.
    cbn [globals g_pGDIToken mouseObjs pixelObjs msgQueue quitPosted nCounter
         nPeek nFocus game].
    fold before after.
    rewrite Ef, !int64_small by lia.
    reflexivity.
  - apply has_sign_not_negative.
    pose proof (milliseconds_sign after before (frequency P) Hf) as H.
    rewrite int64_small in H by lia.
    destruct (Z.ltb_spec (after - before) 0) as [|_]; [lia|exact H].
Qed.

Lemma Present_returns_milliseconds_not_negative_witness :
  Present platform_steady world_running
  = Done (milliseconds 50000 0 3000000) (set_nCounter 2 world_running) /\
  not_negative (milliseconds 50000 0 3000000) = true.
Proof.
  apply (Present_returns_milliseconds_not_negative platform_steady
           world_running (mkPixelData 320 240 0));
    try reflexivity; simpl; lia.
Defined.

(** ** Loading twice, and saving without an encoder *)

(** X24: Two images loaded one after the other live in two different arrays:
    the second [LoadPNGImage] allocates an array of its own and leaves the
    pixels of the first as they are. *)
Theorem LoadPNGImage_twice_gives_distinct_arrays
    (codec : Codec) (path1 path2 : string) (dest1 dest2 : PixelData)
    (heap : gmap Z (list Pixel)) :
  let b1 := FromFile codec (mbstowcs codec path1) in
  let b2 := FromFile codec (mbstowcs codec path2) in
  decoded b1 -> decoded b2 ->
  exists p1 p2 heap1 heap2,
    p1 <> p2 /\
    LoadPNGImage codec path1 dest1 heap
    = Done (1, mkPixelData (bitmap_width b1) (bitmap_height b1) p1) heap1 /\
    LoadPNGImage codec path2 dest2 heap1
    = Done (1, mkPixelData (bitmap_width b2) (bitmap_height b2) p2) heap2 /\
    heap2 !! p1 = Some (scan0 b1) /\ heap2 !! p2 = Some (scan0 b2).
Proof.
  intros b1 b2 H1 H2.
  destruct (LoadPNGImage_decoded codec path1 dest1 heap H1)
    as (p1 & _ & _ & E1).
  destruct (LoadPNGImage_decoded codec path2 dest2 (<[p1 := scan0 b1]> heap) H2)
    as (p2 & _ & Hfresh & E2).
  assert (Hne : p1 <> p2).
  { intros ->. rewrite lookup_insert_eq in Hfresh. discriminate Hfresh. }
  exists p1, p2. eexists. eexists.
  split; [exact Hne|]. split; [exact E1|]. split; [exact E2|]. split.
  - rewrite lookup_insert_ne by congruence. apply lookup_insert_eq.
  - apply lookup_insert_eq.
Qed.

Lemma LoadPNGImage_twice_gives_distinct_arrays_witness :
  exists p1 p2 heap1 heap2,
    p1 <> p2 /\
    LoadPNGImage codec_two_pixels "bat_4.png" (mkPixelData 0 0 0) ∅
    = Done (1, mkPixelData 2 1 p1) heap1 /\
    LoadPNGImage codec_two_pixels "owl_2.png" (mkPixelData 0 0 0) heap1
    = Done (1, mkPixelData 2 1 p2) heap2 /\
    heap2 !! p1 = Some [7; 9] /\ heap2 !! p2 = Some [7; 9].
Proof.
  apply (LoadPNGImage_twice_gives_distinct_arrays codec_two_pixels
           "bat_4.png" "owl_2.png" (mkPixelData 0 0 0) (mkPixelData 0 0 0) ∅);
    unfold decoded; simpl; repeat split; try lia; reflexivity.
Defined.

Lemma GetEncoderClsid_minus_one (table : EncoderTable) (format : string)
      (c0 c : CLSID) :
  encoders_num table <= 2 ^ 31 ->
  GetEncoderClsid table format c0 = Done (-1) c -> c = c0.
Proof.
  intros Hmax. unfold GetEncoderClsid.
  destruct (encoders_size table =? 0).
  { unfold_op. intros H. now injection H as <-. }
  destruct (negb (malloc_succeeds table)).
  { unfold_op. intros H. now injection H as <-. }
  unfold bind.
  destruct (search_encoders _ _ _ _ _) as [r' c'| | |] eqn:E;
    try discriminate.
  apply search_encoders_sound in E; [|lia].
  destruct r' as [v|]; unfold_op; intros H.
  - injection H as Hv <-. destruct E as (k & info & Hk & -> & _). lia.
  - injection H as <-. exact E.
Qed.

(** X25: [SavePNGImage] does not look at what [GetEncoderClsid] returns: when
    that call finds no PNG encoder and returns -1, [Bitmap::Save] is called
    all the same, with the class identifier the local [pngClsid] held before
    it was ever assigned. *)
Theorem SavePNGImage_without_encoder_saves_with_unassigned_clsid
    {Disk : Type} (gdi : Imaging Disk) (fileAndPath : string)
    (sourceImage : PixelData) (s : Storage Disk) (sourcePixels : list Pixel)
    (c : CLSID) :
  let bitmap := new_Bitmap gdi (width sourceImage) (height sourceImage) in
  let n := Z.to_nat (int32 (width sourceImage * height sourceImage)) in
  encoders_num (encoder_table gdi) <= 2 ^ 31 ->
  GetEncoderClsid (encoder_table gdi) "image/png" (unassigned_clsid gdi)
  = Done (-1) c ->
  pixel_heap s !! pPixels sourceImage = Some sourcePixels ->
  (n <= length sourcePixels)%nat ->
  (n <= length (scan0 bitmap))%nat ->
  let saved :=
    Save gdi (path_to_wide gdi fileAndPath) (unassigned_clsid gdi)
      (mkBitmap (last_status bitmap) (bitmap_width bitmap)
         (bitmap_height bitmap)
         (take n sourcePixels ++ drop n (scan0 bitmap)))
      (disk s) in
  SavePNGImage gdi fileAndPath sourceImage s
  = Done (result_code (fst saved)) (mkStorage (pixel_heap s) (snd saved)).
Proof.
  intros bitmap n Hmax Henc Hsrc Hn Hb saved.
  pose proof (GetEncoderClsid_minus_one _ _ _ _ Hmax Henc) as ->.
  apply (SavePNGImage_runs gdi fileAndPath sourceImage s sourcePixels (-1)
           (unassigned_clsid gdi) Hsrc Hn Hb Henc).
Qed.

Lemma SavePNGImage_without_encoder_saves_with_unassigned_clsid_witness :
  SavePNGImage imaging_no_encoder "out.png" (mkPixelData 2 1 4)
    (mkStorage {[ 4 := [7; 9] ]} None)
  = Done 1 (mkStorage {[ 4 := [7; 9] ]}
              (Some (77, mkBitmap Win32.Ok 2 1 [7; 9]))).
Proof.
  rewrite (SavePNGImage_without_encoder_saves_with_unassigned_clsid
             imaging_no_encoder "out.png" (mkPixelData 2 1 4)
             (mkStorage {[ 4 := [7; 9] ]} None) [7; 9] 77);
    try reflexivity; vm_compute; (reflexivity || discriminate || lia).
Defined.

(** * The passes of the frame loop, one by one *)

Section Passes.

Import Win32 IEEE.

Context {G : Type}.
Variable P : Platform.
Variable user : Game G.
Variable B : Build.

Implicit Types (l : Locals) (m : @Machine G).

(** Neither the message handling nor the wait assigns [quit]. *)
Lemma handle_messages_keeps_quit l m f l0 m0 :
  handle_messages P l m = Done (f, l0) m0 -> quit l0 = quit l.
Proof.
  unfold handle_messages.
  unfold bind at 1. destruct (lift _ m) as [r m1| | |]; try discriminate.
  unfold bind at 1. unfold emit at 1, modify at 1.
  destruct r as [q|].
  - destruct (message q =? WM_QUIT).
    + unfold ret. intros H. injection H as _ <- _. reflexivity.
    + destruct (accelerator_hit P q).
      * unfold ret. intros H. injection H as _ <- _. reflexivity.
      * unfold bind at 1. unfold emit at 1, modify at 1.
        unfold bind at 1. destruct (lift _ _); try discriminate.
        unfold ret. intros H. injection H as _ <- _. reflexivity.
  - unfold ret. intros H. injection H as _ <- _. reflexivity.
Qed.

Lemma wait_for_frame_keeps_quit spin : forall l m l2 m2,
  wait_for_frame P B spin l m = Done l2 m2 -> quit l2 = quit l.
Proof.
  induction spin as [|k IH]; intros l m l2 m2; cbn [wait_for_frame].
  - discriminate.
  - unfold bind at 1. destruct (lift _ m) as [t m1| | |]; try discriminate.
    unfold bind at 1. unfold emit at 1, modify at 1.
    destruct (dlt _ _).
    + intros H. apply IH in H. exact H.
    + unfold ret. intros H. injection H as <- _. reflexivity.
Qed.


(** The call of line 155: the callback is applied to the elapsed seconds and
    to the world, and what it returns is assigned to [quit]. *)
Lemma call_update_runs l m :
  let dt := elapsed_seconds (elapsedTime l) in
  let r := MainGameUpdate user dt (world m) in
  call_update user l m
  = Done (set_quit (fst r) l)
         (mkMachine (snd r) (trace m ++ [EvUpdate dt (fst r)])).
Proof. reflexivity. Qed.

(** Lines 152 to 155 in a release build: [GetFocus] is called, its answer
    compared with [m_hWindow], and the callback called when they are
    equal. *)
Lemma update_if_focused_release l m :
  DEBUG B = false ->
  let w1 := set_nFocus (S (nFocus (world m))) (world m) in
  update_if_focused P user B l m
  = if focus_at P (nFocus (world m)) =? m_hWindow (globals (world m))
    then call_update user l (mkMachine w1 (trace m ++ [EvFocus true]))
    else Done l (mkMachine w1 (trace m ++ [EvFocus false])).
Proof.
  intros HB w1. unfold update_if_focused. rewrite HB.
  unfold bind at 1. unfold lift at 1. unfold GetFocus.
  unfold bind at 1. unfold get at 1. unfold bind at 1. unfold modify at 1.
  unfold ret at 1.
  unfold bind at 1. unfold get at 1. cbn [world trace].
  fold w1.
  replace (m_hWindow (globals w1)) with (m_hWindow (globals (world m)))
    by (unfold w1; destruct (world m); reflexivity).
  destruct (focus_at P (nFocus (world m)) =? m_hWindow (globals (world m)));
    reflexivity.
Qed.

Lemma update_if_focused_debug l m :
  DEBUG B = true -> update_if_focused P user B l m = call_update user l m.
Proof. intros HB. unfold update_if_focused. now rewrite HB. Qed.

(** A pending [WM_QUIT] is all its pass does. *)
Lemma handle_messages_WM_QUIT l m q :
  peeked P (world m) = Some q ->
  message q = WM_QUIT ->
  handle_messages P l m
  = Done (Break, set_msg q l)
         (mkMachine (final (PeekMessage P (world m)))
                    (trace m ++ [EvPeek (Some q)])).
Proof.
  intros Hq HQ. unfold handle_messages.
  destruct (PeekMessage_takes_oldest P (world m)) as (w1 & HP & _).
  rewrite Hq in HP. rewrite HP. cbn [final].
  unfold bind at 1. unfold lift at 1. rewrite HP.
  unfold bind at 1. unfold emit at 1, modify at 1. cbn [world trace].
  cbn beta iota. rewrite HQ, Z.eqb_refl. reflexivity.
Qed.

(** The message handling leaves the loop for [WM_QUIT] only. *)
Lemma handle_messages_Break l m l0 m0 :
  handle_messages P l m = Done (Break, l0) m0 ->
  exists q, peeked P (world m) = Some q /\ message q = WM_QUIT /\
            l0 = set_msg q l.
Proof.
  unfold handle_messages.
  destruct (PeekMessage_takes_oldest P (world m)) as (w1 & HP & _).
  unfold bind at 1. unfold lift at 1. rewrite HP.
  unfold bind at 1. unfold emit at 1, modify at 1. cbn [world trace].
  destruct (peeked P (world m)) as [q|].
  - destruct (message q =? WM_QUIT) eqn:E.
    + unfold ret. intros H. injection H as <- _.
      exists q. apply Z.eqb_eq in E. auto.
    + destruct (accelerator_hit P q).
      * unfold ret. discriminate.
      * unfold bind at 1. unfold emit at 1, modify at 1.
        unfold bind at 1. destruct (lift _ _); discriminate.
  - unfold ret. discriminate.
Qed.

Lemma frame_loop_WM_QUIT frames spin l m q :
  quit l = false ->
  peeked P (world m) = Some q ->
  message q = WM_QUIT ->
  frame_loop P user B (S frames) spin l m
  = Done (set_msg q l)
         (mkMachine (final (PeekMessage P (world m)))
                    (trace m ++ [EvPeek (Some q)])).
Proof.
  intros Hl Hq HQ. cbn [frame_loop]. rewrite Hl.
  unfold frame. unfold bind at 1. unfold bind at 1.
  rewrite (handle_messages_WM_QUIT l m q Hq HQ). reflexivity.
Qed.

(** A pass that got through its messages and its wait: the update is
    followed by the timestamp and the flush. *)
Lemma frame_pass spin l m l0 m0 l2 m2 l3 m3 :
  handle_messages P l m = Done (Next, l0) m0 ->
  wait_for_frame P B spin l0 m0 = Done l2 m2 ->
  update_if_focused P user B l2 m2 = Done l3 m3 ->
  frame P user B spin l m
  = Done (Next, set_lastDrawTime (now l3) l3)
      (mkMachine (world m3) (trace m3 ++ [EvStamp (now l3); EvDwmFlush])).
Proof.
  intros HH HW HU.
  unfold frame. rewrite (bind_Done _ _ _ _ _ HH).
  rewrite (bind_Done _ _ _ _ _ HW).
  rewrite (bind_Done _ _ _ _ _ HU).
  unfold bind, emit, modify, ret. cbn [world trace].
  rewrite <- app_assoc. reflexivity.
Qed.

(** The loop ends with a pass exactly when the pass left [quit] set. *)
Lemma frame_loop_pass frames spin l m l' m' :
  quit l = false ->
  frame P user B spin l m = Done (Next, l') m' ->
  frame_loop P user B (S frames) spin l m
  = if quit l' then Done l' m' else frame_loop P user B frames spin l' m'.
Proof.
  intros Hl HF.
  cbn [frame_loop]. rewrite Hl.
  rewrite (bind_Done _ _ _ _ _ HF).
  destruct (quit l') eqn:E; [|reflexivity].
  destruct frames; cbn [frame_loop]; rewrite E; reflexivity.
Qed.

(** Lines 162 to 168: the exit callback is applied once, to the world the
    loop left. *)
Lemma shut_down_runs l m :
  let r := MainGameExit user (world m) in
  shut_down user l m
  = if g_pGDIToken (snd r) =? 0
    then Fatal "g_pGDIToken" (mkMachine (snd r) (trace m ++ [EvExit (fst r)]))
    else Done (int32 (wParam (msg l)))
           (mkMachine (snd r)
              (trace m ++ [EvExit (fst r); EvGdiplusShutdown (g_pGDIToken (snd r))])).
Proof.
  intros r. unfold shut_down.
  unfold bind, get, modify, emit, modify, PLAY_ASSERT, ret. cbn [world trace].
  fold r. destruct (g_pGDIToken (snd r) =? 0); cbn [negb].
  - reflexivity.
  - unfold PLAY_ASSERT_MSG, ret. cbn [world trace].
    rewrite <- app_assoc. reflexivity.
Qed.


(** What the update of a pass is applied to: in a release build the world
    after the call of [GetFocus]. *)
Lemma update_if_focused_called l m :
  DEBUG B = true \/
  focus_at P (nFocus (world m)) = m_hWindow (globals (world m)) ->
  let w1 := if DEBUG B then world m
            else set_nFocus (S (nFocus (world m))) (world m) in
  let dt := elapsed_seconds (elapsedTime l) in
  let r := MainGameUpdate user dt w1 in
  update_if_focused P user B l m
  = Done (set_quit (fst r) l)
         (mkMachine (snd r)
            (trace m ++ (if DEBUG B then [] else [EvFocus true])
                     ++ [EvUpdate dt (fst r)])).
Proof.
  intros H w1 dt r. destruct (DEBUG B) eqn:HB.
  - rewrite (update_if_focused_debug l m HB). apply call_update_runs.
  - destruct H as [H|H]; [discriminate|].
    rewrite (update_if_focused_release l m HB).
    rewrite H, Z.eqb_refl. rewrite call_update_runs. cbn [world trace].
    rewrite <- app_assoc. reflexivity.
Qed.

Lemma update_if_focused_skipped l m :
  DEBUG B = false ->
  focus_at P (nFocus (world m)) <> m_hWindow (globals (world m)) ->
  update_if_focused P user B l m
  = Done l (mkMachine (set_nFocus (S (nFocus (world m))) (world m))
              (trace m ++ [EvFocus false])).
Proof.
  intros HB H. rewrite (update_if_focused_release l m HB).
  apply Z.eqb_neq in H. now rewrite H.
Qed.

(** A pass in which the update is called. *)
Lemma frame_update_called spin l m l0 m0 l2 m2 :
  handle_messages P l m = Done (Next, l0) m0 ->
  wait_for_frame P B spin l0 m0 = Done l2 m2 ->
  DEBUG B = true \/
  focus_at P (nFocus (world m2)) = m_hWindow (globals (world m2)) ->
  let w1 := if DEBUG B then world m2
            else set_nFocus (S (nFocus (world m2))) (world m2) in
  let dt := elapsed_seconds (elapsedTime l2) in
  let r := MainGameUpdate user dt w1 in
  frame P user B spin l m
  = Done (Next, set_lastDrawTime (now l2) (set_quit (fst r) l2))
      (mkMachine (snd r)
         (trace m2 ++ (if DEBUG B then [] else [EvFocus true])
                   ++ [EvUpdate dt (fst r); EvStamp (now l2); EvDwmFlush])).
Proof.
  intros HH HW HF w1 dt r.
  pose proof (update_if_focused_called l2 m2 HF) as HU.
  cbv zeta in HU. fold w1 dt r in HU.
  rewrite (frame_pass spin l m l0 m0 l2 m2 _ _ HH HW HU).
  cbn [world trace now set_quit]. rewrite <- !app_assoc. reflexivity.
Qed.

(** A pass of a release build in which the window lacks the focus: the
    update is skipped and the timestamp stored. *)
Lemma frame_update_skipped spin l m l0 m0 l2 m2 :
  handle_messages P l m = Done (Next, l0) m0 ->
  wait_for_frame P B spin l0 m0 = Done l2 m2 ->
  DEBUG B = false ->
  focus_at P (nFocus (world m2)) <> m_hWindow (globals (world m2)) ->
  frame P user B spin l m
  = Done (Next, set_lastDrawTime (now l2) l2)
      (mkMachine (set_nFocus (S (nFocus (world m2))) (world m2))
         (trace m2 ++ [EvFocus false; EvStamp (now l2); EvDwmFlush])).
Proof.
  intros HH HW HB HF.
  pose proof (update_if_focused_skipped l2 m2 HB HF) as HU.
  rewrite (frame_pass spin l m l0 m0 l2 m2 _ _ HH HW HU).
  cbn [world trace]. rewrite <- !app_assoc. reflexivity.
Qed.

(** The loop ends with a pass that calls the update when the callback
    returns [true], and goes on to the next pass when it returns [false]. *)
Lemma frame_loop_update_called frames spin l m l0 m0 l2 m2 :
  quit l = false ->
  handle_messages P l m = Done (Next, l0) m0 ->
  wait_for_frame P B spin l0 m0 = Done l2 m2 ->
  DEBUG B = true \/
  focus_at P (nFocus (world m2)) = m_hWindow (globals (world m2)) ->
  let w1 := if DEBUG B then world m2
            else set_nFocus (S (nFocus (world m2))) (world m2) in
  let dt := elapsed_seconds (elapsedTime l2) in
  let r := MainGameUpdate user dt w1 in
  let l' := set_lastDrawTime (now l2) (set_quit (fst r) l2) in
  let m' := mkMachine (snd r)
              (trace m2 ++ (if DEBUG B then [] else [EvFocus true])
                        ++ [EvUpdate dt (fst r); EvStamp (now l2);
                            EvDwmFlush]) in
  frame_loop P user B (S frames) spin l m
  = if fst r then Done l' m' else frame_loop P user B frames spin l' m'.
Proof.
  intros Hl HH HW HF w1 dt r l' m'.
  apply (frame_loop_pass frames spin l m l' m' Hl).
  apply (frame_update_called spin l m l0 m0 l2 m2 HH HW HF).
Qed.

(** The loop goes on to the next pass after a pass that skipped the
    update. *)
Lemma frame_loop_update_skipped frames spin l m l0 m0 l2 m2 :
  quit l = false ->
  handle_messages P l m = Done (Next, l0) m0 ->
  wait_for_frame P B spin l0 m0 = Done l2 m2 ->
  DEBUG B = false ->
  focus_at P (nFocus (world m2)) <> m_hWindow (globals (world m2)) ->
  frame_loop P user B (S frames) spin l m
  = frame_loop P user B frames spin (set_lastDrawTime (now l2) l2)
      (mkMachine (set_nFocus (S (nFocus (world m2))) (world m2))
         (trace m2 ++ [EvFocus false; EvStamp (now l2); EvDwmFlush])).
Proof.
  intros Hl HH HW HB HF.
  rewrite (frame_loop_pass frames spin l m _ _ Hl
             (frame_update_skipped spin l m l0 m0 l2 m2 HH HW HB HF)).
  assert (Hq : quit (set_lastDrawTime (now l2) l2) = false).
  { cbn [quit set_lastDrawTime].
    rewrite (wait_for_frame_keeps_quit _ _ _ _ _ HW).
    rewrite (handle_messages_keeps_quit _ _ _ _ _ HH). exact Hl. }
  now rewrite Hq.
Qed.

End Passes.

(** ** When the loop ends, and what follows *)



(** ** The focus test of a release build *)

(** C3: in a release build every pass that gets to line 152 asks [GetFocus]
    and compares the answer with [m_hWindow]: when they are equal the
    game-update callback is applied to the elapsed seconds and its result
    assigned to [quit]; when they differ the callback is not called and the
    world is left to the next pass as it is.  Either way the pass stores its
    latest counter reading as the timestamp and flushes, and after a skipped
    update the loop goes on with the next pass, so that the time handed to a
    later update is measured from the skipped pass and not accumulated.  And
    in every run of [HandleWindows] the callback is called only right after
    a successful focus test, a successful test is followed by the call, and
    every update gets the time between the latest timestamp and the latest
    counter reading. *)
Theorem update_called_iff_focused_in_release
    {G : Type} (P : Platform) (user : Game G) (B : Build) :
  DEBUG B = false ->
  (forall (l : Locals) (m : Machine),
     let w1 := set_nFocus (S (nFocus (world m))) (world m) in
     let dt := elapsed_seconds (elapsedTime l) in
     let r := MainGameUpdate user dt w1 in
     update_if_focused P user B l m
     = if focus_at P (nFocus (world m)) =? m_hWindow (globals (world m))
       then Done (set_quit (fst r) l)
              (mkMachine (snd r)
                 (trace m ++ [EvFocus true; EvUpdate dt (fst r)]))
       else Done l (mkMachine w1 (trace m ++ [EvFocus false]))) /\
  (forall (spin : nat) (l l0 l2 : Locals) (m m0 m2 : Machine),
     handle_messages P l m = Done (Next, l0) m0 ->
     wait_for_frame P B spin l0 m0 = Done l2 m2 ->
     let w1 := set_nFocus (S (nFocus (world m2))) (world m2) in
     let dt := elapsed_seconds (elapsedTime l2) in
     let r := MainGameUpdate user dt w1 in
     frame P user B spin l m
     = if focus_at P (nFocus (world m2)) =? m_hWindow (globals (world m2))
       then Done (Next, set_lastDrawTime (now l2) (set_quit (fst r) l2))
              (mkMachine (snd r)
                 (trace m2 ++ [EvFocus true; EvUpdate dt (fst r);
                               EvStamp (now l2); EvDwmFlush]))
       else Done (Next, set_lastDrawTime (now l2) l2)
              (mkMachine w1
                 (trace m2 ++ [EvFocus false; EvStamp (now l2);
                               EvDwmFlush]))) /\
  (forall (frames spin : nat) (l l0 l2 : Locals) (m m0 m2 : Machine),
     quit l = false ->
     handle_messages P l m = Done (Next, l0) m0 ->
     wait_for_frame P B spin l0 m0 = Done l2 m2 ->
     focus_at P (nFocus (world m2)) <> m_hWindow (globals (world m2)) ->
     frame_loop P user B (S frames) spin l m
     = frame_loop P user B frames spin (set_lastDrawTime (now l2) l2)
         (mkMachine (set_nFocus (S (nFocus (world m2))) (world m2))
            (trace m2 ++ [EvFocus false; EvStamp (now l2); EvDwmFlush]))) /\
  (forall (w : World G) (frames spin : nat),
     let o := HandleWindows P user B frames spin (mkMachine w []) in
     every_event focus_gate (trace (final o)) /\
     settled (is_spinning o) (trace (final o)) /\
     every_event (update_timed (int64 (frequency P)) (frame_interval B))
       (trace (final o))).
Proof.
  intros Hrel.
  split; [|split; [|split]].
  - intros l m w1 dt r.
    rewrite (update_if_focused_release P user B l m Hrel).
    destruct (_ =? _); [|reflexivity].
    rewrite call_update_runs. cbn [world trace].
    rewrite <- app_assoc. reflexivity.
  - intros spin l l0 l2 m m0 m2 HH HW w1 dt r.
    destruct (focus_at P (nFocus (world m2))
              =? m_hWindow (globals (world m2))) eqn:E.
    + apply Z.eqb_eq in E.
      pose proof (frame_update_called P user B spin l m l0 m0 l2 m2 HH HW
                    (or_intror E)) as HF.
      cbv zeta in HF. rewrite Hrel in HF. exact HF.
    + apply Z.eqb_neq in E.
      apply (frame_update_skipped P user B spin l m l0 m0 l2 m2 HH HW
               Hrel E).
  - intros frames spin l l0 l2 m m0 m2 Hl HH HW HF.
    apply (frame_loop_update_skipped P user B frames spin l m l0 m0 l2 m2
             Hl HH HW Hrel HF).
  - intros w frames spin o.
    pose proof (HandleWindows_gate P user B Hrel frames spin
                  (mkMachine w []) eq_refl) as H.
    pose proof (HandleWindows_timed P user B frames spin
                  (mkMachine w []) eq_refl) as HT.
    fold o in H, HT.
    destruct o; cbn [final is_spinning]; destruct H as (H1 & H2); auto.
Qed.

(** The test with the focus on another window and on the window of the
    program, and a run of two passes. *)
Lemma update_called_iff_focused_in_release_witness :
  let B := mkBuild false 60 in
  let dt := elapsed_seconds (S754_zero false) in
  let o := HandleWindows platform_steady game_runs_on B 2 1
             (mkMachine world_running []) in
  DEBUG B = false /\
  update_if_focused platform_unfocused game_quits_at_once B locals_start
    (mkMachine world_running [])
  = Done locals_start
      (mkMachine (set_nFocus 1 world_running) [EvFocus false]) /\
  update_if_focused platform_steady game_quits_at_once B locals_start
    (mkMachine world_running [])
  = Done (set_quit true locals_start)
      (mkMachine (set_nFocus 1 world_running)
         [EvFocus true; EvUpdate dt true]) /\
  every_event focus_gate (trace (final o)) /\
  settled (is_spinning o) (trace (final o)).
Proof.
  intros B dt o.
  split; [reflexivity|].
  split; [|split].
  - destruct (update_called_iff_focused_in_release platform_unfocused
                game_quits_at_once B eq_refl) as (H & _).
    exact (H locals_start (mkMachine world_running [])).
  - destruct (update_called_iff_focused_in_release platform_steady
                game_quits_at_once B eq_refl) as (H & _).
    exact (H locals_start (mkMachine world_running [])).
  - destruct (update_called_iff_focused_in_release platform_steady
                game_runs_on B eq_refl) as (_ & _ & _ & H).
    destruct (H world_running 2%nat 1%nat) as (H1 & H2 & _).
    split; [exact H1|exact H2].
Defined.

(** ** Drawing *)

Lemma elem_of_cells (w h : Z) (c : Z * Z) :
  c ∈ cells w h <-> (0 <= fst c < w /\ 0 <= snd c < h).
Proof.
  unfold cells. rewrite list_elem_of_bind. split.
  - intros (j & Hc & Hj). apply list_elem_of_bind in Hc.
    destruct Hc as (i & Hc & Hi).
    apply list_elem_of_singleton in Hc. subst c. cbn [fst snd].
    apply elem_of_seqZ in Hi, Hj. lia.
  - intros (Hi & Hj). exists (snd c). split.
    + apply list_elem_of_bind. exists (fst c). split.
      * destruct c. cbn. apply list_elem_of_singleton. reflexivity.
      * apply elem_of_seqZ. lia.
    + apply elem_of_seqZ. lia.
Qed.

Lemma draw_cell_size write fr origin t c :
  target_width (draw_cell write fr origin t c) = target_width t /\
  target_height (draw_cell write fr origin t c) = target_height t.
Proof. unfold draw_cell. destruct (in_target t _); auto. Qed.

Lemma in_target_draw_cell write fr origin t c p :
  in_target (draw_cell write fr origin t c) p = in_target t p.
Proof.
  unfold in_target.
  destruct (draw_cell_size write fr origin t c) as (-> & ->). reflexivity.
Qed.

(** The pixels of the direct copy of some of the cells of a frame. *)
Lemma direct_copy_cells fr origin cs t p :
  pixel_at (fold_left (draw_cell (fun source _ => source) fr origin) cs t) p
  = if in_target t p &&
       bool_decide ((fst p - fst origin, snd p - snd origin) ∈ cs)
    then frame_pixel fr (fst p - fst origin) (snd p - snd origin)
    else pixel_at t p.
Proof.
  revert t. induction cs as [|c cs IH]; intros t.
  - cbn [fold_left]. rewrite bool_decide_eq_false_2 by apply not_elem_of_nil.
    now rewrite andb_false_r.
  - cbn [fold_left]. rewrite IH, in_target_draw_cell.
    destruct (in_target t p) eqn:Hp; cbn [andb].
    + destruct (decide ((fst p - fst origin, snd p - snd origin) ∈ cs))
        as [Hin|Hin].
      * rewrite !bool_decide_eq_true_2;
          [reflexivity|apply elem_of_cons; auto|exact Hin].
      * rewrite (bool_decide_eq_false_2 _ Hin).
        destruct (decide ((fst p - fst origin, snd p - snd origin) = c))
          as [Hc|Hc].
        -- rewrite bool_decide_eq_true_2 by (apply elem_of_cons; auto).
           subst c. cbn [fst snd]. unfold draw_cell. cbn [fst snd].
           replace (fst origin + (fst p - fst origin),
                    snd origin + (snd p - snd origin)) with p
             by (destruct p; cbn [fst snd]; f_equal; lia).
           rewrite Hp. unfold pixel_at at 1. cbn [target_pixels].
           now rewrite lookup_insert_eq.
        -- rewrite bool_decide_eq_false_2
             by (intros [E|E]%elem_of_cons; [now apply Hc|now apply Hin]).
           unfold draw_cell.
           destruct (in_target t (fst origin + fst c, snd origin + snd c));
             [|reflexivity].
           unfold pixel_at at 1. cbn [target_pixels].
           rewrite lookup_insert_ne; [reflexivity|].
           intros E. apply Hc. rewrite <- E. destruct c. cbn [fst snd].
           f_equal; lia.
    + unfold draw_cell.
      destruct (in_target t (fst origin + fst c, snd origin + snd c)) eqn:Hq;
        [|reflexivity].
      unfold pixel_at at 1. cbn [target_pixels].
      rewrite lookup_insert_ne; [reflexivity|].
      intros E. rewrite E in Hq. congruence.
Qed.

(** The direct copy: a pixel of the target under the frame becomes the
    frame's pixel, whatever it was; every other pixel is left as it is. *)
Lemma direct_copy_pixels fr origin t p :
  pixel_at (direct_copy fr origin t) p
  = if in_target t p && covers fr origin p
    then frame_pixel fr (fst p - fst origin) (snd p - snd origin)
    else pixel_at t p.
Proof.
  unfold direct_copy, blit. rewrite direct_copy_cells.
  replace (bool_decide _) with (covers fr origin p); [reflexivity|].
  unfold covers. symmetry.
  destruct (decide ((fst p - fst origin, snd p - snd origin)
                      ∈ cells (frame_width fr) (frame_height fr))) as [H|H].
  - rewrite (bool_decide_eq_true_2 _ H).
    apply elem_of_cells in H. cbn [fst snd] in H.
    destruct H as ((H1 & H2) & (H3 & H4)).
    apply Z.leb_le in H1, H3. apply Z.ltb_lt in H2, H4.
    now rewrite H1, H2, H3, H4.
  - rewrite (bool_decide_eq_false_2 _ H).
    destruct (_ && _) eqn:E; [|reflexivity].
    exfalso. apply H, elem_of_cells. cbn [fst snd].
    rewrite !andb_true_iff in E. destruct E as (((H1 & H2) & H3) & H4).
    apply Z.leb_le in H1, H3. apply Z.ltb_lt in H2, H4. lia.
Qed.

Lemma direct_copy_size fr origin t :
  target_width (direct_copy fr origin t) = target_width t /\
  target_height (direct_copy fr origin t) = target_height t.
Proof.
  unfold direct_copy, blit.
  generalize (cells (frame_width fr) (frame_height fr)). intros cs.
  revert t. induction cs as [|c cs IH]; intros t; [auto|].
  cbn [fold_left]. destruct (IH (draw_cell (fun s _ => s) fr origin t c))
    as (-> & ->).
  apply draw_cell_size.
Qed.

Lemma opaque_white_default : opaque_white globalMultiply_default = true.
Proof. reflexivity. Qed.


